(** * PISM: enthalpy converter, enthalpy model, FEvoR coupling and CDI back end

    A shallow embedding of the parts of

      - src/base/iceEnthalpyModel.cc  (static converters, IceEnthalpyModel,
                                       PolyThermalGlenPBLDIce)
      - src/fevor/PISMFEvoR.cc        (PISMFEvoR::update, interp_field_point)
      - src/util/io/CDI.cc            (opening, defining and writing a file,
                                       the calendar and the reading stubs)

    that the properties below talk about.

    Scalars.  The C++ code computes with [PetscScalar] and [double].  The
    embedding is written once, over an interface [Scalar] of the arithmetic
    and comparison operators the code uses, and is instantiated twice:

      - at [Q], exact rational arithmetic, where the algebraic laws of the
        converter are proved (no rounding, so "within floating tolerance"
        becomes equality);
      - at [float], the kernel's IEEE-754 binary64 numbers, where the code
        is evaluated on concrete inputs exactly as a C++ [double] would
        (rounding to nearest even, infinities, NaN).

    Control.  [PetscEnd()] terminates the process, a failed [assert] aborts
    it, a C++ [throw] unwinds to the caller and a non-zero [PetscErrorCode]
    is returned through [CHKERRQ]; all four are outcomes of the type [Run].
    So is a write past the end of a [std::vector], which C++ leaves
    undefined: the embedding follows such a run no further. *)

From Stdlib Require Import ZArith QArith Qround Lqa Lia List String Bool.
From Stdlib Require Import Floats.
From stdpp Require Import gmap strings.

Local Open Scope Z_scope.

(* ================================================================== *)
(** * Scalars *)
(* ================================================================== *)

(** The operators of [PetscScalar]/[double] that the sources use.  [lit q]
    is the value of the decimal literal [q] written in the program text. *)
Class Scalar (S : Type) : Type := {
  lit : Q -> S;
  add : S -> S -> S;
  sub : S -> S -> S;
  mul : S -> S -> S;
  div : S -> S -> S;
  opp : S -> S;
  ltb : S -> S -> bool;
  leb : S -> S -> bool
}.

Declare Scope scalar_scope.
Delimit Scope scalar_scope with sc.
Notation "x + y" := (add x y) : scalar_scope.
Notation "x - y" := (sub x y) : scalar_scope.
Notation "x * y" := (mul x y) : scalar_scope.
Notation "x / y" := (div x y) : scalar_scope.
Notation "- x" := (opp x) : scalar_scope.
Notation "x <? y" := (ltb x y) : scalar_scope.
Notation "x <=? y" := (leb x y) : scalar_scope.

(** Exact arithmetic. *)
Definition Qltb (x y : Q) : bool := if Qlt_le_dec x y then true else false.

#[export] Instance exact : Scalar Q := {|
  lit := fun q => q;
  add := Qplus; sub := Qminus; mul := Qmult; div := Qdiv; opp := Qopp;
  ltb := Qltb; leb := Qle_bool
|}.

(** IEEE-754 binary64.  An integer below 2^53 converts exactly, and the
    division is correctly rounded, so [lit (n # d)] is the double nearest to
    the decimal literal, which is what the C++ compiler produces. *)
Definition float_of_Z (z : Z) : float :=
  match z with
  | Z0 => PrimFloat.zero
  | Zpos _ => PrimFloat.of_uint63 (Uint63.of_Z z)
  | Zneg p => PrimFloat.opp (PrimFloat.of_uint63 (Uint63.of_Z (Zpos p)))
  end.

Definition float_of_Q (q : Q) : float :=
  PrimFloat.div (float_of_Z (Qnum q)) (float_of_Z (Zpos (Qden q))).

#[export] Instance binary64 : Scalar float := {|
  lit := float_of_Q;
  add := PrimFloat.add; sub := PrimFloat.sub; mul := PrimFloat.mul;
  div := PrimFloat.div; opp := PrimFloat.opp;
  ltb := PrimFloat.ltb; leb := PrimFloat.leb
|}.

(* ================================================================== *)
(** * Outcomes of a call *)
(* ================================================================== *)

(** Why a run stopped.  The first group are the [PetscEnd()] exits of
    iceEnthalpyModel.cc, named after the message each one prints:
      - [LiquidWaterError]: "enthalpy equals or exceeds that of liquid
        water; ending ..." (getAbsTemp, getWaterFraction);
      - [InvalidWaterFraction]: "water fraction omega not in range [0,1];
        ending ..." (getEnth, getEnth_pa);
      - [SupercooledInputError]: "T exceeds T_0 so we have liquid water"
        (getEnth), "T_pa exceeds T_m so we have liquid water" (getEnth_pa);
      - [NotImplemented]: "IceEnthalpyModel::enthalpyStep(): NOT
        IMPLEMENTED ... ending";
      - [BadInputFile]: "-i file does not look right; at least one of 'z'
        and 'zb' is absent".
    [ErrorCode] is a non-zero [PetscErrorCode] handed back by [CHKERRQ].
    [OutOfDomainError] is the failure of a point that lies outside the
    domain: of the grid's interpolation query, and of the three [assert]s
    with which [PISMFEvoR::update] checks "if the point (x,y,z) is within
    the domain".  [RuntimeError] is the C++ exception of CDI.cc with its
    text.  [PastTheEnd] is a write [v[i] = x] to a [std::vector] of at most
    [i] entries: C++ gives the program no meaning from there on, and the
    embedding follows the run no further. *)
Inductive Stop : Type :=
  | LiquidWaterError
  | InvalidWaterFraction
  | SupercooledInputError
  | NotImplemented
  | BadInputFile
  | ErrorCode (ierr : Z)
  | OutOfDomainError
  | RuntimeError (text : string)
  | PastTheEnd.

Inductive Run (A : Type) : Type :=
  | Return (a : A)
  | Ended (why : Stop).
Arguments Return {A} a.
Arguments Ended {A} why.

Definition bind {A B : Type} (r : Run A) (k : A -> Run B) : Run B :=
  match r with
  | Return a => k a
  | Ended e => Ended e
  end.

(** The run [r] returns, and its result satisfies [P]. *)
Definition returns {A : Type} (r : Run A) (P : A -> Prop) : Prop :=
  match r with
  | Return a => P a
  | Ended _ => False
  end.

#[export] Instance Run_bind : MBind Run := fun A B k r => bind r k.
#[export] Instance Run_ret : MRet Run := @Return.

(** [for (i = lo; i < lo + n; ++i) body], threading the state [a]. *)
Fixpoint for_loop {A : Type} (n : nat) (lo : Z) (body : Z -> A -> Run A) (a : A)
  : Run A :=
  match n with
  | O => Return a
  | S n' => a' ← body lo a; for_loop n' (lo + 1) body a'
  end.

(* ================================================================== *)
(** * iceEnthalpyModel.cc: the static converters *)
(* ================================================================== *)

Module Thermo.

(** The entries of [NCConfigVariable] that [config.get] reads here. *)
Record NCConfigVariable (S : Type) : Type := {
  water_melting_temperature : S;     (* T_0,  K *)
  beta_CC : S;                       (* beta, K Pa-1 *)
  water_specific_heat_capacity : S;  (* c_w,  J kg-1 K-1 *)
  water_latent_heat_fusion : S;      (* L,    J kg-1 *)
  ice_specific_heat_capacity : S;    (* c_i,  J kg-1 K-1 *)
  surface_pressure : S;              (* Pa *)
  earth_gravity : S;
  ice_density : S
}.
Arguments water_melting_temperature {S} _.
Arguments beta_CC {S} _.
Arguments water_specific_heat_capacity {S} _.
Arguments water_latent_heat_fusion {S} _.
Arguments ice_specific_heat_capacity {S} _.
Arguments surface_pressure {S} _.
Arguments earth_gravity {S} _.
Arguments ice_density {S} _.

(** The three values [get_H_s] hands back through its reference arguments. *)
Record Triple (S : Type) : Type := { T_m : S; H_l : S; H_s : S }.
Arguments T_m {S} _.
Arguments H_l {S} _.
Arguments H_s {S} _.

Section Converters.
Context {S : Type} `{Scalar S}.
Local Open Scope scalar_scope.

Definition getPressureFromDepth (config : NCConfigVariable S) (depth : S) : S :=
  let p_air := surface_pressure config in
  if depth <=? lit 0%Q then p_air
  else
    let g := earth_gravity config in
    let rho_i := ice_density config in
    p_air + rho_i * g * depth.

Definition get_H_s (config : NCConfigVariable S) (p : S) : Triple S :=
  let T_0 := water_melting_temperature config in
  let beta := beta_CC config in
  let c_w := water_specific_heat_capacity config in
  let L := water_latent_heat_fusion config in
  let T_m := T_0 - beta * p in
  let H_l := c_w * T_m in
  let H_s := - L + H_l in
  {| T_m := T_m; H_l := H_l; H_s := H_s |}.

Definition getAbsTemp (config : NCConfigVariable S) (H p : S) : Run S :=
  let t := get_H_s config p in
  if H <? H_s t then
    let c_i := ice_specific_heat_capacity config in
    Return (((H - H_s t) / c_i) + T_m t)
  else if H <? H_l t then
    Return (T_m t)
  else
    Ended LiquidWaterError.

Definition getWaterFraction (config : NCConfigVariable S) (H p : S) : Run S :=
  let t := get_H_s config p in
  if H <=? H_s t then
    Return (lit 0%Q)
  else if H <? H_l t then
    let L := water_latent_heat_fusion config in
    Return ((H - H_s t) / L)
  else
    Ended LiquidWaterError.

Definition getEnth (config : NCConfigVariable S) (T omega p : S) : Run S :=
  if (omega <? lit 0%Q) || (lit 1%Q <? omega) then Ended InvalidWaterFraction
  else
    let T_0 := water_melting_temperature config in
    if T_0 + lit 0.000001%Q <? T then Ended SupercooledInputError
    else
      let t := get_H_s config p in
      let c_w := water_specific_heat_capacity config in
      let c_i := ice_specific_heat_capacity config in
      let c := (lit 1%Q - omega) * c_i + omega * c_w in
      Return (H_s t + c * (T - T_0)).

Definition getEnth_pa (config : NCConfigVariable S) (T_pa omega p : S) : Run S :=
  if (omega <? lit 0%Q) || (lit 1%Q <? omega) then Ended InvalidWaterFraction
  else
    let t := get_H_s config p in
    if T_m t + lit 0.000001%Q <? T_pa then Ended SupercooledInputError
    else
      let c_w := water_specific_heat_capacity config in
      let c_i := ice_specific_heat_capacity config in
      let c := (lit 1%Q - omega) * c_i + omega * c_w in
      Return (H_s t + c * (T_pa - T_m t)).

End Converters.

(** The calibration of the end-to-end scenario (T_0 = 273.15, beta =
    7.9e-8, L = 3.34e5, c_i = 2009, c_w = 4170), with a surface pressure of
    zero and the usual gravity and ice density. *)
Definition scenario {S : Type} `{Scalar S} : NCConfigVariable S := {|
  water_melting_temperature := lit 273.15%Q;
  beta_CC := lit 7.9e-8%Q;
  water_specific_heat_capacity := lit 4170%Q;
  water_latent_heat_fusion := lit 3.34e5%Q;
  ice_specific_heat_capacity := lit 2009%Q;
  surface_pressure := lit 0%Q;
  earth_gravity := lit 9.81%Q;
  ice_density := lit 910%Q
|}.

End Thermo.

(* ================================================================== *)
(** * iceEnthalpyModel.cc: the class IceEnthalpyModel *)
(* ================================================================== *)

Module EnthalpyModel.
Import Thermo.

(** The part of [IceGrid] read here: the owned index ranges, the number of
    vertical levels and their heights. *)
Record IceGrid (S : Type) : Type := {
  xs : Z; xm : Z; ys : Z; ym : Z;
  Mz : Z;
  zlevels : Z -> S
}.
Arguments xs {S} _.
Arguments xm {S} _.
Arguments ys {S} _.
Arguments ym {S} _.
Arguments Mz {S} _.
Arguments zlevels {S} _ _.

(** A 2-D field is read as [H[i][j]]; a 3-D field is read and written
    through the column pointer that [getInternalColumn(i,j,...)] returns,
    as [column[k]].  Only cells inside the allocated block are touched. *)
Definition IceModelVec2 (S : Type) : Type := Z -> Z -> S.
Definition IceModelVec3 (S : Type) : Type := Z -> Z -> Z -> S.

Definition set_level {S : Type} (v : IceModelVec3 S) (i j k : Z) (x : S)
  : IceModelVec3 S :=
  fun i' j' k' =>
    if (i' =? i) && (j' =? j) && (k' =? k) then x else v i' j' k'.

(** What the model has printed and communicated, in order. *)
Inductive Event : Type :=
  | verbPrintf (threshold : Z) (text : string)
  | beginGhostComm (field : string)
  | endGhostComm (field : string).

Definition DEBUGVERB : Z := 2.

Record IceEnthalpyModel (S : Type) : Type := {
  grid : IceGrid S;
  config : NCConfigVariable S;
  doColdIceTemperatureStep : bool;
  vH : IceModelVec2 S;
  T3 : IceModelVec3 S;
  Enth3 : IceModelVec3 S;
  EnthNew3 : IceModelVec3 S;
  events : list Event
}.
Arguments grid {S} _.
Arguments config {S} _.
Arguments doColdIceTemperatureStep {S} _.
Arguments vH {S} _ _ _.
Arguments T3 {S} _ _ _ _.
Arguments Enth3 {S} _ _ _ _.
Arguments EnthNew3 {S} _ _ _ _.
Arguments events {S} _.

Definition with_Enth3 {S : Type} (m : IceEnthalpyModel S) (v : IceModelVec3 S)
  : IceEnthalpyModel S :=
  {| grid := grid m; config := config m;
     doColdIceTemperatureStep := doColdIceTemperatureStep m;
     vH := vH m; T3 := T3 m; Enth3 := v; EnthNew3 := EnthNew3 m;
     events := events m |}.

Definition log {S : Type} (m : IceEnthalpyModel S) (es : list Event)
  : IceEnthalpyModel S :=
  {| grid := grid m; config := config m;
     doColdIceTemperatureStep := doColdIceTemperatureStep m;
     vH := vH m; T3 := T3 m; Enth3 := Enth3 m; EnthNew3 := EnthNew3 m;
     events := events m ++ es |}.

(** What [NCTool] finds in an input file: the lengths of the vertical
    dimensions ([grid_info]) and the names of the variables. *)
Record NCFile : Type := {
  z_len : Z;
  zb_len : Z;
  variables : gset string
}.

(** What the class takes from outside this file:
      - the base class methods [IceModel::initFromFile] and
        [IceModel::temperatureStep];
      - [NCTool::open_for_reading], which fails with an error code or gives
        access to the file;
      - [IceModelVec3::regrid] of the enthalpy from a file;
      - the ghost communication of a 3-D field, which refreshes the ghost
        cells from the neighbouring processes. *)
Record External (S : Type) : Type := {
  IceModel_initFromFile : string -> IceEnthalpyModel S -> Run (IceEnthalpyModel S);
  IceModel_temperatureStep :
    IceEnthalpyModel S -> S * S -> Run (IceEnthalpyModel S * (S * S));
  open_for_reading : string -> Run NCFile;
  regrid : string -> NCFile -> IceEnthalpyModel S -> Run (IceModelVec3 S);
  ghostComm : IceGrid S -> IceModelVec3 S -> IceModelVec3 S
}.
Arguments IceModel_initFromFile {S} _ _ _.
Arguments IceModel_temperatureStep {S} _ _ _.
Arguments open_for_reading {S} _ _.
Arguments regrid {S} _ _ _ _.
Arguments ghostComm {S} _ _ _.

Section Model.
Context {S : Type} `{Scalar S}.
Local Open Scope scalar_scope.

(** The body of the innermost loop of [setEnth3FromT3_ColdIce]. *)
Definition coldIceLevel (m : IceEnthalpyModel S) (i j k : Z)
    (Enth : IceModelVec3 S) : Run (IceModelVec3 S) :=
  let depth := vH m i j - zlevels (grid m) k in
  if lit 0%Q <? depth then
    E ← getEnth (config m) (T3 m i j k) (lit 0%Q)
                (getPressureFromDepth (config m) depth);
    Return (set_level Enth i j k E)
  else
    Return (set_level Enth i j k (lit 0%Q)).

(** The value that the loop computes for the cell (i,j,k): the enthalpy of
    cold ice below the surface, zero at or above it. *)
Definition cold_ice_cell (m : IceEnthalpyModel S) (i j k : Z) : Run S :=
  let depth := vH m i j - zlevels (grid m) k in
  if lit 0%Q <? depth then
    getEnth (config m) (T3 m i j k) (lit 0%Q)
            (getPressureFromDepth (config m) depth)
  else Return (lit 0%Q).

(** The cells that this process owns. *)
Definition owned (m : IceEnthalpyModel S) (i j k : Z) : Prop :=
  (xs (grid m) <= i < xs (grid m) + xm (grid m) /\
   ys (grid m) <= j < ys (grid m) + ym (grid m) /\
   0 <= k < Mz (grid m))%Z.

(** [E'] holds the computed value on the cells of [P] and is [E] elsewhere. *)
Definition fills (m : IceEnthalpyModel S) (P : Z -> Z -> Z -> Prop)
    (E E' : IceModelVec3 S) : Prop :=
  forall i j k,
    (P i j k -> Return (E' i j k) = cold_ice_cell m i j k) /\
    (~ P i j k -> E' i j k = E i j k).

Definition setEnth3FromT3_ColdIce (ext : External S) (m : IceEnthalpyModel S)
  : Run (IceEnthalpyModel S) :=
  let g := grid m in
  Enth ← for_loop (Z.to_nat (xm g)) (xs g) (fun i =>
            for_loop (Z.to_nat (ym g)) (ys g) (fun j =>
              for_loop (Z.to_nat (Mz g)) 0 (fun k =>
                coldIceLevel m i j k)))
          (Enth3 m);
  Return (log (with_Enth3 m (ghostComm ext g Enth))
              [beginGhostComm "enthalpy"; endGhostComm "enthalpy"]).

Definition initFromFile (ext : External S) (fname : string)
    (m : IceEnthalpyModel S) : Run (IceEnthalpyModel S) :=
  m ← IceModel_initFromFile ext fname m;
  let m := log m [verbPrintf DEBUGVERB
    ("entering IceEnthalpyModel::initFromFile() after base class version;"
     +:+ "  looking in '" +:+ fname +:+ "' for variable 'enthalpy' ... ")] in
  nc ← open_for_reading ext fname;
  let enthExists := bool_decide ("enthalpy" ∈ variables nc) in
  if enthExists then
    if negb (z_len nc =? 0) && negb (zb_len nc =? 0) then
      Enth ← regrid ext fname nc m;
      Return (with_Enth3 m Enth)
    else
      Ended BadInputFile
  else
    let m := log m [verbPrintf DEBUGVERB
      "  variable 'enthalpy' not found so setting it as cold ice, from temperature ..."] in
    setEnth3FromT3_ColdIce ext m.

(** What [initFromFile] prints and communicates after the base class when
    it falls back to cold ice. *)
Definition init_messages (fname : string) : list Event :=
  [ verbPrintf DEBUGVERB
      ("entering IceEnthalpyModel::initFromFile() after base class version;"
       +:+ "  looking in '" +:+ fname +:+ "' for variable 'enthalpy' ... ");
    verbPrintf DEBUGVERB
      "  variable 'enthalpy' not found so setting it as cold ice, from temperature ...";
    beginGhostComm "enthalpy"; endGhostComm "enthalpy" ].

(** [enthalpyStep] prints "NOT IMPLEMENTED ... ending" and calls
    [PetscEnd()]; its [return 0] is never reached, and neither field nor
    counter is touched before the process ends. *)
Definition enthalpyStep (ext : External S) (m : IceEnthalpyModel S)
    (counts : S * S) : Run (IceEnthalpyModel S * (S * S)) :=
  Ended NotImplemented.

(** [counts] are the two counters [*vertSacrCount] and [*bulgeCount]. *)
Definition temperatureStep (ext : External S) (m : IceEnthalpyModel S)
    (counts : S * S) : Run (IceEnthalpyModel S * (S * S)) :=
  if doColdIceTemperatureStep m then
    let m := log m [verbPrintf DEBUGVERB
      "     IceEnthalpyModel::temperatureStep(): CALLING IceModel::temperatureStep()"] in
    IceModel_temperatureStep ext m counts
  else
    let m := log m [verbPrintf DEBUGVERB
      "     IceEnthalpyModel::temperatureStep(): CALLING IceEnthalpyModel::enthalpyStep()"] in
    enthalpyStep ext m counts.

End Model.

End EnthalpyModel.

(* ================================================================== *)
(** * PISMFEvoR.cc *)
(* ================================================================== *)

Module FEvoR.

Definition IceModelVec3 (S : Type) : Type := Z -> Z -> Z -> S.

(** The part of [IceGrid] used by PISMFEvoR.cc.  [compute_point_neighbors]
    and [compute_interp_weights] are methods of the grid; their code is not
    in this file, so the embedding takes them with the grid. *)
Record IceGrid (S : Type) : Type := {
  Lx : S; Ly : S; Lz : S;
  Mz : Z;
  zlevels : Z -> S;
  xs : Z; xm : Z; ys : Z; my : Z;
  x : Z -> S;
  compute_point_neighbors : S -> S -> Run (Z * Z);
  compute_interp_weights : S -> S -> Run (list S)
}.
Arguments Lx {S} _.
Arguments Ly {S} _.
Arguments Lz {S} _.
Arguments Mz {S} _.
Arguments zlevels {S} _ _.
Arguments xs {S} _.
Arguments xm {S} _.
Arguments ys {S} _.
Arguments my {S} _.
Arguments x {S} _ _.
Arguments compute_point_neighbors {S} _ _ _.
Arguments compute_interp_weights {S} _ _ _.

(** What [update] takes from outside: the configuration value, the three
    diagnostics of the stress balance, the enthalpy converter, FEvoR's
    [fevor_distribution::stepInTime] (for a distribution made with Watson
    parameter [w], giving [bulkEdot]) and [tensorMagnitude], and CGAL's
    natural-neighbour interpolation of the particle values at a point. *)
Record External (S : Type) : Type := {
  sia_enhancement_factor : S;
  get_3d_velocity : Run unit;
  pressure_compute : Run (IceModelVec3 S);
  tauxz_compute : Run (IceModelVec3 S);
  tauyz_compute : Run (IceModelVec3 S);
  EC_getAbsTemp : S -> S -> Run S;
  stepInTime : S -> S -> list S -> S -> S -> list S;
  tensorMagnitude : list S -> S;
  natural_neighbor : list (S * S * S) -> S -> S -> S
}.
Arguments sia_enhancement_factor {S} _.
Arguments get_3d_velocity {S} _.
Arguments pressure_compute {S} _.
Arguments tauxz_compute {S} _.
Arguments tauyz_compute {S} _.
Arguments EC_getAbsTemp {S} _ _ _.
Arguments stepInTime {S} _ _ _ _ _ _.
Arguments tensorMagnitude {S} _ _.
Arguments natural_neighbor {S} _ _ _ _.

Record PISMFEvoR (S : Type) : Type := {
  grid : IceGrid S;
  m_t : S;
  m_dt : S;
  m_enthalpy : IceModelVec3 S;
  m_enhancement_factor : IceModelVec3 S
}.
Arguments grid {S} _.
Arguments m_t {S} _.
Arguments m_dt {S} _.
Arguments m_enthalpy {S} _ _ _ _.
Arguments m_enhancement_factor {S} _ _ _ _.

Section Code.
Context {S : Type} `{Scalar S}.
Local Open Scope scalar_scope.

(** [v[i]] for a [std::vector<double>]; the code only reads below the
    size. *)
Definition at_ (v : list S) (i : nat) : S := nth i v (lit 0%Q).

(** [v[i] = x] for a [std::vector<double>]: below the size the entry is
    replaced, and at the size or above it the write is past the end of the
    vector. *)
Definition set_at (v : list S) (i : nat) (x : S) : Run (list S) :=
  if (i <? length v)%nat then Return (<[i := x]> v) else Ended PastTheEnd.

(** [while (K + 1 < grid.Mz - 1 && grid.zlevels[K + 1] < z) K++;]
    [K] is an [unsigned int], so the first test compares unsigned values.
    On a grid with at least one level, [1 <= Mz], neither side wraps and
    the test is the one on the integers written here; [K] grows by one per
    turn and stops below [Mz], so [Mz] turns are enough.  A grid without a
    level is no input of this function: there [grid.Mz - 1] wraps, and the
    search reads [zlevels] past its end. *)
Fixpoint level_below (g : IceGrid S) (z : S) (turns : nat) (K : Z) : Z :=
  match turns with
  | O => K
  | Datatypes.S turns' =>
      if (K + 1 <? Mz g - 1)%Z && (zlevels g (K + 1) <? z)
      then level_below g z turns' (K + 1)%Z
      else K
  end.

(** The result is the value left in [feildValue]; when the run ends before
    the last line, nothing has been written.  [getInternalColumn] hands out
    the four columns of the field. *)
Definition interp_field_point (g : IceGrid S) (x y z : S)
    (field3 : IceModelVec3 S) : Run S :=
  '(I', J') ← compute_point_neighbors g x y;
  weights ← compute_interp_weights g x y;
  let column0 := field3 I' J' in
  let column1 := field3 (I' + 1)%Z J' in
  let column2 := field3 (I' + 1)%Z (J' + 1)%Z in
  let column3 := field3 I' (J' + 1)%Z in
  let K := level_below g z (Z.to_nat (Mz g)) 0%Z in
  let z_weight := (z - zlevels g K) / (zlevels g (K + 1) - zlevels g K) in
  let f0 := column0 K + z_weight * (column0 (K + 1)%Z - column0 K) in
  let f1 := column1 K + z_weight * (column1 (K + 1)%Z - column1 K) in
  let f2 := column2 K + z_weight * (column2 (K + 1)%Z - column2 K) in
  let f3 := column3 K + z_weight * (column3 (K + 1)%Z - column3 K) in
  Return (at_ weights 0 * f0 + at_ weights 1 * f1
          + at_ weights 2 * f2 + at_ weights 3 * f3).


(** [assert(...)] on the position of a particle: "check if the point
    (x,y,z) is within the domain". *)
Definition assert_within_domain (b : bool) : Run unit :=
  if b then Return tt else Ended OutOfDomainError.

Definition n_particles : nat := 10.
Definition n_pd : S := lit 10%Q.

(** The loop [for (double pn=0.0; pn < n_pd; ++pn)] that fills [p_x], [p_y],
    [p_z] and [p_e]; it makes [n_particles] turns. *)
Fixpoint fake_cloud (g : IceGrid S) (turns : nat) (pn : S)
  : list S * list S * list S * list S :=
  match turns with
  | O => ([], [], [], [])
  | Datatypes.S turns' =>
      if pn <? n_pd then
        let '(p_x, p_y, p_z, p_e) := fake_cloud g turns' (pn + lit 1%Q) in
        ((if pn <? n_pd / lit 2%Q
          then - Lx g + lit 2%Q * Lx g * (lit 2%Q * pn / n_pd)
          else - Lx g + lit 2%Q * Lx g * (lit 2%Q * pn / n_pd - lit 1%Q))
           :: p_x,
         lit 0%Q :: p_y,
         (if pn <? n_pd / lit 2%Q then lit 0%Q else Lz g) :: p_z,
         lit 1%Q :: p_e)
      else ([], [], [], [])
  end.

(** "some bounds for the enhancement factor" *)
Definition bounds (e : S) : S :=
  if e <? lit 1%Q then lit 1%Q
  else if lit 10%Q <? e then lit 10%Q
  else e.

(** [std::vector<double> stress(9,0.0);] and the three chained assignments
    that follow it.  In a chain the rightmost assignment is made first, so
    the first write is [stress[9] = P], to a vector whose last entry is
    [stress[8]]. *)
Definition stress_of (P txz tyz : S) : Run (list S) :=
  let stress := repeat (lit 0%Q) 9 in
  stress ← set_at stress 9 P;
  stress ← set_at stress 5 P;
  stress ← set_at stress 1 P;
  stress ← set_at stress 7 txz;
  stress ← set_at stress 3 txz;
  stress ← set_at stress 8 tyz;
  stress ← set_at stress 6 tyz;
  Return stress.

(** One turn of "get enhancement factor for every particle!".  The two
    counters of recrystallization events that [stepInTime] also updates are
    diagnostics and are left out. *)
Definition particle (ext : External S) (m : PISMFEvoR S)
    (pressure3 tauxz3 tauyz3 : IceModelVec3 S)
    (p_x p_y p_z : list S) (i : nat) (p_e : list S) : Run (list S) :=
  let g := grid m in
  let w_i := lit (-3)%Q in
  _ ← assert_within_domain ((lit 0%Q <=? at_ p_z i) && (at_ p_z i <=? Lz g));
  _ ← assert_within_domain ((- Lx g <=? at_ p_x i) && (at_ p_x i <=? Lx g));
  _ ← assert_within_domain ((- Ly g <=? at_ p_y i) && (at_ p_y i <=? Ly g));
  P ← interp_field_point g (at_ p_x i) (at_ p_y i) (at_ p_z i) pressure3;
  txz ← interp_field_point g (at_ p_x i) (at_ p_y i) (at_ p_z i) tauxz3;
  tyz ← interp_field_point g (at_ p_x i) (at_ p_y i) (at_ p_z i) tauyz3;
  stress ← stress_of P txz tyz;
  E ← interp_field_point g (at_ p_x i) (at_ p_y i) (at_ p_z i) (m_enthalpy m);
  T ← EC_getAbsTemp ext E P;
  let bulkEdot := stepInTime ext w_i T stress (m_t m) (m_dt m) in
  let bulkEdot_iso := stepInTime ext (lit 0%Q) T stress (m_t m) (m_dt m) in
  let e := tensorMagnitude ext bulkEdot / tensorMagnitude ext bulkEdot_iso in
  set_at p_e i (bounds e).

Fixpoint particles (ext : External S) (m : PISMFEvoR S)
    (pressure3 tauxz3 tauyz3 : IceModelVec3 S)
    (p_x p_y p_z : list S) (turns i : nat) (p_e : list S) : Run (list S) :=
  match turns with
  | O => Return p_e
  | Datatypes.S turns' =>
      p_e ← particle ext m pressure3 tauxz3 tauyz3 p_x p_y p_z i p_e;
      particles ext m pressure3 tauxz3 tauyz3 p_x p_y p_z turns' (Datatypes.S i) p_e
  end.

(** [interp_grid_point]: every owned column (i, all j) gets, at each level
    k, the natural-neighbour interpolant of the particle values at
    (grid.x(i), grid.zlevels(k)). *)
Definition interp_grid_point (ext : External S) (m : PISMFEvoR S)
    (n : nat) (x z e : list S) : PISMFEvoR S :=
  let g := grid m in
  let cloud := map (fun pn => (at_ x pn, at_ z pn, at_ e pn)) (seq 0 n) in
  {| grid := g; m_t := m_t m; m_dt := m_dt m; m_enthalpy := m_enthalpy m;
     m_enhancement_factor := fun i j k =>
       if (xs g <=? i)%Z && (i <? xs g + xm g)%Z
          && (0 <=? k)%Z && (k <? Mz g)%Z
          && (ys g <=? j)%Z && (j <? ys g + my g)%Z
       then natural_neighbor ext cloud (FEvoR.x g i) (zlevels g k)
       else m_enhancement_factor m i j k |}.

(** The block of [update] between the braces, up to the call of
    [interp_grid_point]: the vectors [p_x], [p_z] and [p_e] handed to it. *)
Definition particle_cloud (ext : External S) (m : PISMFEvoR S)
    (pressure3 tauxz3 tauyz3 : IceModelVec3 S)
  : Run (list S * list S * list S) :=
  let '(p_x, p_y, p_z, p_e) := fake_cloud (grid m) n_particles (lit 0%Q) in
  p_e ← particles ext m pressure3 tauxz3 tauyz3 p_x p_y p_z n_particles 0 p_e;
  Return (p_x, p_z, p_e).

(** [update], for a model that [init] has set up: the three diagnostics
    [m_pressure], [m_tauxz] and [m_tauyz] exist, as the first three
    assertions require. *)
Definition update (ext : External S) (m : PISMFEvoR S) (t dt : S)
  : Run (PISMFEvoR S) :=
  let m := {| grid := grid m; m_t := t; m_dt := dt;
              m_enthalpy := m_enthalpy m;
              m_enhancement_factor := m_enhancement_factor m |} in
  _ ← get_3d_velocity ext;
  pressure3 ← pressure_compute ext;
  tauxz3 ← tauxz_compute ext;
  tauyz3 ← tauyz_compute ext;
  let m := {| grid := grid m; m_t := m_t m; m_dt := m_dt m;
              m_enthalpy := m_enthalpy m;
              m_enhancement_factor := fun _ _ _ => sia_enhancement_factor ext |} in
  '(p_x, p_z, p_e) ← particle_cloud ext m pressure3 tauxz3 tauyz3;
  Return (interp_grid_point ext m n_particles p_x p_z p_e).

End Code.

End FEvoR.

(* ================================================================== *)
(** * The grid's interpolation query *)
(* ================================================================== *)

Module GridQuery.

(** Modelled from the spec: the horizontal part of [IceGrid], whose code is
    not among the sources: a physical domain [-Lx,Lx] x [-Ly,Ly] carrying
    Mx x My equally spaced nodes, the first and the last of each direction
    on the boundary. *)
Record Domain : Type := { Lx : Q; Ly : Q; Mx : Z; My : Z }.

Section Query.
Local Open Scope Q_scope.
Variable d : Domain.

Definition dx : Q := 2 * Lx d / inject_Z (Mx d - 1).
Definition dy : Q := 2 * Ly d / inject_Z (My d - 1).
Definition x_node (i : Z) : Q := - Lx d + inject_Z i * dx.
Definition y_node (j : Z) : Q := - Ly d + inject_Z j * dy.

(** Modelled from the spec: "inside the physical domain bounds", with the
    bounds that [PISMFEvoR::update] asserts for a particle. *)
Definition inside (x y : Q) : bool :=
  Qle_bool (- Lx d) x && Qle_bool x (Lx d)
  && Qle_bool (- Ly d) y && Qle_bool y (Ly d).

(** Modelled from the spec: the query [collectInterpolationWeights(x, y)] of
    the grid (section 4.5), whose code is not among the sources; in
    PISMFEvoR.cc it is reached through [grid.compute_point_neighbors] and
    [grid.compute_interp_weights].  It returns the bilinear weights and the
    four enclosing grid indices, in the order in which [interp_field_point]
    reads the columns, (I,J), (I+1,J), (I+1,J+1), (I,J+1), and fails with
    [OutOfDomainError] if the point lies outside the physical domain
    bounds. *)
Definition collectInterpolationWeights (x y : Q)
  : Run (list Q * list (Z * Z)) :=
  if inside x y then
    let I' := Z.min (Qfloor ((x + Lx d) / dx)) (Mx d - 2) in
    let J' := Z.min (Qfloor ((y + Ly d) / dy)) (My d - 2) in
    let alpha := (x - x_node I') / dx in
    let beta := (y - y_node J') / dy in
    Return ([ (1 - alpha) * (1 - beta); alpha * (1 - beta);
              alpha * beta; (1 - alpha) * beta ],
            [ (I', J'); (I' + 1, J')%Z; (I' + 1, J' + 1)%Z; (I', J' + 1)%Z ])
  else Ended OutOfDomainError.




(** Modelled from the spec: the two grid methods that PISMFEvoR.cc calls,
    as the two halves of the query's answer. *)
Definition compute_point_neighbors (x y : Q) : Run (Z * Z) :=
  '(_, indices) ← collectInterpolationWeights x y;
  Return (hd (0, 0)%Z indices).

Definition compute_interp_weights (x y : Q) : Run (list Q) :=
  '(weights, _) ← collectInterpolationWeights x y;
  Return weights.

(** The grid of PISMFEvoR.cc over this domain. *)
Definition grid (Lz : Q) (Mz : Z) (zlevels : Z -> Q) (xs xm ys my : Z)
  : FEvoR.IceGrid Q :=
  {| FEvoR.Lx := Lx d; FEvoR.Ly := Ly d; FEvoR.Lz := Lz;
     FEvoR.Mz := Mz; FEvoR.zlevels := zlevels;
     FEvoR.xs := xs; FEvoR.xm := xm; FEvoR.ys := ys; FEvoR.my := my;
     FEvoR.x := x_node;
     FEvoR.compute_point_neighbors := compute_point_neighbors;
     FEvoR.compute_interp_weights := compute_interp_weights |}.

End Query.

End GridQuery.

(* ================================================================== *)
(** * CDI.cc *)
(* ================================================================== *)

Module CDI.

(** [IO_Mode] and [AxisType] are enumerations declared outside CDI.cc; the
    embedding keeps their integer values and takes [PISM_READONLY] and the
    CDI-PIO library (cdi.h) as given. *)
Definition IO_Mode : Type := Z.
Definition AxisType : Type := Z.

Record Library : Type := {
  PISM_READONLY : IO_Mode;
  streamInqVlist : Z -> Z;
  vlistInqTaxis : Z -> Z;
  vlistNvars : Z -> Z;
  vlistInqVarName : Z -> Z -> string;
  vlistNzaxis : Z -> Z;
  vlistZaxis : Z -> Z -> Z;
  zaxisInqName : Z -> string;
  vlistGrid : Z -> Z -> Z;
  streamOpenWrite : string -> Z -> Z;
  CDI_FILETYPE_NC : Z;
  CDI_FILETYPE_NC2 : Z;
  CDI_FILETYPE_NC4 : Z;
  CDI_FILETYPE_NC4C : Z
}.

(** The data members of the class that the modelled methods touch. *)
Record State : Type := {
  m_file_id : Z;
  m_vlistID : Z;
  m_tID : Z;
  m_zsID : Z;
  m_gridID : Z;
  m_varsID : gmap string Z;
  m_zID : gmap string Z;
  m_dimsAxis : gmap string AxisType;
  m_diagvars : gset string;
  m_beforediag : bool
}.

Definition reading_not_supported : string :=
  "file reading not supported with CDI-PIO in PISM".

Section Methods.
Variable lib : Library.

(** [m_varsID[name] = varID] for varID = 0 .. Nvars-1. *)
Definition map_varsID (self : State) : State :=
  let Nvars := vlistNvars lib (m_vlistID self) in
  let vars :=
    fold_left (fun (vars : gmap string Z) (varID : nat) =>
                 <[ vlistInqVarName lib (m_vlistID self) (Z.of_nat varID)
                    := Z.of_nat varID ]> vars)
              (seq 0 (Z.to_nat Nvars)) (m_varsID self) in
  {| m_file_id := m_file_id self; m_vlistID := m_vlistID self;
     m_tID := m_tID self; m_zsID := m_zsID self; m_gridID := m_gridID self;
     m_varsID := vars; m_zID := m_zID self; m_dimsAxis := m_dimsAxis self;
     m_diagvars := m_diagvars self; m_beforediag := m_beforediag self |}.

(** [m_zID[name] = zaxisID] for each z axis, then [m_zsID = m_zID["zs"]];
    [operator[]] of [std::map] enters the key with the value 0 when it is
    absent. *)
Definition map_zaxisID (self : State) : State :=
  let nz := vlistNzaxis lib (m_vlistID self) in
  let zs :=
    fold_left (fun (zs : gmap string Z) (n : nat) =>
                 let zaxisID := vlistZaxis lib (m_vlistID self) (Z.of_nat n) in
                 <[ zaxisInqName lib zaxisID := zaxisID ]> zs)
              (seq 0 (Z.to_nat nz)) (m_zID self) in
  let zs' := match zs !! "zs" with
             | Some _ => zs
             | None => <[ "zs" := 0 ]> zs
             end in
  {| m_file_id := m_file_id self; m_vlistID := m_vlistID self;
     m_tID := m_tID self; m_zsID := default 0 (zs !! "zs");
     m_gridID := m_gridID self;
     m_varsID := m_varsID self; m_zID := zs'; m_dimsAxis := m_dimsAxis self;
     m_diagvars := m_diagvars self; m_beforediag := m_beforediag self |}.

(** A method leaves the object in a state and either returns or throws. *)
Definition open_impl (self : State) (fname : string) (mode : IO_Mode)
    (FileID : Z) (dimsa : gmap string AxisType) : State * Run unit :=
  if mode =? PISM_READONLY lib then
    (self, Ended (RuntimeError reading_not_supported))
  else
    let m_file_id' := FileID in
    let m_vlistID' := streamInqVlist lib m_file_id' in
    let m_tID' := vlistInqTaxis lib m_vlistID' in
    let self :=
      {| m_file_id := m_file_id'; m_vlistID := m_vlistID'; m_tID := m_tID';
         m_zsID := m_zsID self; m_gridID := m_gridID self;
         m_varsID := m_varsID self; m_zID := m_zID self;
         m_dimsAxis := m_dimsAxis self;
         m_diagvars := m_diagvars self; m_beforediag := m_beforediag self |} in
    let self := map_varsID self in
    let self := map_zaxisID self in
    ({| m_file_id := m_file_id self; m_vlistID := m_vlistID self;
        m_tID := m_tID self; m_zsID := m_zsID self;
        m_gridID := vlistGrid lib (m_vlistID self) 0;
        m_varsID := m_varsID self; m_zID := m_zID self;
        m_dimsAxis := dimsa;
        m_diagvars := m_diagvars self; m_beforediag := m_beforediag self |},
     Return tt).

(** [file_type] looks the name up in its table of four CDI file types. *)
Definition file_type (name : string) : Run Z :=
  let types : gmap string Z :=
    <[ "CDI_FILETYPE_NC4C" := CDI_FILETYPE_NC4C lib ]>
    (<[ "CDI_FILETYPE_NC4" := CDI_FILETYPE_NC4 lib ]>
    (<[ "CDI_FILETYPE_NC2" := CDI_FILETYPE_NC2 lib ]>
    (<[ "CDI_FILETYPE_NC" := CDI_FILETYPE_NC lib ]> ∅))) in
  match types !! name with
  | Some ty => Return ty
  | None => Ended (RuntimeError ("invalid CDI-PIO file type " +:+ name))
  end.

Definition create_impl (self : State) (filename : string) (FileID : Z)
    (filetype : string) : State * Run unit :=
  match file_type filetype with
  | Ended e => (self, Ended e)
  | Return ty =>
      ({| m_file_id := streamOpenWrite lib filename ty;
          m_vlistID := -1; m_tID := -1; m_zsID := -1; m_gridID := -1;
          m_varsID := m_varsID self; m_zID := m_zID self;
          m_dimsAxis := m_dimsAxis self;
          m_diagvars := m_diagvars self; m_beforediag := m_beforediag self |},
       Return tt)
  end.

(** The two reading methods ignore their arguments and throw. *)
Definition get_vara_double_impl (self : State) : State * Run unit :=
  (self, Ended (RuntimeError reading_not_supported)).

Definition get_varm_double_impl (self : State) : State * Run unit :=
  (self, Ended (RuntimeError reading_not_supported)).

End Methods.

End CDI.

(* ================================================================== *)
(** * A small model to run the code on *)
(* ================================================================== *)

Module Example.
Import Thermo.

(** Two columns of three levels at heights 0, 100 and 200 m under 150 m of
    ice at 260 K: the two lower levels are in the ice, the top one is in
    the air.  One process owns the whole grid, so the ghost communication
    changes nothing, and the input file has no variable 'enthalpy'. *)
Definition column_grid : EnthalpyModel.IceGrid Q :=
  {| EnthalpyModel.xs := 0; EnthalpyModel.xm := 2;
     EnthalpyModel.ys := 0; EnthalpyModel.ym := 1;
     EnthalpyModel.Mz := 3;
     EnthalpyModel.zlevels := fun k => inject_Z (100 * k) |}.

Definition cold_model (enthalpy_mode_off : bool) : EnthalpyModel.IceEnthalpyModel Q :=
  {| EnthalpyModel.grid := column_grid;
     EnthalpyModel.config := scenario;
     EnthalpyModel.doColdIceTemperatureStep := enthalpy_mode_off;
     EnthalpyModel.vH := fun _ _ => 150%Q;
     EnthalpyModel.T3 := fun _ _ _ => 260%Q;
     EnthalpyModel.Enth3 := fun _ _ _ => (-1)%Q;
     EnthalpyModel.EnthNew3 := fun _ _ _ => (-1)%Q;
     EnthalpyModel.events := [] |}.

Definition temperature_file : EnthalpyModel.NCFile :=
  {| EnthalpyModel.z_len := 3; EnthalpyModel.zb_len := 1;
     EnthalpyModel.variables := {[ "thk"; "temp" ]} |}.

Definition single_process : EnthalpyModel.External Q :=
  {| EnthalpyModel.IceModel_initFromFile := fun _ m => Return m;
     EnthalpyModel.IceModel_temperatureStep := fun m counts => Return (m, counts);
     EnthalpyModel.open_for_reading := fun _ => Return temperature_file;
     EnthalpyModel.regrid := fun _ _ m => Return (EnthalpyModel.Enth3 m);
     EnthalpyModel.ghostComm := fun _ v => v |}.

(** A stress-free state for PISMFEvoR.cc, in binary64: the pressure and
    the two shear stresses vanish everywhere (as they do above the ice), the
    ice is cold, the strain rate that [stepInTime] gives is proportional to
    the stress whatever the fabric, and [tensorMagnitude] is the Euclidean
    norm.  The grid has 3 x 3 x 3 nodes; its two queries answer with the
    first cell and its first node, which is all a constant field needs. *)
Definition still_grid : FEvoR.IceGrid float :=
  {| FEvoR.Lx := lit 1000%Q; FEvoR.Ly := lit 1000%Q; FEvoR.Lz := lit 200%Q;
     FEvoR.Mz := 3;
     FEvoR.zlevels := fun k => float_of_Z (100 * k);
     FEvoR.xs := 0; FEvoR.xm := 3; FEvoR.ys := 0; FEvoR.my := 3;
     FEvoR.x := fun i => float_of_Z (1000 * i - 1000);
     FEvoR.compute_point_neighbors := fun _ _ => Return (0, 0);
     FEvoR.compute_interp_weights := fun _ _ =>
       Return [lit 1%Q; lit 0%Q; lit 0%Q; lit 0%Q] |}.

Definition stress_free : FEvoR.External float :=
  {| FEvoR.sia_enhancement_factor := lit 1%Q;
     FEvoR.get_3d_velocity := Return tt;
     FEvoR.pressure_compute := Return (fun _ _ _ => lit 0%Q);
     FEvoR.tauxz_compute := Return (fun _ _ _ => lit 0%Q);
     FEvoR.tauyz_compute := Return (fun _ _ _ => lit 0%Q);
     FEvoR.EC_getAbsTemp := fun E P => getAbsTemp scenario E P;
     FEvoR.stepInTime := fun _ _ stress _ _ =>
       map (fun s => PrimFloat.mul (lit 1e-15%Q) s) stress;
     FEvoR.tensorMagnitude := fun v =>
       PrimFloat.sqrt
         (fold_left (fun acc e => PrimFloat.add acc (PrimFloat.mul e e)) v
                    (lit 0%Q));
     FEvoR.natural_neighbor := fun cloud _ _ =>
       match cloud with
       | (_, _, e) :: _ => e
       | [] => lit 0%Q
       end |}.

Definition still_model : FEvoR.PISMFEvoR float :=
  {| FEvoR.grid := still_grid;
     FEvoR.m_t := lit 0%Q; FEvoR.m_dt := lit 1%Q;
     FEvoR.m_enthalpy := fun _ _ _ => lit 800000%Q;
     FEvoR.m_enhancement_factor := fun _ _ _ => lit 1%Q |}.

(** A domain of 3 x 3 nodes, 1000 m apart, for the interpolation query. *)
Definition square : GridQuery.Domain :=
  {| GridQuery.Lx := 1000; GridQuery.Ly := 1000;
     GridQuery.Mx := 3; GridQuery.My := 3 |}.

End Example.

(* ================================================================== *)
(** * iceEnthalpyModel.cc: the flow law PolyThermalGlenPBLDIce *)
(* ================================================================== *)

Module Rheology.
Import Thermo.

(** What [PolyThermalGlenPBLDIce] inherits from [ThermoGlenIce]: five data
    members and two methods; [pow] is the one of the C library and
    [secondInvariant] a free function of the materials code. *)
Record ThermoGlenIce (S : Type) : Type := {
  beta_CC_grad : S;
  rho : S;
  earth_grav : S;
  n : S;
  schoofReg : S;
  softnessParameter : S -> S;
  hardnessParameter : S -> S;
  pow : S -> S -> S;
  secondInvariant : S -> S -> S -> S -> S
}.
Arguments beta_CC_grad {S} _.
Arguments rho {S} _.
Arguments earth_grav {S} _.
Arguments n {S} _.
Arguments schoofReg {S} _.
Arguments softnessParameter {S} _ _.
Arguments hardnessParameter {S} _ _.
Arguments pow {S} _ _ _.
Arguments secondInvariant {S} _ _ _ _ _.

(** The class: its base part, the pointer [config] ([None] is NULL) and the
    coefficient that the constructor sets. *)
Record PolyThermalGlenPBLDIce (S : Type) : Type := {
  base : ThermoGlenIce S;
  config : option (NCConfigVariable S);
  water_frac_coeff : S
}.
Arguments base {S} _.
Arguments config {S} _.
Arguments water_frac_coeff {S} _.

(** How a call of [flow] comes out: with a value, or by one of the two
    [PetscEnd()] exits, its own ("config ptr is NULL in
    PolyThermalGlenPBLDIce::flow()... ending") and the one of the
    converter. *)
Inductive Flow (S : Type) : Type :=
  | Flows (value : S)
  | ConfigPtrIsNull
  | ConverterEnds (why : Stop).
Arguments Flows {S} value.
Arguments ConfigPtrIsNull {S}.
Arguments ConverterEnds {S} why.

Section FlowLaw.
Context {S : Type} `{Scalar S}.
Local Open Scope scalar_scope.

(** The constructor: "just sets flow law factor for nonzero water
    content". *)
Definition new_PolyThermalGlenPBLDIce (b : ThermoGlenIce S)
  : PolyThermalGlenPBLDIce S :=
  {| base := b; config := None; water_frac_coeff := lit 184.0%Q |}.

(** "We interpret temperature argument as an enthalpy here!!"  The fourth
    argument (the grain size) has no name in the source and is not read. *)
Definition flow (ice : PolyThermalGlenPBLDIce S) (stress temp pressure gs : S)
  : Flow S :=
  let enth := temp in
  match config ice with
  | None => ConfigPtrIsNull
  | Some config =>
      match getAbsTemp config enth pressure with
      | Ended why => ConverterEnds why
      | Return temp =>
          let b := base ice in
          let T := temp + (beta_CC_grad b / (rho b * earth_grav b)) * pressure in
          Flows (softnessParameter b T * pow b stress (n b - lit 1%Q))
      end
  end.

(** The argument of [hardnessParameter] at the level m.  At the level 0 the
    source writes [beta_CC_grad * H], without the height of the level. *)
Definition level_temperature (b : ThermoGlenIce S) (H : S)
    (zlevels T1 T2 : Z -> S) (m : Z) : S :=
  if (m =? 0)%Z
  then lit 0.5%Q * (T1 0%Z + T2 0%Z) + beta_CC_grad b * H
  else lit 0.5%Q * (T1 m + T2 m) + beta_CC_grad b * (H - zlevels m).

(** [for (PetscInt m=1; m < kbelowH; m++)], threading [dz] and [B]. *)
Fixpoint hardness_loop (b : ThermoGlenIce S) (H : S) (zlevels T1 T2 : Z -> S)
    (turns : nat) (m : Z) (dz B : S) : S * S :=
  match turns with
  | O => (dz, B)
  | Datatypes.S turns' =>
      let dzNEXT := zlevels (m + 1)%Z - zlevels m in
      let B := B + lit 0.5%Q * (dz + dzNEXT)
                   * hardnessParameter b (lit 0.5%Q * (T1 m + T2 m)
                                          + beta_CC_grad b * (H - zlevels m)) in
      hardness_loop b H zlevels T1 T2 turns' (m + 1)%Z dzNEXT B
  end.

(** The value of [B] when the integration is done: "B is really hardness
    times thickness". *)
Definition integrated_hardness (b : ThermoGlenIce S) (H : S) (kbelowH : Z)
    (zlevels T1 T2 : Z -> S) : S :=
  let B := lit 0%Q in
  if (0 <? kbelowH)%Z then
    let dz := zlevels 1%Z - zlevels 0%Z in
    let B := B + lit 0.5%Q * dz
                 * hardnessParameter b (lit 0.5%Q * (T1 0%Z + T2 0%Z)
                                        + beta_CC_grad b * H) in
    let '(dz, B) :=
      hardness_loop b H zlevels T1 T2 (Z.to_nat (kbelowH - 1)) 1%Z dz B in
    B + lit 0.5%Q * dz
        * hardnessParameter b (lit 0.5%Q * (T1 kbelowH + T2 kbelowH)
                               + beta_CC_grad b * (H - zlevels kbelowH))
  else B.

(** "DESPITE NAME, does *not* return effective viscosity.  The result is
    \nu_e H, i.e. viscosity times thickness." *)
Definition effectiveViscosityColumn (ice : PolyThermalGlenPBLDIce S)
    (H : S) (kbelowH : Z) (zlevels : Z -> S) (u_x u_y v_x v_y : S)
    (T1 T2 : Z -> S) : S :=
  let b := base ice in
  let B := integrated_hardness b H kbelowH zlevels T1 T2 in
  let alpha := secondInvariant b u_x u_y v_x v_y in
  lit 0.5%Q * B * pow b (schoofReg b + alpha)
                        ((lit 1%Q - n b) / (lit 2%Q * n b)).

(** The trapezoid rule over the levels 0 .. k for the values [h] at the
    levels: the sum of (z_{m+1} - z_m) (h_m + h_{m+1}) / 2 for m < k. *)
Fixpoint trapezoid_rule (zlevels h : Z -> S) (k : nat) : S :=
  match k with
  | O => lit 0%Q
  | Datatypes.S k' =>
      trapezoid_rule zlevels h k'
      + (zlevels (Z.of_nat k' + 1)%Z - zlevels (Z.of_nat k'))
        * (h (Z.of_nat k') + h (Z.of_nat k' + 1)%Z) / lit 2%Q
  end.

End FlowLaw.

End Rheology.

(* ================================================================== *)
(** * iceEnthalpyModel.cc: choosing the flow law *)
(* ================================================================== *)

Module IcePhysics.

(** The class of an ice object: [ThermoGlenIce], its subclass
    [PolyThermalGlenPBLDIce], or another [IceType]. *)
Inductive IceClass : Type :=
  | ThermoGlenIce_class
  | PolyThermalGlenPBLDIce_class
  | other_IceType.

(** [dynamic_cast<PolyThermalGlenPBLDIce*>(ice)] is not NULL: the object
    is of that class. *)
Definition is_PolyThermalGlenPBLDIce (ice : IceClass) : bool :=
  match ice with
  | PolyThermalGlenPBLDIce_class => true
  | ThermoGlenIce_class | other_IceType => false
  end.

Definition ICE_PBLD : string := "pbld".

(** [create_pbld]: "*i = new (ThermoGlenIce)(comm,pre);  return 0;", the
    line that makes a ThermoGlenPBLDIce being commented out.  The result is
    the class of the object made. *)
Definition create_pbld : IceClass := ThermoGlenIce_class.

(** What [init_physics] takes from outside: the method of the base class,
    the ice factory (its [registerType] for a name and a creator, given by
    the class the creator makes, and [setType] followed by [create]), and
    [printInfo] of the ice made. *)
Record External : Type := {
  IceModel_init_physics : Z;
  registerType : string -> IceClass -> Z;
  setType_create : string -> IceClass;
  printInfo : IceClass -> Z
}.

(** How [init_physics] comes out: it returns 0 with the configuration
    handed to the flow law, it returns an error code, or it ends the run
    with one of its two messages, "FAILURE OF iceFactory.registerType()
    ..." and "not using PolyThermalGlenPBLDIce ... ending ....". *)
Inductive Outcome : Type :=
  | ConfigHandedOver
  | ErrorReturned (ierr : Z)
  | RegisterTypeFailed (ierr : Z)
  | NotUsingPolyThermalGlenPBLDIce.

Definition init_physics (ext : External) : Outcome :=
  (* let the base class create the ice and process its options *)
  let ierr := IceModel_init_physics ext in
  if negb (ierr =? 0) then ErrorReturned ierr
  else
    let ierr := registerType ext ICE_PBLD create_pbld in
    if negb (ierr =? 0) then RegisterTypeFailed ierr
    else
      let ice := setType_create ext ICE_PBLD in
      if is_PolyThermalGlenPBLDIce ice then
        let ierr := printInfo ext ice in
        if negb (ierr =? 0) then ErrorReturned ierr
        else ConfigHandedOver
      else NotUsingPolyThermalGlenPBLDIce.

End IcePhysics.

(* ================================================================== *)
(** * iceEnthalpyModel.cc: writing the enthalpy *)
(* ================================================================== *)

Module EnthalpyOutput.
Import Thermo EnthalpyModel.

Section Output.
Context {S : Type} `{Scalar S}.

(** [Enth3_write] is [IceModelVec3::write] of the enthalpy field, with the
    file name and the values it is given; it returns or fails with an error
    code. *)
Definition write_extra_fields (ext : External S)
    (Enth3_write : string -> IceModelVec3 S -> Run unit)
    (filename : string) (m : IceEnthalpyModel S) : Run (IceEnthalpyModel S) :=
  m ← (if doColdIceTemperatureStep m then
         let m := log m [verbPrintf DEBUGVERB
           "  using temperature to set enthalpy for writing (as cold ice) ..."] in
         setEnth3FromT3_ColdIce ext m
       else Return m);
  _ ← Enth3_write filename (Enth3 m);
  Return m.

End Output.

End EnthalpyOutput.

(* ================================================================== *)
(** * CDI.cc: defining and writing a file *)
(* ================================================================== *)

Module CDIWriter.
Import CDI.

(** A call into the CDI-PIO library (cdi.h, cdipio.h), by the name of the
    function and its arguments in order.  The library keeps its own state;
    what this class can know of it is the sequence of calls made. *)
Inductive Arg : Type :=
  | Int (z : Z)
  | Text (s : string)
  | Values (v : list float).

Record Call : Type := { function : string; arguments : list Arg }.

(** The enumerators and constants declared outside CDI.cc, and the
    conversion of pism_cdi_type_conversion.hh. *)
Record Constants : Type := {
  X_AXIS : AxisType;
  Y_AXIS : AxisType;
  Z_AXIS : AxisType;
  T_AXIS : AxisType;
  TIME_VARIABLE : Z;
  TIME_CONSTANT : Z;
  CDI_GLOBAL : Z;
  GRID_LONLAT : Z;
  ZAXIS_SURFACE : Z;
  ZAXIS_GENERIC : Z;
  TAXIS_ABSOLUTE : Z;
  CALENDAR_STANDARD : Z;
  CALENDAR_PROLEPTIC : Z;
  CALENDAR_365DAYS : Z;
  CALENDAR_360DAYS : Z;
  pism_type_to_cdi_type : Z -> Z
}.

(** The members that set_calendar_impl sets.  [D] is the type of
    [m_days_year], which CDI.hh declares. *)
Record Calendar (S D : Type) : Type := {
  m_year_length : S;
  m_days_year : D;
  m_cdi_calendar : Z;
  m_calendar_string : string
}.
Arguments m_year_length {S D} _.
Arguments m_days_year {S D} _.
Arguments m_cdi_calendar {S D} _.
Arguments m_calendar_string {S D} _.

(** The object: the members of [CDI.State], the two dummy grids, the
    calendar, and the calls made into the library so far, the latest
    last. *)
Record Object (S D : Type) : Type := {
  members : State;
  m_gridsID : Z;
  m_gridgID : Z;
  calendar : Calendar S D;
  calls : list Call
}.
Arguments members {S D} _.
Arguments m_gridsID {S D} _.
Arguments m_gridgID {S D} _.
Arguments calendar {S D} _.
Arguments calls {S D} _.

(** What [IceGrid] does for write_darray_impl. *)
Record IceGrid : Type := {
  local_length : Z -> Z;
  io_transpose : list float -> Z -> Z -> list float;
  yaxt_decomposition : Z -> Z
}.

(** How write_darray_impl comes out: the block was handed to
    [streamWriteVarPart], or it was held back, or the assertion
    [varid != CDI_GLOBAL] failed. *)
Inductive Written : Type := Streamed | HeldBack | AssertionFailed.

(** [m[key]] of a [std::map<std::string, int>]: the value under the key,
    which is entered with the value 0 when it is absent. *)
Definition index (m : gmap string Z) (key : string) : Z * gmap string Z :=
  match m !! key with
  | Some v => (v, m)
  | None => (0, <[ key := 0 ]> m)
  end.

(** The first entry with the value [v], in the order of the keys, in which
    a [std::map] is visited. *)
Definition first_with_value (m : gmap string Z) (v : Z) : option string :=
  foldr (fun (entry : string * Z) (best : option string) =>
           if entry.2 =? v then
             match best with
             | Some b => if String.ltb b entry.1 then Some b else Some entry.1
             | None => Some entry.1
             end
           else best)
        None (map_to_list m).

Section Assignments.

Definition set_m_file_id (v : Z) (s : State) : State :=
  {| m_file_id := v; m_vlistID := m_vlistID s; m_tID := m_tID s;
     m_zsID := m_zsID s; m_gridID := m_gridID s; m_varsID := m_varsID s;
     m_zID := m_zID s; m_dimsAxis := m_dimsAxis s;
     m_diagvars := m_diagvars s; m_beforediag := m_beforediag s |}.

Definition set_m_vlistID (v : Z) (s : State) : State :=
  {| m_file_id := m_file_id s; m_vlistID := v; m_tID := m_tID s;
     m_zsID := m_zsID s; m_gridID := m_gridID s; m_varsID := m_varsID s;
     m_zID := m_zID s; m_dimsAxis := m_dimsAxis s;
     m_diagvars := m_diagvars s; m_beforediag := m_beforediag s |}.

Definition set_m_tID (v : Z) (s : State) : State :=
  {| m_file_id := m_file_id s; m_vlistID := m_vlistID s; m_tID := v;
     m_zsID := m_zsID s; m_gridID := m_gridID s; m_varsID := m_varsID s;
     m_zID := m_zID s; m_dimsAxis := m_dimsAxis s;
     m_diagvars := m_diagvars s; m_beforediag := m_beforediag s |}.

Definition set_m_zsID (v : Z) (s : State) : State :=
  {| m_file_id := m_file_id s; m_vlistID := m_vlistID s; m_tID := m_tID s;
     m_zsID := v; m_gridID := m_gridID s; m_varsID := m_varsID s;
     m_zID := m_zID s; m_dimsAxis := m_dimsAxis s;
     m_diagvars := m_diagvars s; m_beforediag := m_beforediag s |}.

Definition set_m_gridID (v : Z) (s : State) : State :=
  {| m_file_id := m_file_id s; m_vlistID := m_vlistID s; m_tID := m_tID s;
     m_zsID := m_zsID s; m_gridID := v; m_varsID := m_varsID s;
     m_zID := m_zID s; m_dimsAxis := m_dimsAxis s;
     m_diagvars := m_diagvars s; m_beforediag := m_beforediag s |}.

Definition set_m_varsID (v : gmap string Z) (s : State) : State :=
  {| m_file_id := m_file_id s; m_vlistID := m_vlistID s; m_tID := m_tID s;
     m_zsID := m_zsID s; m_gridID := m_gridID s; m_varsID := v;
     m_zID := m_zID s; m_dimsAxis := m_dimsAxis s;
     m_diagvars := m_diagvars s; m_beforediag := m_beforediag s |}.

Definition set_m_zID (v : gmap string Z) (s : State) : State :=
  {| m_file_id := m_file_id s; m_vlistID := m_vlistID s; m_tID := m_tID s;
     m_zsID := m_zsID s; m_gridID := m_gridID s; m_varsID := m_varsID s;
     m_zID := v; m_dimsAxis := m_dimsAxis s;
     m_diagvars := m_diagvars s; m_beforediag := m_beforediag s |}.

Definition set_m_dimsAxis (v : gmap string AxisType) (s : State) : State :=
  {| m_file_id := m_file_id s; m_vlistID := m_vlistID s; m_tID := m_tID s;
     m_zsID := m_zsID s; m_gridID := m_gridID s; m_varsID := m_varsID s;
     m_zID := m_zID s; m_dimsAxis := v;
     m_diagvars := m_diagvars s; m_beforediag := m_beforediag s |}.

Definition set_m_diagvars (v : gset string) (s : State) : State :=
  {| m_file_id := m_file_id s; m_vlistID := m_vlistID s; m_tID := m_tID s;
     m_zsID := m_zsID s; m_gridID := m_gridID s; m_varsID := m_varsID s;
     m_zID := m_zID s; m_dimsAxis := m_dimsAxis s;
     m_diagvars := v; m_beforediag := m_beforediag s |}.

Definition set_m_beforediag (v : bool) (s : State) : State :=
  {| m_file_id := m_file_id s; m_vlistID := m_vlistID s; m_tID := m_tID s;
     m_zsID := m_zsID s; m_gridID := m_gridID s; m_varsID := m_varsID s;
     m_zID := m_zID s; m_dimsAxis := m_dimsAxis s;
     m_diagvars := m_diagvars s; m_beforediag := v |}.

End Assignments.

Section Methods.
Context {S D : Type} `{Scalar S}.
Variable c : Constants.

(** What the library returns from a call, given the calls before it. *)
Variable answer : list Call -> Call -> Z.

Local Abbreviation Object := (Object S D).

Definition assign (f : State -> State) (o : Object) : Object :=
  {| members := f (members o); m_gridsID := m_gridsID o;
     m_gridgID := m_gridgID o; calendar := calendar o; calls := calls o |}.

Definition set_m_gridsID (v : Z) (o : Object) : Object :=
  {| members := members o; m_gridsID := v; m_gridgID := m_gridgID o;
     calendar := calendar o; calls := calls o |}.

Definition set_m_gridgID (v : Z) (o : Object) : Object :=
  {| members := members o; m_gridsID := m_gridsID o; m_gridgID := v;
     calendar := calendar o; calls := calls o |}.

Definition set_calendar (v : Calendar S D) (o : Object) : Object :=
  {| members := members o; m_gridsID := m_gridsID o;
     m_gridgID := m_gridgID o; calendar := v; calls := calls o |}.

(** A call whose result is not used, and a call whose result is. *)
Definition tell (f : string) (args : list Arg) (o : Object) : Object :=
  {| members := members o; m_gridsID := m_gridsID o;
     m_gridgID := m_gridgID o; calendar := calendar o;
     calls := calls o ++ [ {| function := f; arguments := args |} ] |}.

Definition ask (f : string) (args : list Arg) (o : Object) : Z * Object :=
  (answer (calls o) {| function := f; arguments := args |}, tell f args o).

Definition close_impl (o : Object) : Object :=
  let o := assign (set_m_file_id (-1)) o in
  let o := assign (set_m_varsID ∅) o in
  let o := assign (set_m_dimsAxis ∅) o in
  let o := assign (set_m_zID ∅) o in
  assign (set_m_diagvars ∅) o.

Definition def_vlist (o : Object) : Object :=
  if m_vlistID (members o) =? -1 then
    let '(vlistID, o) := ask "vlistCreate" [] o in
    let o := assign (set_m_vlistID vlistID) o in
    let '(gridsID, o) := ask "gridCreate" [Int (GRID_LONLAT c); Int 1] o in
    let o := set_m_gridsID gridsID o in
    let o := tell "gridDefXsize" [Int (m_gridsID o); Int 1] o in
    let o := tell "gridDefXname" [Int (m_gridsID o); Text "x_dummy"] o in
    let o := tell "gridDefYsize" [Int (m_gridsID o); Int 1] o in
    tell "gridDefYname" [Int (m_gridsID o); Text "y_dummy"] o
  else o.

(** "create surface Z axis (only if it was not done before)" *)
Definition def_zs (o : Object) : Object :=
  if m_zsID (members o) =? -1 then
    let '(zsID, o) := ask "zaxisCreate" [Int (ZAXIS_SURFACE c); Int 1] o in
    let o := assign (set_m_zsID zsID) o in
    let o := assign (set_m_zID (<[ "zs" := m_zsID (members o) ]>
                                  (m_zID (members o)))) o in
    tell "zaxisDefName" [Int (m_zsID (members o)); Text "zs"] o
  else o.

(** [length] is a [size_t] that the source casts to [int]; lengths stay
    far below the range of either. *)
Definition def_dim_impl (o : Object) (name : string) (length : Z)
    (dim : AxisType) : Object :=
  let o := def_vlist o in
  let o := def_zs o in
  let o :=
    if dim =? X_AXIS c then
      let o := tell "gridDefXsize" [Int (m_gridID (members o)); Int length] o in
      tell "gridDefXname" [Int (m_gridID (members o)); Text name] o
    else if dim =? Y_AXIS c then
      let o := tell "gridDefYsize" [Int (m_gridID (members o)); Int length] o in
      tell "gridDefYname" [Int (m_gridID (members o)); Text name] o
    else if dim =? Z_AXIS c then
      (* define z axis only if it's new *)
      match m_zID (members o) !! name with
      | None =>
          let '(zaxisID, o) :=
            ask "zaxisCreate" [Int (ZAXIS_GENERIC c); Int length] o in
          let o := assign (set_m_zID (<[ name := zaxisID ]>
                                        (m_zID (members o)))) o in
          tell "zaxisDefName" [Int zaxisID; Text name] o
      | Some _ => o
      end
    else if dim =? T_AXIS c then
      (* define time axis if it was not done before *)
      if m_tID (members o) =? -1 then
        let '(tID, o) := ask "taxisCreate" [Int (TAXIS_ABSOLUTE c)] o in
        let o := assign (set_m_tID tID) o in
        let o := tell "taxisDefCalendar"
                      [Int (m_tID (members o));
                       Int (m_cdi_calendar (calendar o))] o in
        tell "vlistDefTaxis"
             [Int (m_vlistID (members o)); Int (m_tID (members o))] o
      else o
    else
      (* define grid for 1D data *)
      let '(gridgID, o) := ask "gridCreate" [Int (GRID_LONLAT c); Int length] o in
      let o := set_m_gridgID gridgID o in
      let o := tell "gridDefXsize" [Int (m_gridgID o); Int length] o in
      let o := tell "gridDefXname" [Int (m_gridgID o); Text name] o in
      let o := tell "gridDefYsize" [Int (m_gridgID o); Int 1] o in
      tell "gridDefYname" [Int (m_gridgID o); Text "y_dummy"] o in
  assign (set_m_dimsAxis (<[ name := dim ]> (m_dimsAxis (members o)))) o.

Definition inq_dimid_impl (o : Object) (dimension_name : string) : bool :=
  bool_decide (is_Some (m_dimsAxis (members o) !! dimension_name)).

(** The length is the result; [m_dimsAxis[dimension_name]] and
    [m_zID[dimension_name]] enter the name when it is absent. *)
Definition inq_dimlen_impl (o : Object) (dimension_name : string)
  : Object * Run Z :=
  let '(dim, dims) := index (m_dimsAxis (members o)) dimension_name in
  let o := assign (set_m_dimsAxis dims) o in
  if dim =? X_AXIS c then
    let '(n, o) := ask "gridInqXsize" [Int (m_gridID (members o))] o in
    (o, Return n)
  else if dim =? Y_AXIS c then
    let '(n, o) := ask "gridInqYsize" [Int (m_gridID (members o))] o in
    (o, Return n)
  else if dim =? Z_AXIS c then
    let '(zaxisID, zs) := index (m_zID (members o)) dimension_name in
    let o := assign (set_m_zID zs) o in
    let '(n, o) := ask "zaxisInqSize" [Int zaxisID] o in
    (o, Return n)
  else if dim =? T_AXIS c then
    let '(n, o) :=
      ask "streamInqCurTimestepID" [Int (m_file_id (members o))] o in
    (o, Return (n + 1 + 1))
  else
    (o, Ended (RuntimeError ("invalid dimension " +:+ dimension_name))).

(** "Returns TIME_VARIABLE if `dims` contain the time dimension and
    TIME_CONSTANT otherwise." *)
Fixpoint timestep_type (o : Object) (dims : list string) : Z :=
  match dims with
  | [] => TIME_CONSTANT c
  | d :: dims' =>
      match m_dimsAxis (members o) !! d with
      | Some axis =>
          if axis =? T_AXIS c then TIME_VARIABLE c else timestep_type o dims'
      | None => timestep_type o dims'
      end
  end.

Definition def_var_scalar (o : Object) (name : string) (nctype : Z)
    (dims : list string) : Object :=
  let o := def_zs o in
  let tsteptype := timestep_type o dims in
  let '(varID, o) :=
    ask "vlistDefVar" [Int (m_vlistID (members o)); Int (m_gridsID o);
                       Int (m_zsID (members o)); Int tsteptype] o in
  let o := tell "vlistDefVarName"
                [Int (m_vlistID (members o)); Int varID; Text name] o in
  let o := tell "vlistDefVarDatatype"
                [Int (m_vlistID (members o)); Int varID;
                 Int (pism_type_to_cdi_type c nctype)] o in
  assign (set_m_varsID (<[ name := varID ]> (m_varsID (members o)))) o.

Definition def_var_mscalar (o : Object) (name : string) (nctype : Z)
    (dims : list string) : Object :=
  let o := def_zs o in
  let tsteptype := timestep_type o dims in
  let '(varID, o) :=
    ask "vlistDefVar" [Int (m_vlistID (members o)); Int (m_gridgID o);
                       Int (m_zsID (members o)); Int tsteptype] o in
  let o := tell "vlistDefVarName"
                [Int (m_vlistID (members o)); Int varID; Text name] o in
  let type := pism_type_to_cdi_type c nctype in
  let o := tell "vlistDefVarDatatype"
                [Int (m_vlistID (members o)); Int varID; Int type] o in
  assign (set_m_varsID (<[ name := varID ]> (m_varsID (members o)))) o.

(** "get the associated Z axis": the loop over [dims] of def_var_multi;
    [m_dimsAxis[d]] enters [d] when it is absent. *)
Fixpoint associated_zaxis (dims : list string) (o : Object) (zaxisID : Z)
  : Z * Object :=
  match dims with
  | [] => (zaxisID, o)
  | d :: dims' =>
      let '(axis, axes) := index (m_dimsAxis (members o)) d in
      let o := assign (set_m_dimsAxis axes) o in
      let zaxisID :=
        if axis =? Z_AXIS c then
          match m_zID (members o) !! d with
          | Some z => z
          | None => zaxisID
          end
        else zaxisID in
      associated_zaxis dims' o zaxisID
  end.

Definition def_var_multi (o : Object) (name : string) (nctype : Z)
    (dims : list string) : Object :=
  let zaxisID := m_zsID (members o) in
  let tsteptype := timestep_type o dims in
  let '(zaxisID, o) := associated_zaxis dims o zaxisID in
  let '(varID, o) :=
    ask "vlistDefVar" [Int (m_vlistID (members o)); Int (m_gridID (members o));
                       Int zaxisID; Int tsteptype] o in
  let o := tell "vlistDefVarName"
                [Int (m_vlistID (members o)); Int varID; Text name] o in
  let o := tell "vlistDefVarDatatype"
                [Int (m_vlistID (members o)); Int varID;
                 Int (pism_type_to_cdi_type c nctype)] o in
  assign (set_m_varsID (<[ name := varID ]> (m_varsID (members o)))) o.

(** [o'] is [o] with a variable more, as each of the three ways of
    defining one leaves it: the library was asked for a new variable with
    [vlistDefVar], was told its name and its type, and the ID it answered
    is entered under the name; [more] are the calls made before that. *)
Definition defines (o o' : Object) (name : string) (nctype : Z) : Prop :=
  exists varID,
    m_varsID (members o') = <[ name := varID ]> (m_varsID (members o)) /\
    exists more vlistID gridID zaxisID tsteptype,
      calls o'
      = (calls o ++ more)
        ++ [ {| function := "vlistDefVar";
                arguments := [Int vlistID; Int gridID; Int zaxisID; Int tsteptype] |};
             {| function := "vlistDefVarName";
                arguments := [Int vlistID; Int varID; Text name] |};
             {| function := "vlistDefVarDatatype";
                arguments := [Int vlistID; Int varID;
                              Int (pism_type_to_cdi_type c nctype)] |} ] /\
      varID = answer (calls o ++ more)
                {| function := "vlistDefVar";
                   arguments := [Int vlistID; Int gridID; Int zaxisID;
                                 Int tsteptype] |}.

Definition def_var_impl (o : Object) (name : string) (nctype : Z)
    (dims : list string) : Object :=
  (* No need to define dimensions as variables (CDI does not support it) *)
  match m_dimsAxis (members o) !! name with
  | Some _ => o
  | None =>
      let o := def_vlist o in
      let tdim := if existsb (String.eqb "time") dims then 1 else 0 in
      let size := Z.of_nat (List.length dims) in
      if (size =? 0) || (size - tdim =? 0) then
        def_var_scalar o name nctype dims
      else if size - tdim =? 1 then
        def_var_mscalar o name nctype dims
      else
        def_var_multi o name nctype dims
  end.

Definition inq_nvars_impl (o : Object) : Z :=
  Z.of_nat (size (m_varsID (members o))).

(** "inquire variable ID using map"; [m_varsID[name]] enters the name when
    it is absent. *)
Definition var_id (o : Object) (name : string) : Z * Object :=
  if String.eqb name "PISM_GLOBAL" then (CDI_GLOBAL c, o)
  else
    let '(varID, vars) := index (m_varsID (members o)) name in
    (varID, assign (set_m_varsID vars) o).

Definition inq_varid_impl (o : Object) (variable_name : string) : bool :=
  bool_decide (is_Some (m_varsID (members o) !! variable_name)).

(** [(int)j] for an [unsigned int] j: the [int] that is j modulo 2^32, as
    the compilers give it and C++20 requires. *)
Definition to_int (j : Z) : Z := (j + 2 ^ 31) mod 2 ^ 32 - 2 ^ 31.

(** [result] is the string that the caller passes in; it is overwritten
    when a variable has the ID [(int)j]. *)
Definition inq_varname_impl (o : Object) (j : Z) (result : string) : string :=
  match first_with_value (m_varsID (members o)) (to_int j) with
  | Some name => name
  | None => result
  end.

Definition put_att_text_impl (o : Object)
    (variable_name att_name value : string) : Object :=
  (* skip empty attributes *)
  if String.eqb value "" || String.eqb att_name "" then o
  else
    match m_dimsAxis (members o) !! variable_name with
    | Some type =>
        (* write dimension attribute (limited supported dimension attributes) *)
        if type =? X_AXIS c then
          let o := if String.eqb att_name "units"
                   then tell "gridDefXunits"
                             [Int (m_gridID (members o)); Text value] o
                   else o in
          if String.eqb att_name "long_name"
          then tell "gridDefXlongname" [Int (m_gridID (members o)); Text value] o
          else o
        else if type =? Y_AXIS c then
          let o := if String.eqb att_name "units"
                   then tell "gridDefYunits"
                             [Int (m_gridID (members o)); Text value] o
                   else o in
          if String.eqb att_name "long_name"
          then tell "gridDefYlongname" [Int (m_gridID (members o)); Text value] o
          else o
        else if type =? Z_AXIS c then
          let o := if String.eqb att_name "units" then
                     let '(zaxisID, zs) := index (m_zID (members o)) variable_name in
                     let o := assign (set_m_zID zs) o in
                     tell "zaxisDefUnits" [Int zaxisID; Text value] o
                   else o in
          if String.eqb att_name "long_name" then
            let '(zaxisID, zs) := index (m_zID (members o)) variable_name in
            let o := assign (set_m_zID zs) o in
            tell "zaxisDefLongname" [Int zaxisID; Text value] o
          else o
        else o
    | None =>
        let '(varid, o) := var_id o variable_name in
        tell "cdiDefAttTxt"
             [Int (m_vlistID (members o)); Int varid; Text att_name;
              Int (Z.of_nat (String.length value)); Text value] o
    end.

Definition create_grid_impl (o : Object) (lengthx lengthy : Z) : Object :=
  if m_gridID (members o) =? -1 then
    let '(gridID, o) :=
      ask "gridCreate" [Int (GRID_LONLAT c); Int (lengthx * lengthy)] o in
    assign (set_m_gridID gridID) o
  else o.

Definition set_diagvars_impl (o : Object) (variables : gset string) : Object :=
  assign (set_m_diagvars variables) o.

Definition set_bdiag_impl (o : Object) (value : bool) : Object :=
  assign (set_m_beforediag value) o.

(** "CDI cannot write an arbitrary record in the file, so "record" is
    ignored".  [io_transpose grid input dim z_count] is the buffer of [dim]
    values that [grid.io_transpose] fills. *)
Definition write_darray_impl (o : Object) (variable_name : string)
    (grid : IceGrid) (z_count record : Z) (input : list float)
  : Object * Written :=
  let dim := local_length grid z_count in
  let buffer := io_transpose grid input dim z_count in
  let '(varid, o) := var_id o variable_name in
  if varid =? CDI_GLOBAL c then (o, AssertionFailed)
  else
    let decompid := yaxt_decomposition grid z_count in
    let nmiss := 0 in
    (* write variable if it is written once or if this is the last call *)
    if negb (m_beforediag (members o))
       || bool_decide (variable_name ∉ m_diagvars (members o))
    then
      (tell "streamWriteVarPart"
            [Int (m_file_id (members o)); Int varid; Values buffer;
             Int nmiss; Int decompid] o,
       Streamed)
    else (o, HeldBack).

(** "set file calendar (CDIPIO needs to know calendar type)".  [as_days]
    is the conversion of a [double] to the type of [m_days_year]. *)
Definition set_calendar_impl (as_days : S -> D) (o : Object)
    (year_length : S) (calendar_string : string) : Object * Run unit :=
  let cal := calendar o in
  let cal := {| m_year_length := year_length;
                m_days_year := m_days_year cal;
                m_cdi_calendar := m_cdi_calendar cal;
                m_calendar_string := m_calendar_string cal |} in
  let chosen : option (D * Z) :=
    if String.eqb calendar_string "gregorian"
       || String.eqb calendar_string "standard" then
      Some (as_days (div (m_year_length cal) (lit 86400%Q)), CALENDAR_STANDARD c)
    else if String.eqb calendar_string "proleptic_gregorian" then
      Some (as_days (div (m_year_length cal) (lit 86400%Q)), CALENDAR_PROLEPTIC c)
    else if String.eqb calendar_string "365_day"
            || String.eqb calendar_string "noleap" then
      Some (as_days (lit 365%Q), CALENDAR_365DAYS c)
    else if String.eqb calendar_string "360_day" then
      Some (as_days (lit 360%Q), CALENDAR_360DAYS c)
    else None in
  match chosen with
  | Some (days, cdi_calendar) =>
      (set_calendar {| m_year_length := m_year_length cal;
                       m_days_year := days;
                       m_cdi_calendar := cdi_calendar;
                       m_calendar_string := calendar_string |} o,
       Return tt)
  | None =>
      (set_calendar cal o,
       Ended (RuntimeError ("unsupported calendar: " +:+ calendar_string)))
  end.

(** The integer part of day_calendar: hours, minutes and seconds of a
    number of seconds, packed as hours * 10000 + minutes * 100 + seconds.
    The division of [long int] truncates towards zero. *)
Definition hours_minutes_seconds (seconds : Z) : Z :=
  let hours := seconds ÷ 3600 in
  let minutes := (seconds - (3600 * hours)) ÷ 60 in
  let seconds := (seconds - (3600 * hours) - minutes * 60) in
  hours * 10000 + minutes * 100 + seconds.

(** "evaluate hours, minutes and seconds"; [round] is the one of the C
    library, followed by the conversion to [long int]. *)
Definition day_calendar (round : S -> Z) (nyearsf : S) : Z :=
  hours_minutes_seconds (round (mul nyearsf (lit 86400%Q))).

End Methods.

(** [round] on exact values: to the nearest integer, halves away from
    zero. *)
Definition round (q : Q) : Z :=
  if Qle_bool 0 q then Qfloor (q + (1 # 2))%Q else Qceiling (q - (1 # 2))%Q.

End CDIWriter.

(* ================================================================== *)
(** * More small cases to run the code on *)
(* ================================================================== *)

Module Cases.
Import Thermo.

(** A Glen flow law with exponent 3 for the flow law of temperate ice: the
    softness grows linearly towards the melting point, the hardness is its
    inverse, and the only power that [flow] takes is the square. *)
Definition glen : Rheology.ThermoGlenIce Q :=
  {| Rheology.beta_CC_grad := 7.9e-8 * 910 * 9.81;
     Rheology.rho := 910;
     Rheology.earth_grav := 9.81;
     Rheology.n := 3;
     Rheology.schoofReg := 1e-4;
     Rheology.softnessParameter := fun T => (T - 173.15) * 1e-26;
     Rheology.hardnessParameter := fun T => 1 / ((T - 173.15) * 1e-26);
     Rheology.pow := fun x y => x * x;
     Rheology.secondInvariant := fun u_x u_y v_x v_y =>
       (u_x * u_x + v_y * v_y + u_x * v_y + (u_y + v_x) * (u_y + v_x) / 4) / 2
  |}%Q.

Definition temperate_flow_law : Rheology.PolyThermalGlenPBLDIce Q :=
  {| Rheology.base := glen;
     Rheology.config := Some scenario;
     Rheology.water_frac_coeff := 184.0%Q |}.

(** A grid for PISMFEvoR.cc in exact arithmetic: five levels 50 m apart,
    and for every point the first cell with equal weights. *)
Definition layered_grid : FEvoR.IceGrid Q :=
  {| FEvoR.Lx := 1000%Q; FEvoR.Ly := 1000%Q; FEvoR.Lz := 200%Q;
     FEvoR.Mz := 5;
     FEvoR.zlevels := fun k => inject_Z (50 * k);
     FEvoR.xs := 0; FEvoR.xm := 3; FEvoR.ys := 0; FEvoR.my := 3;
     FEvoR.x := fun i => inject_Z (1000 * i - 1000);
     FEvoR.compute_point_neighbors := fun _ _ => Return (0, 0);
     FEvoR.compute_interp_weights := fun _ _ =>
       Return [1 # 4; 1 # 4; 1 # 4; 1 # 4]%Q |}.

(** An ice factory that makes the ice of a type with the creator
    registered for it; nothing fails. *)
Definition honest_factory : IcePhysics.External :=
  {| IcePhysics.IceModel_init_physics := 0;
     IcePhysics.registerType := fun _ _ => 0;
     IcePhysics.setType_create := fun _ => IcePhysics.create_pbld;
     IcePhysics.printInfo := fun _ => 0 |}.

(** A file as the CDI library reports it: three variables, and two Z axes
    with the IDs 10 and 11, the first of them the surface axis. *)
Definition written_file : CDI.Library :=
  {| CDI.PISM_READONLY := 0;
     CDI.streamInqVlist := fun _ => 7;
     CDI.vlistInqTaxis := fun _ => 3;
     CDI.vlistNvars := fun _ => 3;
     CDI.vlistInqVarName := fun _ varID =>
       if varID =? 0 then "thk" else if varID =? 1 then "temp" else "enthalpy";
     CDI.vlistNzaxis := fun _ => 2;
     CDI.vlistZaxis := fun _ n => 10 + n;
     CDI.zaxisInqName := fun zaxisID => if zaxisID =? 10 then "zs" else "z";
     CDI.vlistGrid := fun _ _ => 5;
     CDI.streamOpenWrite := fun _ _ => 1;
     CDI.CDI_FILETYPE_NC := 3;
     CDI.CDI_FILETYPE_NC2 := 4;
     CDI.CDI_FILETYPE_NC4 := 5;
     CDI.CDI_FILETYPE_NC4C := 6 |}.

(** A mode other than [PISM_READONLY]. *)
Definition PISM_READWRITE : CDI.IO_Mode := 1.

(** The members before a file is opened: no IDs, empty maps, and
    [m_beforediag] as the constructor sets it. *)
Definition no_file : CDI.State :=
  {| CDI.m_file_id := -1; CDI.m_vlistID := -1; CDI.m_tID := -1;
     CDI.m_zsID := -1; CDI.m_gridID := -1;
     CDI.m_varsID := ∅; CDI.m_zID := ∅; CDI.m_dimsAxis := ∅;
     CDI.m_diagvars := ∅; CDI.m_beforediag := true |}.

(** Values for the enumerators, and a library that numbers what it makes
    by the calls made before. *)
Definition enumerators : CDIWriter.Constants :=
  {| CDIWriter.X_AXIS := 0; CDIWriter.Y_AXIS := 1;
     CDIWriter.Z_AXIS := 2; CDIWriter.T_AXIS := 3;
     CDIWriter.TIME_VARIABLE := 1; CDIWriter.TIME_CONSTANT := 0;
     CDIWriter.CDI_GLOBAL := -1;
     CDIWriter.GRID_LONLAT := 4;
     CDIWriter.ZAXIS_SURFACE := 0; CDIWriter.ZAXIS_GENERIC := 1;
     CDIWriter.TAXIS_ABSOLUTE := 1;
     CDIWriter.CALENDAR_STANDARD := 0; CDIWriter.CALENDAR_PROLEPTIC := 1;
     CDIWriter.CALENDAR_365DAYS := 3; CDIWriter.CALENDAR_360DAYS := 2;
     CDIWriter.pism_type_to_cdi_type := fun nctype => nctype |}.

Definition counting (history : list CDIWriter.Call) (call : CDIWriter.Call) : Z :=
  Z.of_nat (length history).

Definition new_object : CDIWriter.Object Q Q :=
  {| CDIWriter.members := no_file;
     CDIWriter.m_gridsID := -1;
     CDIWriter.m_gridgID := -1;
     CDIWriter.calendar :=
       {| CDIWriter.m_year_length := 31556926%Q;
          CDIWriter.m_days_year := 365%Q;
          CDIWriter.m_cdi_calendar := 0;
          CDIWriter.m_calendar_string := "365_day" |};
     CDIWriter.calls := [] |}.

End Cases.

(* ================================================================== *)
(** * Laws of the converter, in exact arithmetic *)
(* ================================================================== *)

Section ExactComparisons.
Local Open Scope Q_scope.

Lemma Qltb_true (x y : Q) : Qltb x y = true <-> x < y.
Proof. unfold Qltb. destruct (Qlt_le_dec x y); split; intros; try easy; lra. Qed.

Lemma Qltb_false (x y : Q) : Qltb x y = false <-> y <= x.
Proof. unfold Qltb. destruct (Qlt_le_dec x y); split; intros; try easy; lra. Qed.

Lemma Qleb_true (x y : Q) : Qle_bool x y = true <-> x <= y.
Proof. apply Qle_bool_iff. Qed.

Lemma Qleb_false (x y : Q) : Qle_bool x y = false <-> y < x.
Proof.
  split; intros E.
  - apply Qnot_le_lt. intros Hle. apply Qle_bool_iff in Hle. congruence.
  - destruct (Qle_bool x y) eqn:B; [|reflexivity]. apply Qle_bool_iff in B. lra.
Qed.

End ExactComparisons.

(** Case analysis on every comparison the code makes, turning each boolean
    into the order fact it decides. *)
Ltac by_cases_on_tests :=
  cbn [ltb leb add sub mul div opp lit exact];
  repeat match goal with
  | |- context [Qltb ?x ?y] =>
      let E := fresh "E" in
      destruct (Qltb x y) eqn:E; [apply Qltb_true in E | apply Qltb_false in E]
  | |- context [Qle_bool ?x ?y] =>
      let E := fresh "E" in
      destruct (Qle_bool x y) eqn:E; [apply Qleb_true in E | apply Qleb_false in E]
  end;
  cbn [orb andb negb].

Ltac split_conj :=
  repeat match goal with
  | |- _ /\ _ => split
  | |- _ <-> _ => split
  end.

Section ConverterLaws.
Import Thermo.
Local Open Scope Q_scope.

Variable config : NCConfigVariable Q.

Local Abbreviation T_0 := (water_melting_temperature config).
Local Abbreviation beta := (beta_CC config).
Local Abbreviation c_w := (water_specific_heat_capacity config).
Local Abbreviation c_i := (ice_specific_heat_capacity config).
Local Abbreviation L := (water_latent_heat_fusion config).

(** The triple of [get_H_s], as the formulas of its doc comment. *)
Lemma get_H_s_triple (p : Q) :
  let t := get_H_s config p in
  T_m t == T_0 - beta * p /\ H_l t == c_w * T_m t /\ H_s t == H_l t - L.
Proof. cbn. split_conj; ring. Qed.

Lemma H_s_below_H_l (p : Q) :
  0 < L -> H_s (get_H_s config p) < H_l (get_H_s config p).
Proof. intros HL. cbn. lra. Qed.

(** The heat capacity of the mixture is positive for a fraction in [0,1]. *)
Lemma mixture_capacity_pos (omega : Q) :
  0 < c_i -> 0 < c_w -> 0 <= omega <= 1 ->
  0 < (1 - omega) * c_i + omega * c_w.
Proof.
  intros Hi Hw [H0 H1].
  destruct (Qlt_le_dec 0 omega) as [Hpos | Hle].
  - assert (0 < omega * c_w) by (apply Qmult_lt_0_compat; assumption).
    assert (0 <= (1 - omega) * c_i) by (apply Qmult_le_0_compat; lra).
    lra.
  - assert (Hz : omega == 0) by lra.
    rewrite Hz. lra.
Qed.

(** C2 (conversion law).  With the triple T_m = T_0 - beta p, H_l = c_w T_m,
    H_s = H_l - L of [get_H_s]: [getAbsTemp] returns T_m + (H - H_s)/c_i
    when H < H_s and T_m when H_s <= H < H_l; [getWaterFraction] returns 0
    when H <= H_s and (H - H_s)/L when H_s < H < H_l; and each of the two
    ends the run with the liquid-water message exactly when H >= H_l.  The
    latent heat L is positive. *)
Theorem conversion_law (H p : Q) :
  0 < L ->
  let t := get_H_s config p in
  (T_m t == T_0 - beta * p /\ H_l t == c_w * T_m t /\ H_s t == H_l t - L) /\
  (H < H_s t ->
     exists T, getAbsTemp config H p = Return T /\ T == T_m t + (H - H_s t) / c_i) /\
  (H_s t <= H < H_l t -> getAbsTemp config H p = Return (T_m t)) /\
  (H <= H_s t -> getWaterFraction config H p = Return 0) /\
  (H_s t < H < H_l t -> getWaterFraction config H p = Return ((H - H_s t) / L)) /\
  (getAbsTemp config H p = Ended LiquidWaterError <-> H_l t <= H) /\
  (getWaterFraction config H p = Ended LiquidWaterError <-> H_l t <= H).
Proof.
  intros HL t.
  pose proof (H_s_below_H_l p HL) as Hsl. fold t in Hsl.
  split; [exact (get_H_s_triple p)|].
  unfold getAbsTemp, getWaterFraction. fold t.
  split_conj; by_cases_on_tests; intros; try lra; try easy.
  eexists; split; [reflexivity|]. ring.
Qed.

(** C5 (monotonicity and bounds).  For a fixed pressure and enthalpies
    H <= H' < H_l(p), both conversions return, the temperature and the water
    fraction of H are at most those of H', and the water fractions lie in
    [0,1).  The heat capacity c_i and the latent heat L are positive. *)
Theorem conversions_monotone (p H H' : Q) :
  0 < c_i -> 0 < L ->
  H <= H' -> H' < H_l (get_H_s config p) ->
  exists T T' w w',
    getAbsTemp config H p = Return T /\ getAbsTemp config H' p = Return T' /\
    getWaterFraction config H p = Return w /\
    getWaterFraction config H' p = Return w' /\
    T <= T' /\ w <= w' /\ (0 <= w /\ w < 1) /\ (0 <= w' /\ w' < 1).
Proof.
  intros Hi HL Hle Hlt.
  pose proof (H_s_below_H_l p HL) as Hsl.
  assert (Hinv : 0 < / c_i) by (apply Qinv_lt_0_compat; exact Hi).
  assert (HinvL : 0 < / L) by (apply Qinv_lt_0_compat; exact HL).
  set (t := get_H_s config p) in *.
  assert (Ht : H_s t == H_l t - L) by (subst t; cbn; ring).
  assert (frac_lt_1 : forall h, h < H_l t -> (h - H_s t) / L < 1).
  { intros h Hh. apply Qlt_shift_div_r; [exact HL|]. lra. }
  assert (frac_nonneg : forall h, H_s t < h -> 0 <= (h - H_s t) / L).
  { intros h Hh. apply Qle_shift_div_l; [exact HL|]. lra. }
  assert (frac_mono : forall h h', h <= h' -> (h - H_s t) / L <= (h' - H_s t) / L).
  { intros h h' Hh. unfold Qdiv. apply Qmult_le_compat_r; lra. }
  assert (cold_mono : forall h h', h <= h' -> (h - H_s t) / c_i <= (h' - H_s t) / c_i).
  { intros h h' Hh. unfold Qdiv. apply Qmult_le_compat_r; lra. }
  assert (cold_neg : forall h, h < H_s t -> (h - H_s t) / c_i <= 0).
  { intros h Hh. apply Qle_shift_div_r; [exact Hi|]. lra. }
  unfold getAbsTemp, getWaterFraction. fold t.
  by_cases_on_tests; try lra;
    do 4 eexists; do 4 (split; [reflexivity|]); split_conj;
    try (specialize (frac_lt_1 _ Hlt));
    try (specialize (cold_mono _ _ Hle));
    try (specialize (frac_mono _ _ Hle));
    try (assert (0 <= (H - H_s t) / L) by (apply frac_nonneg; lra));
    try (assert (0 <= (H' - H_s t) / L) by (apply frac_nonneg; lra));
    try (assert ((H - H_s t) / c_i <= 0) by (apply cold_neg; lra));
    try (assert ((H' - H_s t) / c_i <= 0) by (apply cold_neg; lra));
    lra.
Qed.

(** C4 (input validation, as the code orders it).  [getEnth] and
    [getEnth_pa] test the water fraction first and the temperature second:
    the run ends with the water-fraction message exactly when omega < 0 or
    omega > 1; it ends with the liquid-water message exactly when omega is in
    [0,1] and the temperature exceeds the melting bound (T_0 for [getEnth],
    T_m(p) for [getEnth_pa]) by more than 0.000001; and otherwise the result
    is H_s(p) + ((1 - omega) c_i + omega c_w) (T - reference). *)
Theorem getEnth_validation (T omega p : Q) :
  let t := get_H_s config p in
  let c := (1 - omega) * c_i + omega * c_w in
  ((getEnth config T omega p = Ended InvalidWaterFraction
      <-> omega < 0 \/ 1 < omega) /\
   (getEnth config T omega p = Ended SupercooledInputError
      <-> (0 <= omega /\ omega <= 1) /\ T_0 + 0.000001 < T) /\
   ((0 <= omega /\ omega <= 1) /\ T <= T_0 + 0.000001 ->
      getEnth config T omega p = Return (H_s t + c * (T - T_0)))) /\
  ((getEnth_pa config T omega p = Ended InvalidWaterFraction
      <-> omega < 0 \/ 1 < omega) /\
   (getEnth_pa config T omega p = Ended SupercooledInputError
      <-> (0 <= omega /\ omega <= 1) /\ T_m t + 0.000001 < T) /\
   ((0 <= omega /\ omega <= 1) /\ T <= T_m t + 0.000001 ->
      getEnth_pa config T omega p = Return (H_s t + c * (T - T_m t)))).
Proof.
  intros t c. unfold getEnth, getEnth_pa. fold t.
  split_conj; by_cases_on_tests; intros;
    repeat match goal with
    | Hc : _ /\ _ |- _ => destruct Hc
    | Hc : _ \/ _ |- _ => destruct Hc
    end;
    try discriminate; try reflexivity; try lra;
    try (left; lra); try (right; lra); try (split_conj; lra).
Qed.

(** C1 (what encoding followed by decoding gives).  For a water fraction in
    [0,1] and a temperature at or below the melting bound, the encoded
    enthalpy is at most H_s(p): [getWaterFraction] decodes it to 0, and
    [getAbsTemp] decodes it to T_m(p) + ((1 - omega) c_i + omega c_w)/c_i
    (T - reference).  So with omega = 0 the homologous form [getEnth_pa]
    gives back T, and the absolute form [getEnth] gives back T - beta p,
    which is T at p = 0.  The constants c_i, c_w and L are positive; the
    pressure is arbitrary, so p >= 0 in particular. *)
Theorem encode_decode (T omega p : Q) :
  0 < c_i -> 0 < c_w -> 0 < L ->
  0 <= omega <= 1 ->
  let t := get_H_s config p in
  let c := (1 - omega) * c_i + omega * c_w in
  (T <= T_0 ->
     exists H T',
       getEnth config T omega p = Return H /\
       getWaterFraction config H p = Return 0 /\
       getAbsTemp config H p = Return T' /\
       T' == T_m t + c / c_i * (T - T_0) /\
       (omega == 0 -> T' == T - beta * p)) /\
  (T <= T_m t ->
     exists H T',
       getEnth_pa config T omega p = Return H /\
       getWaterFraction config H p = Return 0 /\
       getAbsTemp config H p = Return T' /\
       T' == T_m t + c / c_i * (T - T_m t) /\
       (omega == 0 -> T' == T)).
Proof.
  intros Hi Hw HL Hom t c.
  pose proof (H_s_below_H_l p HL) as Hsl. fold t in Hsl.
  pose proof (mixture_capacity_pos omega Hi Hw Hom) as Hc. fold c in Hc.
  assert (Hne : ~ c_i == 0) by lra.
  assert (cold : forall d, d <= 0 -> c * d <= 0).
  { intros d Hd.
    assert (Hopp : c * d == - (c * - d)) by ring.
    assert (0 <= c * - d) by (apply Qmult_le_0_compat; lra). lra. }
  assert (decode : forall d, d <= 0 ->
    getWaterFraction config (H_s t + c * d) p = Return 0 /\
    exists T', getAbsTemp config (H_s t + c * d) p = Return T' /\
               T' == T_m t + c / c_i * d).
  { intros d Hd. specialize (cold d Hd).
    unfold getWaterFraction, getAbsTemp. fold t.
    by_cases_on_tests; try lra; (split; [reflexivity|]);
      eexists; (split; [reflexivity|]).
    - field. exact Hne.
    - assert (Hz : c * d == 0) by lra.
      assert (Hq : c / c_i * d == c * d / c_i) by (field; exact Hne).
      rewrite Hq, Hz. field. exact Hne. }
  assert (at_zero : forall d, omega == 0 -> c / c_i * d == d).
  { intros d Hz. subst c. rewrite Hz. field. exact Hne. }
  split; intros HT.
  - destruct (decode (T - T_0)) as [Hwf [T' [Habs HT']]]; [lra|].
    exists (H_s t + c * (T - T_0)), T'.
    split.
    { unfold getEnth. fold t. by_cases_on_tests; try lra. reflexivity. }
    split_conj; try assumption.
    intros Hz. rewrite HT', (at_zero _ Hz). subst t. cbn. ring.
  - destruct (decode (T - T_m t)) as [Hwf [T' [Habs HT']]]; [lra|].
    exists (H_s t + c * (T - T_m t)), T'.
    split.
    { unfold getEnth_pa. fold t. by_cases_on_tests; try lra. reflexivity. }
    split_conj; try assumption.
    intros Hz. rewrite HT', (at_zero _ Hz). ring.
Qed.

End ConverterLaws.

(* ================================================================== *)
(** * The converter on concrete inputs *)
(* ================================================================== *)

(** Closes a goal that is decided by evaluating the code: an equation
    between outcomes, or an order fact between two rational constants. *)
Ltac evaluate :=
  vm_compute;
  try first [ reflexivity | discriminate | intro; discriminate ].

Ltac by_evaluation :=
  repeat match goal with |- _ /\ _ => split end;
  evaluate;
  repeat match goal with |- _ /\ _ => split end;
  evaluate.

Section Scenario.
Import Thermo.
Local Open Scope Q_scope.

Local Abbreviation exact_scenario := (scenario (S:=Q)).
Local Abbreviation double_scenario := (scenario (S:=float)).

Lemma scenario_is_physical :
  0 < ice_specific_heat_capacity exact_scenario /\
  0 < water_specific_heat_capacity exact_scenario /\
  0 < water_latent_heat_fusion exact_scenario.
Proof. by_evaluation. Qed.

(** The conversion law at the scenario, for a cold enthalpy. *)
Lemma conversion_law_witness :
  0 < water_latent_heat_fusion exact_scenario /\
  (exists T, getAbsTemp exact_scenario 800000 0 = Return T /\
             T == T_m (get_H_s exact_scenario 0)
                  + (800000 - H_s (get_H_s exact_scenario 0)) / 2009).
Proof.
  assert (HL : 0 < water_latent_heat_fusion exact_scenario) by by_evaluation.
  split; [exact HL|].
  destruct (conversion_law exact_scenario 800000 0 HL) as (_ & Hcold & _).
  apply Hcold. by_evaluation.
Defined.

(** Monotonicity at the scenario, from cold to temperate ice. *)
Lemma conversions_monotone_witness :
  (0 < ice_specific_heat_capacity exact_scenario /\
   0 < water_latent_heat_fusion exact_scenario /\
   800000 <= 806000 /\ 806000 < H_l (get_H_s exact_scenario 0)) /\
  exists T T' w w',
    getAbsTemp exact_scenario 800000 0 = Return T /\
    getAbsTemp exact_scenario 806000 0 = Return T' /\
    getWaterFraction exact_scenario 800000 0 = Return w /\
    getWaterFraction exact_scenario 806000 0 = Return w' /\
    T <= T' /\ w <= w' /\ (0 <= w /\ w < 1) /\ (0 <= w' /\ w' < 1).
Proof.
  assert (Hi : 0 < ice_specific_heat_capacity exact_scenario) by by_evaluation.
  assert (HL : 0 < water_latent_heat_fusion exact_scenario) by by_evaluation.
  assert (Hle : 800000 <= 806000) by by_evaluation.
  assert (Hlt : 806000 < H_l (get_H_s exact_scenario 0)) by by_evaluation.
  split; [repeat split; assumption|].
  exact (conversions_monotone exact_scenario 0 800000 806000 Hi HL Hle Hlt).
Defined.

(** Encoding and decoding at the scenario: cold ice at 263.15 K under
    10 MPa. *)
Lemma encode_decode_witness :
  (0 < ice_specific_heat_capacity exact_scenario /\
   0 < water_specific_heat_capacity exact_scenario /\
   0 < water_latent_heat_fusion exact_scenario /\
   0 <= 0 <= 1 /\ 263.15 <= T_m (get_H_s exact_scenario 1e7)) /\
  exists H T',
    getEnth_pa exact_scenario 263.15 0 1e7 = Return H /\
    getWaterFraction exact_scenario H 1e7 = Return 0 /\
    getAbsTemp exact_scenario H 1e7 = Return T' /\
    T' == 263.15.
Proof.
  assert (Hi : 0 < ice_specific_heat_capacity exact_scenario) by by_evaluation.
  assert (Hw : 0 < water_specific_heat_capacity exact_scenario) by by_evaluation.
  assert (HL : 0 < water_latent_heat_fusion exact_scenario) by by_evaluation.
  assert (Hom : 0 <= 0 <= 1) by by_evaluation.
  assert (HT : 263.15 <= T_m (get_H_s exact_scenario 1e7)) by by_evaluation.
  split; [repeat split; solve [assumption | apply Hom]|].
  destruct (encode_decode exact_scenario 263.15 0 1e7 Hi Hw HL Hom) as [_ Hpa].
  destruct (Hpa HT) as (H & T' & He & Hwf & Ha & _ & Hz).
  exists H, T'. repeat split; try assumption.
  apply Hz. reflexivity.
Defined.

(** The round trip fails with water present: at p = 0, T = 263.15 K and
    omega = 1/2 (all within the stated ranges) both encoders give an
    enthalpy that decodes to the water fraction 0, not 1/2, and to a
    temperature more than 5 K below T; and without water the absolute form
    at p = 10 MPa decodes to T - 0.79.  The binary64 run of the same code
    gives the same water fraction 0 and a temperature below 258 K. *)
Lemma roundtrip_counterexample :
  (0 <= 0 /\ 0 <= 0.5 <= 1 /\
   263.15 <= water_melting_temperature exact_scenario /\
   263.15 <= T_m (get_H_s exact_scenario 0)) /\
  returns (getEnth exact_scenario 263.15 0.5 0) (fun H =>
    returns (getWaterFraction exact_scenario H 0) (fun w => w == 0) /\
    returns (getAbsTemp exact_scenario H 0) (fun T' => 263.15 - T' > 5)) /\
  returns (getEnth_pa exact_scenario 263.15 0.5 0) (fun H =>
    returns (getWaterFraction exact_scenario H 0) (fun w => w == 0) /\
    returns (getAbsTemp exact_scenario H 0) (fun T' => 263.15 - T' > 5)) /\
  returns (getEnth exact_scenario 263.15 0 1e7) (fun H =>
    returns (getAbsTemp exact_scenario H 1e7) (fun T' => 263.15 - T' == 0.79)) /\
  returns (getEnth double_scenario (lit 263.15) (lit 0.5) (lit 0)) (fun H =>
    getWaterFraction double_scenario H (lit 0) = Return (lit 0) /\
    returns (getAbsTemp double_scenario H (lit 0)) (fun T' =>
      PrimFloat.ltb T' (lit 258) = true)).
Proof. by_evaluation. Qed.

(** The liquid-water exit is not reached by every over-warm input: with
    T = 300 K, far above T_0 and T_m(0), and omega = 2, both encoders end
    with the water-fraction message instead. *)
Lemma getEnth_validation_counterexample :
  (water_melting_temperature exact_scenario + 0.000001 < 300 /\
   T_m (get_H_s exact_scenario 0) + 0.000001 < 300) /\
  getEnth exact_scenario 300 2 0 = Ended InvalidWaterFraction /\
  getEnth exact_scenario 300 2 0 <> Ended SupercooledInputError /\
  getEnth_pa exact_scenario 300 2 0 = Ended InvalidWaterFraction /\
  getEnth_pa exact_scenario 300 2 0 <> Ended SupercooledInputError.
Proof. by_evaluation. Qed.

(** The figures of the scenario do not come out of the code: H_s(0) is
    805035.5, which is 108.05 below the quoted 805143.55, and the enthalpy
    805143.55 - 2009 decodes to 273.15 - 1900.95/2009, about 272.2038 K and
    so more than 0.05 K above the quoted 272.15 K; binary64 agrees. *)
Lemma scenario_counterexample :
  (H_s (get_H_s exact_scenario 0) == 805035.5 /\
   805143.55 - H_s (get_H_s exact_scenario 0) == 108.05) /\
  returns (getAbsTemp exact_scenario (805143.55 - 2009) 0) (fun T =>
    T == 273.15 - 1900.95 / 2009 /\ T - 272.15 > 0.05) /\
  H_s (get_H_s double_scenario (lit 0)) = lit 805035.5 /\
  returns (getAbsTemp double_scenario (sub (lit 805143.55) (lit 2009)) (lit 0))
    (fun T => PrimFloat.ltb (lit 272.2) T = true).
Proof. by_evaluation. Qed.

(** C7 (the scenario as the code computes it).  At p = 0 with T_0 = 273.15,
    beta = 7.9e-8, L = 3.34e5, c_i = 2009 and c_w = 4170: H_s(0) = c_w T_0 -
    L = 805035.5; the enthalpy H_s(0) - 2009 maps to the temperature 272.15,
    one degree below melting, and to the water fraction 0; and H_s(0) + 1000
    maps to the temperature T_0 and to the water fraction 1000/334000. *)
Theorem scenario_values :
  (H_s (get_H_s exact_scenario 0) == 4170 * 273.15 - 3.34e5 /\
   H_s (get_H_s exact_scenario 0) == 805035.5) /\
  returns (getAbsTemp exact_scenario (H_s (get_H_s exact_scenario 0) - 2009) 0)
    (fun T => T == 272.15) /\
  getWaterFraction exact_scenario (H_s (get_H_s exact_scenario 0) - 2009) 0
    = Return 0 /\
  returns (getAbsTemp exact_scenario (H_s (get_H_s exact_scenario 0) + 1000) 0)
    (fun T => T == 273.15) /\
  returns (getWaterFraction exact_scenario
             (H_s (get_H_s exact_scenario 0) + 1000) 0)
    (fun w => w == 1000 / 334000).
Proof. by_evaluation. Qed.

(** The same scenario in binary64: the two temperatures are the doubles
    nearest to 272.15 and 273.15, and the water fraction is within 1e-15 of
    1000/334000. *)
Lemma scenario_values_binary64 :
  let H_s0 := H_s (get_H_s double_scenario (lit 0)) in
  H_s0 = lit 805035.5 /\
  getAbsTemp double_scenario (sub H_s0 (lit 2009)) (lit 0)
    = Return (lit 272.15) /\
  getWaterFraction double_scenario (sub H_s0 (lit 2009)) (lit 0)
    = Return (lit 0) /\
  getAbsTemp double_scenario (add H_s0 (lit 1000)) (lit 0)
    = Return (lit 273.15) /\
  returns (getWaterFraction double_scenario (add H_s0 (lit 1000)) (lit 0))
    (fun w =>
       PrimFloat.ltb (sub (lit (1000 / 334000)) (lit 1e-15)) w = true /\
       PrimFloat.ltb w (add (lit (1000 / 334000)) (lit 1e-15)) = true).
Proof. by_evaluation. Qed.

End Scenario.

(* ================================================================== *)
(** * IceEnthalpyModel: the time step and the cold-ice initialisation *)
(* ================================================================== *)

Lemma then_Return {A B : Type} (a : A) (k : A -> Run B) :
  (Return a ≫= k) = k a.
Proof. reflexivity. Qed.

Lemma then_Ended {A B : Type} (e : Stop) (k : A -> Run B) :
  (Ended e ≫= k) = Ended e.
Proof. reflexivity. Qed.

Lemma then_Return_inv {A B : Type} (r : Run A) (k : A -> Run B) (b : B) :
  (r ≫= k) = Return b -> exists a, r = Return a /\ k a = Return b.
Proof.
  destruct r as [a | e]; [|discriminate].
  rewrite then_Return. intros Hk. exists a. split; [reflexivity | exact Hk].
Qed.

Section Loops.
Context {A : Type}.

(** A counted loop whose every turn returns keeps an invariant indexed by
    the number of turns made. *)
Lemma for_loop_returns (Inv : nat -> A -> Prop) (body : Z -> A -> Run A) :
  forall (n : nat) (lo : Z) (a : A),
    Inv O a ->
    (forall (t : nat) (a : A), (t < n)%nat -> Inv t a ->
       exists a', body (lo + Z.of_nat t) a = Return a' /\ Inv (S t) a') ->
    exists a', for_loop n lo body a = Return a' /\ Inv n a'.
Proof.
  intros n. revert Inv.
  induction n as [|n IH]; intros Inv lo a H0 Hstep.
  - exists a. split; [reflexivity | exact H0].
  - destruct (Hstep O a) as [a1 [Hb H1]]; [lia | exact H0 |].
    rewrite Z.add_0_r in Hb.
    destruct (IH (fun t => Inv (S t)) (lo + 1) a1 H1) as [a' [Hl Hn]].
    + intros t a2 Ht Hinv.
      destruct (Hstep (S t) a2) as [a3 [Hb3 H3]]; [lia | exact Hinv |].
      exists a3. split; [|exact H3].
      rewrite <- Hb3. f_equal. lia.
    + exists a'. split; [|exact Hn].
      cbn [for_loop]. rewrite Hb, then_Return. exact Hl.
Qed.

(** A counted loop that returns has returned from every turn. *)
Lemma for_loop_turns_return (body : Z -> A -> Run A) :
  forall (n : nat) (lo : Z) (a a' : A),
    for_loop n lo body a = Return a' ->
    forall t : nat, (t < n)%nat ->
      exists a1 a2, body (lo + Z.of_nat t) a1 = Return a2.
Proof.
  induction n as [|n IH]; intros lo a a' Hrun t Ht; [lia|].
  cbn [for_loop] in Hrun.
  apply then_Return_inv in Hrun. destruct Hrun as [a1 [Hb Hrest]].
  destruct t as [|t].
  - exists a, a1. rewrite Z.add_0_r. exact Hb.
  - destruct (IH (lo + 1) a1 a' Hrest t) as [b1 [b2 Hb2]]; [lia|].
    exists b1, b2. rewrite <- Hb2. f_equal. lia.
Qed.

End Loops.

Section ColdIceFill.
Import Thermo EnthalpyModel.
Context {S : Type} `{Scalar S}.
Variable m : IceEnthalpyModel S.

Lemma fills_nothing (P : Z -> Z -> Z -> Prop) (E : IceModelVec3 S) :
  (forall i j k, ~ P i j k) -> fills m P E E.
Proof. intros Hno i j k. split; [intros HP; destruct (Hno _ _ _ HP) | reflexivity]. Qed.

Lemma fills_then (P Q R : Z -> Z -> Z -> Prop) (E0 E1 E2 : IceModelVec3 S) :
  (forall i j k, R i j k <-> P i j k \/ Q i j k) ->
  (forall i j k, P i j k -> ~ Q i j k) ->
  (forall i j k, Q i j k \/ ~ Q i j k) ->
  fills m P E0 E1 -> fills m Q E1 E2 -> fills m R E0 E2.
Proof.
  intros HR Hdisj Hdec H1 H2 i j k.
  destruct (H1 i j k) as [H1in H1out], (H2 i j k) as [H2in H2out].
  split.
  - intros HRijk. apply HR in HRijk.
    destruct (Hdec i j k) as [HQ | HnQ]; [exact (H2in HQ)|].
    destruct HRijk as [HP | HQ]; [|contradiction].
    rewrite (H2out HnQ). exact (H1in HP).
  - intros HnR.
    rewrite H2out, H1out; [reflexivity | |]; intros Hc; apply HnR, HR; tauto.
Qed.

(** A loop whose turn [t] fills the region [region t]. *)
Lemma for_loop_fills (region : Z -> Z -> Z -> Z -> Prop)
    (body : Z -> IceModelVec3 S -> Run (IceModelVec3 S)) (n : nat) (lo : Z)
    (E : IceModelVec3 S) :
  (forall t i j k, region t i j k \/ ~ region t i j k) ->
  (forall t t' i j k, region t i j k -> region t' i j k -> t = t') ->
  (forall t E1, lo <= t < lo + Z.of_nat n ->
     exists E2, body t E1 = Return E2 /\ fills m (region t) E1 E2) ->
  exists E', for_loop n lo body E = Return E' /\
    fills m (fun i j k => exists t, lo <= t < lo + Z.of_nat n /\ region t i j k)
          E E'.
Proof.
  intros Hdec Hinj Hbody.
  apply (for_loop_returns
    (fun t E' => fills m (fun i j k => exists u, lo <= u < lo + Z.of_nat t
                                               /\ region u i j k) E E')).
  - apply fills_nothing. intros i j k [u [Hu _]]. lia.
  - intros t E1 Ht Hfill.
    destruct (Hbody (lo + Z.of_nat t) E1) as [E2 [Hb Hf]]; [lia|].
    exists E2. split; [exact Hb|].
    eapply fills_then; [| | | exact Hfill | exact Hf].
    + intros i j k. split.
      * intros [u [Hu Hr]].
        destruct (Z.eq_dec u (lo + Z.of_nat t)) as [-> | Hne];
          [right; exact Hr | left; exists u; split; [lia | exact Hr]].
      * intros [[u [Hu Hr]] | Hr];
          [exists u | exists (lo + Z.of_nat t)]; split; try assumption; lia.
    + intros i j k [u [Hu Hr]] Hr'.
      pose proof (Hinj _ _ _ _ _ Hr Hr'). lia.
    + intros i j k. apply Hdec.
Qed.

(** The triple loop, when every owned cell has a value: it fills exactly
    the owned cells. *)
Lemma cold_ice_loops (E : IceModelVec3 S) :
  (forall i j k, owned m i j k -> exists v, cold_ice_cell m i j k = Return v) ->
  exists E',
    for_loop (Z.to_nat (xm (grid m))) (xs (grid m)) (fun i =>
      for_loop (Z.to_nat (ym (grid m))) (ys (grid m)) (fun j =>
        for_loop (Z.to_nat (Mz (grid m))) 0 (fun k =>
          coldIceLevel m i j k))) E = Return E' /\
    fills m (owned m) E E'.
Proof.
  intros Hcells.
  destruct (for_loop_fills
    (fun t i j k => i = t /\ ys (grid m) <= j < ys (grid m) + ym (grid m) /\ 0 <= k < Mz (grid m))
    (fun i => for_loop (Z.to_nat (ym (grid m))) (ys (grid m)) (fun j =>
       for_loop (Z.to_nat (Mz (grid m))) 0 (fun k => coldIceLevel m i j k)))
    (Z.to_nat (xm (grid m))) (xs (grid m)) E) as [E' [Hrun Hfill]].
  - intros; lia.
  - intros; lia.
  - intros i E1 Hi.
    destruct (for_loop_fills
      (fun t i' j k => i' = i /\ j = t /\ 0 <= k < Mz (grid m))
      (fun j => for_loop (Z.to_nat (Mz (grid m))) 0 (fun k => coldIceLevel m i j k))
      (Z.to_nat (ym (grid m))) (ys (grid m)) E1) as [E2 [Hrun2 Hfill2]].
    + intros; lia.
    + intros; lia.
    + intros j E3 Hj.
      destruct (for_loop_fills
        (fun t i' j' k => i' = i /\ j' = j /\ k = t)
        (fun k => coldIceLevel m i j k)
        (Z.to_nat (Mz (grid m))) 0 E3) as [E4 [Hrun4 Hfill4]].
      * intros; lia.
      * intros; lia.
      * intros k E5 Hk.
        destruct (Hcells i j k) as [v Hv]; [unfold owned; lia|].
        exists (set_level E5 i j k v). split.
        -- unfold coldIceLevel. unfold cold_ice_cell in Hv.
           destruct (ltb (lit 0%Q) (sub (vH m i j) (zlevels (grid m) k))).
           ++ rewrite Hv, then_Return. reflexivity.
           ++ injection Hv as <-. reflexivity.
        -- intros i' j' k'. unfold set_level. split.
           ++ intros (-> & -> & ->). rewrite !Z.eqb_refl. cbn. symmetry. exact Hv.
           ++ intros Hn.
              destruct (i' =? i) eqn:Ei, (j' =? j) eqn:Ej, (k' =? k) eqn:Ek;
                cbn; try reflexivity.
              apply Z.eqb_eq in Ei, Ej, Ek. tauto.
      * exists E4. split; [exact Hrun4|].
        intros i' j' k'. destruct (Hfill4 i' j' k') as [Hin Hout]. split.
        -- intros (-> & -> & Hk'). apply Hin. exists k'. split; [lia | tauto].
        -- intros Hn. apply Hout. intros [t [Ht (-> & -> & ->)]]. apply Hn. lia.
    + exists E2. split; [exact Hrun2|].
      intros i' j' k'. destruct (Hfill2 i' j' k') as [Hin Hout]. split.
      * intros (-> & Hj' & Hk'). apply Hin. exists j'. split; [lia | tauto].
      * intros Hn. apply Hout. intros [t [Ht (-> & -> & Hk')]]. apply Hn. lia.
  - exists E'. split; [exact Hrun|].
    intros i j k. destruct (Hfill i j k) as [Hin Hout]. split.
    + intros (Hi & Hj & Hk). apply Hin. exists i. split; [lia | tauto].
    + intros Hn. apply Hout. intros [t [Ht (-> & Hj & Hk)]].
      apply Hn. unfold owned. lia.
Qed.

(** Conversely, when the triple loop returns, every owned cell had a
    value. *)
Lemma cold_ice_loops_inv (E E' : IceModelVec3 S) :
  for_loop (Z.to_nat (xm (grid m))) (xs (grid m)) (fun i =>
    for_loop (Z.to_nat (ym (grid m))) (ys (grid m)) (fun j =>
      for_loop (Z.to_nat (Mz (grid m))) 0 (fun k =>
        coldIceLevel m i j k))) E = Return E' ->
  forall i j k, owned m i j k -> exists v, cold_ice_cell m i j k = Return v.
Proof.
  intros Hrun i j k (Hi & Hj & Hk).
  destruct (for_loop_turns_return _ _ _ _ _ Hrun (Z.to_nat (i - xs (grid m))))
    as [E1 [E2 Hrun_i]]; [lia|].
  replace (xs (grid m) + Z.of_nat (Z.to_nat (i - xs (grid m)))) with i
    in Hrun_i by lia.
  destruct (for_loop_turns_return _ _ _ _ _ Hrun_i (Z.to_nat (j - ys (grid m))))
    as [E3 [E4 Hrun_j]]; [lia|].
  replace (ys (grid m) + Z.of_nat (Z.to_nat (j - ys (grid m)))) with j
    in Hrun_j by lia.
  destruct (for_loop_turns_return _ _ _ _ _ Hrun_j (Z.to_nat k))
    as [E5 [E6 Hrun_k]]; [lia|].
  replace (0 + Z.of_nat (Z.to_nat k)) with k in Hrun_k by lia.
  unfold coldIceLevel in Hrun_k. unfold cold_ice_cell.
  destruct (ltb (lit 0%Q) (sub (vH m i j) (zlevels (grid m) k))).
  - apply then_Return_inv in Hrun_k. destruct Hrun_k as [v [Hv _]].
    exists v. exact Hv.
  - eexists. reflexivity.
Qed.

End ColdIceFill.

Section ColdIceInit.
Import Thermo EnthalpyModel.
Local Open Scope Q_scope.

Variable ext : External Q.

(** With a zero water fraction only the temperature test of [getEnth] can
    end the run. *)
Lemma getEnth_cold_returns (config : NCConfigVariable Q) (T p : Q) :
  T <= water_melting_temperature config + 0.000001 ->
  exists E, getEnth config T 0 p = Return E.
Proof.
  intros HT. unfold getEnth. by_cases_on_tests; try lra.
  eexists. reflexivity.
Qed.

Lemma cold_ice_cell_cases (m : IceEnthalpyModel Q) (i j k : Z) :
  let depth := vH m i j - zlevels (grid m) k in
  (0 < depth ->
     cold_ice_cell m i j k
       = getEnth (config m) (T3 m i j k) 0
                 (getPressureFromDepth (config m) depth) /\
     getPressureFromDepth (config m) depth
       = surface_pressure (config m)
         + ice_density (config m) * earth_gravity (config m) * depth) /\
  (depth <= 0 -> cold_ice_cell m i j k = Return 0).
Proof.
  intros depth. subst depth. unfold cold_ice_cell, getPressureFromDepth.
  split; intros Hd; by_cases_on_tests; try lra; try split; reflexivity.
Qed.

(** [setEnth3FromT3_ColdIce] when every temperature in the ice is
    admissible. *)
Lemma setEnth3FromT3_ColdIce_returns (m : IceEnthalpyModel Q) :
  (forall v i j k, owned m i j k ->
     ghostComm ext (grid m) v i j k = v i j k) ->
  (forall i j k, owned m i j k ->
     0 < vH m i j - zlevels (grid m) k ->
     T3 m i j k <= water_melting_temperature (config m) + 0.000001) ->
  exists m',
    setEnth3FromT3_ColdIce ext m = Return m' /\
    (forall i j k, owned m i j k ->
       Return (Enth3 m' i j k) = cold_ice_cell m i j k) /\
    events m' = events m ++ [beginGhostComm "enthalpy"; endGhostComm "enthalpy"].
Proof.
  intros Hghost Hcold.
  destruct (cold_ice_loops m (Enth3 m)) as [E' [Hrun Hfill]].
  { intros i j k Hown.
    destruct (Qlt_le_dec 0 (vH m i j - zlevels (grid m) k)) as [Hd | Hd].
    - destruct (cold_ice_cell_cases m i j k) as [Hin _].
      destruct (Hin Hd) as [-> _].
      apply getEnth_cold_returns. exact (Hcold i j k Hown Hd).
    - destruct (cold_ice_cell_cases m i j k) as [_ Hout].
      exists 0. exact (Hout Hd). }
  eexists. split; [|split].
  - unfold setEnth3FromT3_ColdIce. rewrite Hrun, then_Return. reflexivity.
  - intros i j k Hown. cbn [Enth3 log with_Enth3].
    rewrite (Hghost _ _ _ _ Hown).
    destruct (Hfill i j k) as [Hin _]. exact (Hin Hown).
  - reflexivity.
Qed.

(** The bound on the temperatures is needed: when
    [setEnth3FromT3_ColdIce] returns, no owned cell in the ice was warmer
    than T_0 + 0.000001. *)
Lemma setEnth3FromT3_ColdIce_needs_cold (m m' : IceEnthalpyModel Q) :
  setEnth3FromT3_ColdIce ext m = Return m' ->
  forall i j k, owned m i j k ->
    0 < vH m i j - zlevels (grid m) k ->
    T3 m i j k <= water_melting_temperature (config m) + 0.000001.
Proof.
  unfold setEnth3FromT3_ColdIce. intros Hrun i j k Hown Hd.
  apply then_Return_inv in Hrun. destruct Hrun as [E' [Hloops _]].
  destruct (cold_ice_loops_inv m _ _ Hloops i j k Hown) as [v Hv].
  destruct (cold_ice_cell_cases m i j k) as [Hin _].
  destruct (Hin Hd) as [Hcell _]. rewrite Hcell in Hv.
  unfold getEnth in Hv. revert Hv.
  by_cases_on_tests; intros Hv; try discriminate. lra.
Qed.

(** C6 (cold-ice initialisation).  When the base class has read the file
    and the file has no variable 'enthalpy', [initFromFile] sets the
    enthalpy from the temperature as cold ice with zero water fraction:
    every owned cell below the ice surface (depth > 0) gets
    getEnth(T, 0.0, p) with p = p_air + rho_i g depth, every owned cell at
    or above the surface gets 0, and the ghost communication of the enthalpy
    follows.  The temperatures in the ice are at most T_0 + 0.000001 (else
    [getEnth] ends the run), and the ghost communication leaves the owned
    cells as they are. *)
Theorem initFromFile_cold_ice (fname : string) (m m1 : IceEnthalpyModel Q)
    (nc : NCFile) :
  (forall v i j k, owned m1 i j k ->
     ghostComm ext (grid m1) v i j k = v i j k) ->
  IceModel_initFromFile ext fname m = Return m1 ->
  open_for_reading ext fname = Return nc ->
  "enthalpy" ∉ variables nc ->
  (forall i j k, owned m1 i j k ->
     0 < vH m1 i j - zlevels (grid m1) k ->
     T3 m1 i j k <= water_melting_temperature (config m1) + 0.000001) ->
  exists m',
    initFromFile ext fname m = Return m' /\
    (forall i j k, owned m1 i j k ->
       let depth := vH m1 i j - zlevels (grid m1) k in
       (0 < depth ->
          Return (Enth3 m' i j k)
            = getEnth (config m1) (T3 m1 i j k) 0
                      (getPressureFromDepth (config m1) depth) /\
          getPressureFromDepth (config m1) depth
            = surface_pressure (config m1)
              + ice_density (config m1) * earth_gravity (config m1) * depth) /\
       (depth <= 0 -> Enth3 m' i j k = 0)) /\
    events m' = events m1 ++ init_messages fname.
Proof.
  intros Hghost Hbase Hopen Hno Hcold.
  unfold initFromFile.
  rewrite Hbase, then_Return, Hopen, then_Return.
  rewrite bool_decide_eq_false_2 by exact Hno.
  match goal with
  | |- context [setEnth3FromT3_ColdIce ext ?x] => set (m2 := x)
  end.
  destruct (setEnth3FromT3_ColdIce_returns m2 Hghost Hcold)
    as [m' [Hrun [Hcells Hev]]].
  exists m'. split; [exact Hrun|]. split.
  - intros i j k Hown. cbv zeta.
    specialize (Hcells i j k Hown).
    destruct (cold_ice_cell_cases m1 i j k) as [Hpos Hneg].
    change (cold_ice_cell m2 i j k) with (cold_ice_cell m1 i j k) in Hcells.
    split.
    + intros Hd. destruct (Hpos Hd) as [Hcell Hp].
      split; [|exact Hp]. rewrite Hcells. exact Hcell.
    + intros Hd. specialize (Hneg Hd). rewrite Hneg in Hcells.
      injection Hcells as ->. reflexivity.
  - rewrite Hev. subst m2. cbn [events log]. rewrite <- !app_assoc. reflexivity.
Qed.

End ColdIceInit.

Section TimeStep.
Import Thermo EnthalpyModel.
Context {S : Type} `{Scalar S}.

(** C3 (the temperature step as written).  With the enthalpy mode off
    ([doColdIceTemperatureStep] true) [temperatureStep] hands the step to
    [IceModel::temperatureStep]; with the mode on it calls [enthalpyStep],
    which for every state prints that it is not implemented and ends the
    run, so no enthalpy value is computed, [EnthNew3] is not written and
    neither counter is set. *)
Theorem temperatureStep_dispatch (ext : External S) (m : IceEnthalpyModel S)
    (counts : S * S) :
  enthalpyStep ext m counts = Ended NotImplemented /\
  (doColdIceTemperatureStep m = false ->
     temperatureStep ext m counts
       = enthalpyStep ext
           (log m [verbPrintf DEBUGVERB
              "     IceEnthalpyModel::temperatureStep(): CALLING IceEnthalpyModel::enthalpyStep()"])
           counts /\
     temperatureStep ext m counts = Ended NotImplemented) /\
  (doColdIceTemperatureStep m = true ->
     temperatureStep ext m counts
       = IceModel_temperatureStep ext
           (log m [verbPrintf DEBUGVERB
              "     IceEnthalpyModel::temperatureStep(): CALLING IceModel::temperatureStep()"])
           counts).
Proof.
  unfold temperatureStep, enthalpyStep.
  split; [reflexivity|].
  split; intros ->; [split|]; reflexivity.
Qed.

End TimeStep.

Section OnTheExample.
Import Thermo EnthalpyModel Example.
Local Open Scope Q_scope.

(** In the enthalpy mode the step does not return: on the example model
    with [doColdIceTemperatureStep] false, [temperatureStep] ends the run
    with the message of [enthalpyStep]. *)
Lemma temperatureStep_counterexample :
  doColdIceTemperatureStep (cold_model false) = false /\
  temperatureStep single_process (cold_model false) (0, 0)
    = Ended NotImplemented /\
  (forall r, temperatureStep single_process (cold_model false) (0, 0)
             <> Return r).
Proof.
  split; [reflexivity|]. split; [reflexivity|].
  intros r. discriminate.
Qed.

(** The cold-ice initialisation on the example model. *)
Lemma initFromFile_cold_ice_witness :
  ((forall v i j k, owned (cold_model true) i j k ->
      ghostComm single_process (grid (cold_model true)) v i j k = v i j k) /\
   IceModel_initFromFile single_process "in.nc" (cold_model true)
     = Return (cold_model true) /\
   open_for_reading single_process "in.nc" = Return temperature_file /\
   ("enthalpy" ∉ variables temperature_file) /\
   (forall i j k, owned (cold_model true) i j k ->
      0 < vH (cold_model true) i j - zlevels (grid (cold_model true)) k ->
      T3 (cold_model true) i j k
        <= water_melting_temperature (config (cold_model true)) + 0.000001)) /\
  exists m',
    initFromFile single_process "in.nc" (cold_model true) = Return m' /\
    (forall i j k, owned (cold_model true) i j k ->
       let depth := vH (cold_model true) i j
                    - zlevels (grid (cold_model true)) k in
       (0 < depth ->
          Return (Enth3 m' i j k)
            = getEnth (config (cold_model true)) (T3 (cold_model true) i j k) 0
                (getPressureFromDepth (config (cold_model true)) depth) /\
          getPressureFromDepth (config (cold_model true)) depth
            = surface_pressure (config (cold_model true))
              + ice_density (config (cold_model true))
                * earth_gravity (config (cold_model true)) * depth) /\
       (depth <= 0 -> Enth3 m' i j k = 0)) /\
    events m' = events (cold_model true) ++ init_messages "in.nc".
Proof.
  assert (Hghost : forall v i j k, owned (cold_model true) i j k ->
            ghostComm single_process (grid (cold_model true)) v i j k = v i j k)
    by reflexivity.
  assert (Hbase : IceModel_initFromFile single_process "in.nc" (cold_model true)
                  = Return (cold_model true)) by reflexivity.
  assert (Hopen : open_for_reading single_process "in.nc"
                  = Return temperature_file) by reflexivity.
  assert (Hno : "enthalpy" ∉ variables temperature_file) by (vm_compute; set_solver).
  assert (Hcold : forall i j k, owned (cold_model true) i j k ->
            0 < vH (cold_model true) i j - zlevels (grid (cold_model true)) k ->
            T3 (cold_model true) i j k
              <= water_melting_temperature (config (cold_model true)) + 0.000001)
    by (intros; by_evaluation).
  split; [repeat split; assumption|].
  exact (initFromFile_cold_ice single_process "in.nc" (cold_model true)
           (cold_model true) temperature_file Hghost Hbase Hopen Hno Hcold).
Defined.

(** The example, run: the level at 100 m, 50 m below the surface, gets the
    enthalpy of ice at 260 K under 50 m of ice, the level at 200 m gets 0,
    and the four events are logged. *)
Lemma initFromFile_example :
  returns (initFromFile single_process "in.nc" (cold_model true)) (fun m' =>
    returns (getEnth scenario 260 0 (0 + 910 * 9.81 * 50)) (fun E =>
      Enth3 m' 1%Z 0%Z 1%Z == E) /\
    Enth3 m' 1%Z 0%Z 2%Z = 0 /\
    events m' = init_messages "in.nc").
Proof. by_evaluation. Qed.

End OnTheExample.

(* ================================================================== *)
(** * PISMFEvoR::update: the bounds on the enhancement factor *)
(* ================================================================== *)

Section BoundsExact.
Import FEvoR.
Local Open Scope Q_scope.

(** In exact arithmetic the bounds hold for every quotient. *)
Lemma bounds_exact (e : Q) :
  (1 <= bounds e /\ bounds e <= 10) /\
  (e < 1 -> bounds e = 1) /\
  (10 < e -> bounds e = 10) /\
  (1 <= e /\ e <= 10 -> bounds e = e).
Proof.
  unfold bounds.
  split_conj; by_cases_on_tests; intros; try lra; try reflexivity.
Qed.

End BoundsExact.

Section BoundsBinary64.
Import FEvoR.

(** Comparing a double that is not NaN with a positive finite constant
    gives one of the three orders, and swapping the sides swaps it. *)
Lemma SFcompare_finite_swap (x : spec_float) (m : positive) (e : Z) :
  x <> S754_nan ->
  exists c, SFcompare x (S754_finite false m e) = Some c /\
            SFcompare (S754_finite false m e) x = Some (CompOpp c).
Proof.
  intros Hx. destruct x as [s | s | | s mx ex]; try congruence.
  - destruct s; eexists; split; reflexivity.
  - destruct s; eexists; split; reflexivity.
  - destruct s; cbn.
    + eexists; split; reflexivity.
    + rewrite (Z.compare_antisym ex e).
      destruct (ex ?= e)%Z eqn:E; cbn; eexists; split; try reflexivity.
      f_equal. symmetry. exact (Pos.compare_cont_antisym mx m Eq).
Qed.

Lemma not_nan_spec (r : float) :
  PrimFloat.is_nan r = false -> Prim2SF r <> S754_nan.
Proof.
  intros Hn Hs. unfold PrimFloat.is_nan in Hn.
  rewrite FloatAxioms.eqb_spec, Hs in Hn. discriminate.
Qed.

(** In binary64 the bounds hold for every quotient that is a number. *)
Lemma bounds_binary64 (r : float) :
  PrimFloat.is_nan r = false ->
  PrimFloat.leb (lit 1%Q) (bounds r) = true /\
  PrimFloat.leb (bounds r) (lit 10%Q) = true.
Proof.
  intros Hn. apply not_nan_spec in Hn.
  unfold bounds. cbn [ltb leb lit binary64].
  change (float_of_Q 1%Q) with 1%float.
  change (float_of_Q 10%Q) with 10%float.
  destruct (SFcompare_finite_swap (Prim2SF r) 4503599627370496 (-52) Hn)
    as [c1 [H1 H1']].
  destruct (SFcompare_finite_swap (Prim2SF r) 5629499534213120 (-49) Hn)
    as [c10 [H10 H10']].
  change (S754_finite false 4503599627370496 (-52)) with (Prim2SF 1) in H1, H1'.
  change (S754_finite false 5629499534213120 (-49)) with (Prim2SF 10) in H10, H10'.
  rewrite (FloatAxioms.ltb_spec r 1), (FloatAxioms.ltb_spec 10 r).
  unfold SFltb. rewrite H1, H10'.
  destruct c1, c10; cbn; rewrite ?FloatAxioms.leb_spec; unfold SFleb;
    rewrite ?H1', ?H10; cbn; split; reflexivity.
Qed.

End BoundsBinary64.

Section BoundsAtNaN.
Import FEvoR.


End BoundsAtNaN.

(* ================================================================== *)
(** * The interpolation query and interp_field_point *)
(* ================================================================== *)

Section CallerAsserts.
Import FEvoR.
Local Open Scope Q_scope.


End CallerAsserts.

Section InterpolationQuery.
Import GridQuery.
Local Open Scope Q_scope.

Variable d : Domain.
Hypothesis Lx_pos : 0 < Lx d.
Hypothesis Ly_pos : 0 < Ly d.
Hypothesis Mx_two : (2 <= Mx d)%Z.
Hypothesis My_two : (2 <= My d)%Z.







End InterpolationQuery.

Section QueryOnTheExample.
Import GridQuery Example.
Local Open Scope Q_scope.


(** The query, run: inside the square it answers with the cell (1,0) and
    the weights 3/8, 1/8, 1/8, 3/8 (up to the form of the fractions);
    outside it fails, and so does [interp_field_point]. *)
Lemma interpolation_query_example :
  returns (collectInterpolationWeights square 250 (-500)) (fun '(w, cell) =>
    cell = [ (1, 0); (2, 0); (2, 1); (1, 1) ]%Z /\
    Forall2 Qeq w [ 3 # 8; 1 # 8; 1 # 8; 3 # 8 ]) /\
  collectInterpolationWeights square 1250 0 = Ended OutOfDomainError /\
  FEvoR.interp_field_point
    (grid square 200 3 (fun k => inject_Z (100 * k)) 0 3 0 3)
    1250 0 50 (fun _ _ _ => 1)
    = Ended OutOfDomainError.
Proof.
  split; [|split; reflexivity].
  vm_compute. split; [reflexivity|].
  repeat constructor.
Qed.

End QueryOnTheExample.


(* ================================================================== *)
(** * CDI::open_impl *)
(* ================================================================== *)

Section OpenImpl.
Import CDI.

Variable lib : Library.

(** C10 (reading is refused).  Called with the mode [PISM_READONLY],
    [open_impl] throws the [RuntimeError] "file reading not supported with
    CDI-PIO in PISM" and leaves every data member as it was; so a call that
    returns had another mode, and it has stored the given file ID; and the
    two reading methods throw the same error whatever they are given. *)
Theorem open_impl_refuses_reading (self : State) (fname : string)
    (mode : IO_Mode) (FileID : Z) (dimsa : gmap string AxisType) :
  open_impl lib self fname (PISM_READONLY lib) FileID dimsa
    = (self, Ended (RuntimeError
                      "file reading not supported with CDI-PIO in PISM")) /\
  (snd (open_impl lib self fname mode FileID dimsa) = Return tt <->
     mode <> PISM_READONLY lib) /\
  (mode <> PISM_READONLY lib ->
     m_file_id (fst (open_impl lib self fname mode FileID dimsa)) = FileID /\
     m_dimsAxis (fst (open_impl lib self fname mode FileID dimsa)) = dimsa) /\
  get_vara_double_impl self
    = (self, Ended (RuntimeError
                      "file reading not supported with CDI-PIO in PISM")) /\
  get_varm_double_impl self
    = (self, Ended (RuntimeError
                      "file reading not supported with CDI-PIO in PISM")).
Proof.
  unfold open_impl.
  split; [rewrite Z.eqb_refl; reflexivity|].
  split; [|split; [|split; reflexivity]].
  - destruct (mode =? PISM_READONLY lib) eqn:E; cbn [snd].
    + apply Z.eqb_eq in E. split; [discriminate | intros Hne; contradiction].
    + apply Z.eqb_neq in E. split; [intros _; exact E | reflexivity].
  - intros Hne. apply Z.eqb_neq in Hne. rewrite Hne. split; reflexivity.
Qed.

End OpenImpl.

(* ================================================================== *)
(** * More laws of the converter *)
(* ================================================================== *)

Section ConverterConsequences.
Import Thermo.
Local Open Scope Q_scope.

Variable config : NCConfigVariable Q.

Local Abbreviation T_0 := (water_melting_temperature config).
Local Abbreviation beta := (beta_CC config).
Local Abbreviation c_w := (water_specific_heat_capacity config).
Local Abbreviation c_i := (ice_specific_heat_capacity config).
Local Abbreviation L := (water_latent_heat_fusion config).
Local Abbreviation p_air := (surface_pressure config).
Local Abbreviation g := (earth_gravity config).
Local Abbreviation rho_i := (ice_density config).

(** X1 (hydrostatic pressure).  [getPressureFromDepth] gives the surface
    pressure at or above the surface of the ice and p_air + rho_i g depth
    below it; the pressure is never below the surface pressure and does not
    decrease with the depth.  The product rho_i g is not negative. *)
Theorem getPressureFromDepth_hydrostatic (depth depth' : Q) :
  0 <= rho_i * g ->
  (depth <= 0 -> getPressureFromDepth config depth = p_air) /\
  (0 < depth -> getPressureFromDepth config depth = p_air + rho_i * g * depth) /\
  p_air <= getPressureFromDepth config depth /\
  (depth <= depth' ->
     getPressureFromDepth config depth <= getPressureFromDepth config depth').
Proof.
  intros Hrg.
  assert (Hpos : forall d, 0 <= d -> 0 <= rho_i * g * d).
  { intros d Hd. apply Qmult_le_0_compat; assumption. }
  assert (Hmono : forall d d', d <= d' -> rho_i * g * d <= rho_i * g * d').
  { intros d d' Hd.
    assert (Hdiff : rho_i * g * d' == rho_i * g * d + rho_i * g * (d' - d)) by ring.
    specialize (Hpos (d' - d)). lra. }
  unfold getPressureFromDepth.
  split_conj; by_cases_on_tests; intros; try lra; try reflexivity.
  - specialize (Hpos depth). lra.
  - specialize (Hpos depth'). lra.
  - specialize (Hmono depth depth'). lra.
Qed.

(** X2 (cold or temperate).  Below the enthalpy of liquid water both
    decoders return, and what they return is cold ice or temperate ice: the
    temperature never exceeds the melting temperature T_m(p); it is below
    T_m(p) exactly when H < H_s(p), and then there is no water; there is
    water exactly when H > H_s(p), and then the temperature is T_m(p); the
    water fraction stays in [0,1).  The heat capacity c_i and the latent
    heat L are positive. *)
Theorem cold_or_temperate (H p : Q) :
  0 < c_i -> 0 < L ->
  H < H_l (get_H_s config p) ->
  let t := get_H_s config p in
  exists T w,
    getAbsTemp config H p = Return T /\
    getWaterFraction config H p = Return w /\
    T <= T_m t /\ (0 <= w /\ w < 1) /\
    (T < T_m t <-> H < H_s t) /\
    (0 < w <-> H_s t < H) /\
    (T < T_m t -> w = 0) /\
    (0 < w -> T = T_m t).
Proof.
  intros Hi HL Hlt t.
  pose proof (H_s_below_H_l config p HL) as Hsl. fold t in Hsl, Hlt.
  assert (Ht : H_s t == H_l t - L) by (subst t; cbn; ring).
  assert (cold_neg : H < H_s t -> (H - H_s t) / c_i < 0).
  { intros Hh. apply Qlt_shift_div_r; [exact Hi|]. lra. }
  assert (frac_pos : H_s t < H -> 0 < (H - H_s t) / L).
  { intros Hh. apply Qlt_shift_div_l; [exact HL|]. lra. }
  assert (frac_lt_1 : (H - H_s t) / L < 1).
  { apply Qlt_shift_div_r; [exact HL|]. lra. }
  unfold getAbsTemp, getWaterFraction. fold t.
  by_cases_on_tests; try lra;
    do 2 eexists; do 2 (split; [reflexivity|]);
    split_conj; intros; try reflexivity; try lra.
Qed.


(** X4 (an encoded enthalpy can be decoded).  Whatever [getEnth] or
    [getEnth_pa] returns is below the enthalpy of liquid water H_l(p), so
    neither decoder ends the run on it; this includes the temperatures up
    to 0.000001 above the melting bound that the encoders let pass.  The
    heat capacities are not negative, and warming ice or water by 0.000001 K
    takes less than the latent heat. *)
Theorem encoded_enthalpy_is_decodable (T omega p H : Q) :
  0 <= c_i -> 0 <= c_w ->
  c_i * 0.000001 < L -> c_w * 0.000001 < L ->
  getEnth config T omega p = Return H \/ getEnth_pa config T omega p = Return H ->
  H < H_l (get_H_s config p) /\
  (exists T', getAbsTemp config H p = Return T') /\
  (exists w, getWaterFraction config H p = Return w).
Proof.
  intros Hi Hw HiL HwL Henc.
  set (t := get_H_s config p).
  assert (Ht : H_s t == H_l t - L) by (subst t; cbn; ring).
  assert (Hbelow : H < H_l t).
  { assert (Hmix : forall d, 0 <= omega -> omega <= 1 -> d <= 0.000001 ->
              ((1 - omega) * c_i + omega * c_w) * d < L).
    { intros d H0 H1 Hd.
      assert (Hc : 0 <= (1 - omega) * c_i + omega * c_w).
      { assert (0 <= (1 - omega) * c_i) by (apply Qmult_le_0_compat; lra).
        assert (0 <= omega * c_w) by (apply Qmult_le_0_compat; lra). lra. }
      assert (Hd' : ((1 - omega) * c_i + omega * c_w) * d
                    <= ((1 - omega) * c_i + omega * c_w) * 0.000001).
      { assert (0 <= ((1 - omega) * c_i + omega * c_w) * (0.000001 - d))
          by (apply Qmult_le_0_compat; lra).
        lra. }
      assert (Hsplit : ((1 - omega) * c_i + omega * c_w) * 0.000001
                       == (1 - omega) * (c_i * 0.000001) + omega * (c_w * 0.000001))
        by ring.
      assert (Hci : 0 <= (1 - omega) * (L - c_i * 0.000001))
        by (apply Qmult_le_0_compat; lra).
      assert (Hcw : 0 <= omega * (L - c_w * 0.000001))
        by (apply Qmult_le_0_compat; lra).
      destruct (Qlt_le_dec 0 omega) as [Hom | Hom].
      - assert (0 < omega * (L - c_w * 0.000001))
          by (apply Qmult_lt_0_compat; lra).
        lra.
      - assert (0 < (1 - omega) * (L - c_i * 0.000001))
          by (apply Qmult_lt_0_compat; lra).
        lra. }
    destruct Henc as [Henc | Henc]; revert Henc;
      unfold getEnth, getEnth_pa; fold t;
      by_cases_on_tests; intros Henc; try discriminate;
      injection Henc as <-.
    - assert (((1 - omega) * c_i + omega * c_w) * (T - T_0) < L)
        by (apply Hmix; lra).
      subst t. cbn. lra.
    - assert (((1 - omega) * c_i + omega * c_w) * (T - T_m t) < L)
        by (apply Hmix; lra).
      subst t. cbn in *. lra. }
  split; [exact Hbelow|].
  unfold getAbsTemp, getWaterFraction. fold t.
  split; by_cases_on_tests; try lra; eexists; reflexivity.
Qed.

End ConverterConsequences.

Section ConverterConsequencesAtTheScenario.
Import Thermo.
Local Open Scope Q_scope.

Local Abbreviation exact_scenario := (scenario (S:=Q)).

(** The pressure under 50 m and under 100 m of ice at the scenario. *)
Lemma getPressureFromDepth_hydrostatic_witness :
  0 <= ice_density exact_scenario * earth_gravity exact_scenario /\
  surface_pressure exact_scenario <= getPressureFromDepth exact_scenario 50 /\
  (50 <= 100 ->
   getPressureFromDepth exact_scenario 50 <= getPressureFromDepth exact_scenario 100).
Proof.
  assert (Hrg : 0 <= ice_density exact_scenario * earth_gravity exact_scenario)
    by by_evaluation.
  split; [exact Hrg|].
  exact (proj2 (proj2 (getPressureFromDepth_hydrostatic exact_scenario 50 100 Hrg))).
Defined.

(** Temperate ice at the scenario: 1000 J/kg above H_s(0). *)
Lemma cold_or_temperate_witness :
  (0 < ice_specific_heat_capacity exact_scenario /\
   0 < water_latent_heat_fusion exact_scenario /\
   806035.5 < H_l (get_H_s exact_scenario 0)) /\
  exists T w,
    getAbsTemp exact_scenario 806035.5 0 = Return T /\
    getWaterFraction exact_scenario 806035.5 0 = Return w /\
    T <= T_m (get_H_s exact_scenario 0) /\ (0 <= w /\ w < 1).
Proof.
  assert (Hi : 0 < ice_specific_heat_capacity exact_scenario) by by_evaluation.
  assert (HL : 0 < water_latent_heat_fusion exact_scenario) by by_evaluation.
  assert (Hlt : 806035.5 < H_l (get_H_s exact_scenario 0)) by by_evaluation.
  split; [repeat split; assumption|].
  destruct (cold_or_temperate exact_scenario 806035.5 0 Hi HL Hlt)
    as (T & w & HT & Hw & Hle & Hrange & _).
  exists T, w. repeat split; solve [assumption | apply Hrange].
Defined.

(** Ice at T_0 + 0.0000005 K passes the encoder at the scenario and is
    decodable. *)
Lemma encoded_enthalpy_is_decodable_witness :
  (0 <= ice_specific_heat_capacity exact_scenario /\
   0 <= water_specific_heat_capacity exact_scenario /\
   ice_specific_heat_capacity exact_scenario * 0.000001
     < water_latent_heat_fusion exact_scenario /\
   water_specific_heat_capacity exact_scenario * 0.000001
     < water_latent_heat_fusion exact_scenario) /\
  returns (getEnth exact_scenario 273.1500005 0 0) (fun H =>
    H < H_l (get_H_s exact_scenario 0) /\
    (exists T', getAbsTemp exact_scenario H 0 = Return T') /\
    (exists w, getWaterFraction exact_scenario H 0 = Return w)).
Proof.
  assert (Hi : 0 <= ice_specific_heat_capacity exact_scenario) by by_evaluation.
  assert (Hw : 0 <= water_specific_heat_capacity exact_scenario) by by_evaluation.
  assert (HiL : ice_specific_heat_capacity exact_scenario * 0.000001
                < water_latent_heat_fusion exact_scenario) by by_evaluation.
  assert (HwL : water_specific_heat_capacity exact_scenario * 0.000001
                < water_latent_heat_fusion exact_scenario) by by_evaluation.
  split; [repeat split; assumption|].
  destruct (getEnth exact_scenario 273.1500005 0 0) as [H | why] eqn:Henc.
  - exact (encoded_enthalpy_is_decodable exact_scenario 273.1500005 0 0 H
             Hi Hw HiL HwL (or_introl Henc)).
  - vm_compute in Henc. discriminate.
Defined.

End ConverterConsequencesAtTheScenario.

(* ================================================================== *)
(** * The flow law PolyThermalGlenPBLDIce *)
(* ================================================================== *)

Section HardnessIntegral.
Import Rheology.
Local Open Scope Q_scope.

Variable b : ThermoGlenIce Q.
Variable H : Q.
Variables zlevels T1 T2 : Z -> Q.

(** The hardness at the level m, as the integration evaluates it. *)
Local Abbreviation h :=
  (fun m : Z => hardnessParameter b (level_temperature b H zlevels T1 T2 m)).

(** The loop keeps [dz] the spacing below the level it is at, and [B] the
    trapezoid sum up to the level below plus the half step already added
    for that level. *)
Lemma hardness_loop_trapezoid (turns : nat) :
  forall (j : nat) (dz B : Q),
    dz == zlevels (Z.of_nat j + 1)%Z - zlevels (Z.of_nat j) ->
    B == trapezoid_rule zlevels h j + 0.5 * dz * h (Z.of_nat j) ->
    let r := hardness_loop b H zlevels T1 T2 turns (Z.of_nat j + 1)%Z dz B in
    fst r == zlevels (Z.of_nat (j + turns) + 1)%Z - zlevels (Z.of_nat (j + turns)) /\
    snd r == trapezoid_rule zlevels h (j + turns)
             + 0.5 * fst r * h (Z.of_nat (j + turns)).
Proof.
  induction turns as [|turns IH]; intros j dz B Hdz HB; cbv zeta.
  - cbn [hardness_loop fst snd]. rewrite Nat.add_0_r. split; assumption.
  - cbn [hardness_loop].
    replace (Z.of_nat j + 1 + 1)%Z with (Z.of_nat (Datatypes.S j) + 1)%Z by lia.
    replace (j + Datatypes.S turns)%nat with (Datatypes.S j + turns)%nat by lia.
    apply IH.
    + replace (Z.of_nat (Datatypes.S j)) with (Z.of_nat j + 1)%Z by lia.
      cbn [sub exact]. reflexivity.
    + cbn [trapezoid_rule add sub mul div lit exact].
      replace (Z.of_nat (Datatypes.S j)) with (Z.of_nat j + 1)%Z by lia.
      rewrite HB, Hdz.
      assert (Hlevel : level_temperature b H zlevels T1 T2 (Z.of_nat j + 1)
                = 0.5 * (T1 (Z.of_nat j + 1)%Z + T2 (Z.of_nat j + 1)%Z)
                  + beta_CC_grad b * (H - zlevels (Z.of_nat j + 1)%Z)).
      { unfold level_temperature.
        destruct (Z.eqb_spec (Z.of_nat j + 1) 0) as [E | _]; [lia | reflexivity]. }
      rewrite Hlevel. field.
Qed.

Lemma integrated_hardness_trapezoid (kbelowH : Z) :
  integrated_hardness b H kbelowH zlevels T1 T2
  == trapezoid_rule zlevels h (Z.to_nat kbelowH).
Proof.
  unfold integrated_hardness.
  destruct (Z.ltb_spec 0 kbelowH) as [Hk | Hk].
  - pose proof (hardness_loop_trapezoid (Z.to_nat (kbelowH - 1)) 0
                  (sub (zlevels 1%Z) (zlevels 0%Z))
                  (add (lit 0) (mul (mul (lit 0.5) (sub (zlevels 1%Z) (zlevels 0%Z)))
                     (hardnessParameter b
                        (add (mul (lit 0.5) (add (T1 0%Z) (T2 0%Z)))
                             (mul (beta_CC_grad b) H)))))) as Hloop.
    cbv zeta in Hloop. change (Z.of_nat 0 + 1)%Z with 1%Z in Hloop.
    destruct (hardness_loop b H zlevels T1 T2 (Z.to_nat (kbelowH - 1)) 1
                (sub (zlevels 1%Z) (zlevels 0%Z)) _) as [dz B].
    cbn [fst snd] in Hloop.
    destruct Hloop as [Hdz HB].
    + cbn. reflexivity.
    + cbn [trapezoid_rule add sub mul div lit exact]. unfold level_temperature.
      change (Z.of_nat 0) with 0%Z. cbn [Z.eqb]. reflexivity.
    + replace (Z.to_nat kbelowH) with (Datatypes.S (Z.to_nat (kbelowH - 1))) by lia.
      cbn [trapezoid_rule add sub mul div lit exact].
      cbn [Nat.add] in Hdz, HB.
      replace (Z.of_nat (Z.to_nat (kbelowH - 1)) + 1)%Z with kbelowH in * by lia.
      rewrite HB, Hdz.
      assert (Hlevel : level_temperature b H zlevels T1 T2 kbelowH
                = 0.5 * (T1 kbelowH + T2 kbelowH)
                  + beta_CC_grad b * (H - zlevels kbelowH)).
      { unfold level_temperature.
        destruct (Z.eqb_spec kbelowH 0) as [E | _]; [lia | reflexivity]. }
      rewrite Hlevel. field.
  - replace (Z.to_nat kbelowH) with O by lia. reflexivity.
Qed.

(** X5 (the hardness integral).  [effectiveViscosityColumn] is half the
    regularised power of the strain rate times the trapezoid rule for the
    hardness over the levels 0 .. kbelowH: the sum of
    (z_{m+1} - z_m) (h_m + h_{m+1}) / 2 for m < kbelowH, where h_m is
    [hardnessParameter] at the mean of the two temperatures plus
    beta_CC_grad times the depth H - z_m (just H at the level 0).  The
    integral stops at the level kbelowH, not at the thickness H, and for
    kbelowH <= 0 the result is zero. *)
Theorem effectiveViscosityColumn_is_trapezoid_rule
    (coeff : Q) (cfg : option (Thermo.NCConfigVariable Q))
    (kbelowH : Z) (u_x u_y v_x v_y : Q) :
  let ice := {| base := b; config := cfg; water_frac_coeff := coeff |} in
  effectiveViscosityColumn ice H kbelowH zlevels u_x u_y v_x v_y T1 T2
  == 0.5 * trapezoid_rule zlevels h (Z.to_nat kbelowH)
     * pow b (schoofReg b + secondInvariant b u_x u_y v_x v_y)
             ((1 - n b) / (2 * n b)) /\
  ((kbelowH <= 0)%Z ->
   effectiveViscosityColumn ice H kbelowH zlevels u_x u_y v_x v_y T1 T2 == 0).
Proof.
  intros ice. unfold effectiveViscosityColumn. cbn [base ice].
  cbn [add sub mul div lit exact].
  split.
  - rewrite (integrated_hardness_trapezoid kbelowH). reflexivity.
  - intros Hk. rewrite (integrated_hardness_trapezoid kbelowH).
    replace (Z.to_nat kbelowH) with O by lia.
    cbn [trapezoid_rule lit exact]. ring.
Qed.

End HardnessIntegral.

Section FlowLaw.
Import Thermo Rheology.
Local Open Scope Q_scope.

(** X6 (the flow of temperate ice).  A flow law fresh from its constructor
    has no configuration and ends the run on every call of [flow].  With a
    configuration, [flow] ends the run exactly when the enthalpy is at or
    above H_l(p); for temperate ice, H_s(p) <= enth < H_l(p), it evaluates
    the softness at the melting temperature, so two temperate enthalpies
    give the same flow whatever their water content: the coefficient
    [water_frac_coeff] is not read.  The latent heat is positive. *)
Theorem flow_of_temperate_ice (b : ThermoGlenIce Q) (cfg : NCConfigVariable Q)
    (coeff stress enth enth' pressure gs : Q) :
  0 < water_latent_heat_fusion cfg ->
  let ice := {| base := b; config := Some cfg; water_frac_coeff := coeff |} in
  let t := get_H_s cfg pressure in
  flow (new_PolyThermalGlenPBLDIce b) stress enth pressure gs = ConfigPtrIsNull /\
  (flow ice stress enth pressure gs = ConverterEnds LiquidWaterError
     <-> H_l t <= enth) /\
  (H_s t <= enth < H_l t ->
     flow ice stress enth pressure gs
     = Flows (softnessParameter b
                (T_m t + (beta_CC_grad b / (rho b * earth_grav b)) * pressure)
              * pow b stress (n b - 1))) /\
  (H_s t <= enth < H_l t -> H_s t <= enth' < H_l t ->
     flow ice stress enth pressure gs = flow ice stress enth' pressure gs).
Proof.
  intros HL ice t.
  pose proof (H_s_below_H_l cfg pressure HL) as Hsl. fold t in Hsl.
  split; [reflexivity|].
  unfold flow, ice. cbn [config base]. unfold getAbsTemp. fold t.
  split_conj; by_cases_on_tests; intros;
    repeat match goal with Hc : _ /\ _ |- _ => destruct Hc end;
    try discriminate; try reflexivity; try lra.
Qed.

(** Two temperate enthalpies at the scenario, with 964.5 and 1964.5 J/kg
    of latent heat, flow alike. *)
Lemma flow_of_temperate_ice_witness :
  0 < water_latent_heat_fusion (scenario (S:=Q)) /\
  flow Cases.temperate_flow_law 1e5 806000 0 1e-3
  = flow Cases.temperate_flow_law 1e5 807000 0 1e-3.
Proof.
  assert (HL : 0 < water_latent_heat_fusion (scenario (S:=Q))) by by_evaluation.
  split; [exact HL|].
  destruct (flow_of_temperate_ice Cases.glen scenario 184.0 1e5 806000 807000 0 1e-3 HL)
    as (_ & _ & _ & Hsame).
  apply Hsame; by_evaluation.
Defined.

End FlowLaw.

(* ================================================================== *)
(** * Choosing the flow law *)
(* ================================================================== *)

Section InitPhysics.
Import IcePhysics.

(** X26 (the flow law that init_physics gets).  The creator that
    [init_physics] registers under "pbld" makes a [ThermoGlenIce].  So when
    the factory makes the ice of a type with the creator registered for it,
    the cast to [PolyThermalGlenPBLDIce] fails and [init_physics] never
    hands the configuration to a flow law: it returns an error code of the
    base class, or ends the run; when the base class and the registration
    succeed it ends the run with "not using PolyThermalGlenPBLDIce". *)
Theorem init_physics_never_hands_over (ext : External) :
  setType_create ext ICE_PBLD = create_pbld ->
  init_physics ext <> ConfigHandedOver /\
  (IceModel_init_physics ext = 0 ->
   registerType ext ICE_PBLD create_pbld = 0 ->
   init_physics ext = NotUsingPolyThermalGlenPBLDIce).
Proof.
  intros Hfactory. unfold init_physics. rewrite Hfactory.
  split.
  - destruct (IceModel_init_physics ext =? 0); [|discriminate].
    destruct (registerType ext ICE_PBLD create_pbld =? 0); discriminate.
  - intros -> ->. reflexivity.
Qed.

End InitPhysics.

Section InitPhysicsWithAnHonestFactory.
Import IcePhysics.

(** With an honest factory and no failure the run ends. *)
Lemma init_physics_never_hands_over_witness :
  setType_create Cases.honest_factory ICE_PBLD = create_pbld /\
  init_physics Cases.honest_factory = NotUsingPolyThermalGlenPBLDIce.
Proof.
  assert (Hfactory : setType_create Cases.honest_factory ICE_PBLD = create_pbld)
    by reflexivity.
  split; [exact Hfactory|].
  exact (proj2 (init_physics_never_hands_over Cases.honest_factory Hfactory)
           eq_refl eq_refl).
Defined.

End InitPhysicsWithAnHonestFactory.

(* ================================================================== *)
(** * Writing the enthalpy *)
(* ================================================================== *)

Section WriteExtraFields.
Import Thermo EnthalpyModel EnthalpyOutput.
Local Open Scope Q_scope.

(** X7 (what is written as enthalpy).  With the enthalpy mode off,
    [write_extra_fields] first overwrites the stored enthalpy by that of
    cold ice at the current temperature (the value of the cold-ice
    initialisation on every owned cell, after the message and followed by
    the ghost communication) and hands the overwritten field to the
    writer; the model it returns keeps that field.  With the mode on it
    hands over the stored enthalpy and changes nothing.  The temperatures in
    the ice are at most T_0 + 0.000001, and the ghost communication leaves
    the owned cells as they are. *)
Theorem write_extra_fields_writes (ext : External Q)
    (Enth3_write : string -> IceModelVec3 Q -> Run unit)
    (filename : string) (m : IceEnthalpyModel Q) :
  (forall v i j k, owned m i j k ->
     ghostComm ext (grid m) v i j k = v i j k) ->
  (forall i j k, owned m i j k ->
     0 < vH m i j - zlevels (grid m) k ->
     T3 m i j k <= water_melting_temperature (config m) + 0.000001) ->
  (doColdIceTemperatureStep m = true ->
     exists m',
       write_extra_fields ext Enth3_write filename m
         = (Enth3_write filename (Enth3 m') ≫= fun _ => Return m') /\
       (forall i j k, owned m i j k ->
          Return (Enth3 m' i j k) = cold_ice_cell m i j k) /\
       events m'
         = events m
           ++ [verbPrintf DEBUGVERB
                 "  using temperature to set enthalpy for writing (as cold ice) ...";
               beginGhostComm "enthalpy"; endGhostComm "enthalpy"]) /\
  (doColdIceTemperatureStep m = false ->
     write_extra_fields ext Enth3_write filename m
       = (Enth3_write filename (Enth3 m) ≫= fun _ => Return m)).
Proof.
  intros Hghost Hcold. unfold write_extra_fields. split; intros ->.
  - match goal with
    | |- context [setEnth3FromT3_ColdIce ext ?x] => set (m2 := x)
    end.
    destruct (setEnth3FromT3_ColdIce_returns ext m2 Hghost Hcold)
      as [m' [Hrun [Hcells Hev]]].
    exists m'. rewrite Hrun, then_Return.
    split; [reflexivity|]. split; [exact Hcells|].
    rewrite Hev. subst m2. cbn [events log]. rewrite <- app_assoc. reflexivity.
  - rewrite then_Return. reflexivity.
Qed.

Local Abbreviation cold := (Example.cold_model true).
Local Abbreviation alone := Example.single_process.

(** Writing the example model with the enthalpy mode off. *)
Lemma write_extra_fields_writes_witness :
  ((forall v i j k, owned cold i j k ->
      ghostComm alone (grid cold) v i j k = v i j k) /\
   (forall i j k, owned cold i j k ->
      0 < vH cold i j - zlevels (grid cold) k ->
      T3 cold i j k <= water_melting_temperature (config cold) + 0.000001)) /\
  exists m',
    write_extra_fields alone (fun _ _ => Return tt) "out.nc" cold = Return m' /\
    (forall i j k, owned cold i j k ->
       Return (Enth3 m' i j k) = cold_ice_cell cold i j k).
Proof.
  assert (Hghost : forall v i j k, owned cold i j k ->
            ghostComm alone (grid cold) v i j k = v i j k)
    by reflexivity.
  assert (Hcold : forall i j k, owned cold i j k ->
            0 < vH cold i j - zlevels (grid cold) k ->
            T3 cold i j k <= water_melting_temperature (config cold) + 0.000001)
    by (intros; by_evaluation).
  split; [split; assumption|].
  destruct (write_extra_fields_writes alone (fun _ _ => Return tt) "out.nc" cold
              Hghost Hcold) as [Hoff _].
  destruct (Hoff eq_refl) as (m' & Hrun & Hcells & _).
  exists m'. split; [|exact Hcells].
  rewrite Hrun. reflexivity.
Defined.

End WriteExtraFields.

(* ================================================================== *)
(** * When the cold-ice enthalpy cannot be set *)
(* ================================================================== *)

Section LoopsThatEnd.
Context {A : Type}.

(** A counted loop that ends the run has ended it in one of its turns. *)
Lemma for_loop_ended (body : Z -> A -> Run A) :
  forall (n : nat) (lo : Z) (a : A) (why : Stop),
    for_loop n lo body a = Ended why ->
    exists (t : nat) (a1 : A),
      (t < n)%nat /\ body (lo + Z.of_nat t) a1 = Ended why.
Proof.
  induction n as [|n IH]; intros lo a why Hrun; [discriminate|].
  cbn [for_loop] in Hrun.
  destruct (body lo a) as [a1 | why1] eqn:Hbody.
  - rewrite then_Return in Hrun.
    destruct (IH (lo + 1) a1 why Hrun) as (t & a2 & Ht & Hend).
    exists (Datatypes.S t), a2. split; [lia|].
    rewrite <- Hend. f_equal. lia.
  - rewrite then_Ended in Hrun. injection Hrun as <-.
    exists O, a. split; [lia|]. rewrite Z.add_0_r. exact Hbody.
Qed.

End LoopsThatEnd.

Section ColdIceOutcome.
Import Thermo EnthalpyModel.
Local Open Scope Q_scope.

Variable ext : External Q.

(** X25 (warm ice stops the cold-ice enthalpy).  [setEnth3FromT3_ColdIce]
    returns exactly when no owned cell below the ice surface is warmer than
    T_0 + 0.000001.  Otherwise it ends the run inside [getEnth], always with
    the message of the temperature test and never with the one of the water
    fraction, at a cell of this kind; the enthalpy field of the model is
    then not replaced and no ghost communication has begun. *)
Theorem setEnth3FromT3_ColdIce_outcome (m : IceEnthalpyModel Q) :
  ((exists m', setEnth3FromT3_ColdIce ext m = Return m') <->
   (forall i j k, owned m i j k ->
      0 < vH m i j - zlevels (grid m) k ->
      T3 m i j k <= water_melting_temperature (config m) + 0.000001)) /\
  (forall why, setEnth3FromT3_ColdIce ext m = Ended why ->
     why = SupercooledInputError /\
     exists i j k, owned m i j k /\
       0 < vH m i j - zlevels (grid m) k /\
       water_melting_temperature (config m) + 0.000001 < T3 m i j k).
Proof.
  split; [split|].
  - intros [m' Hrun]. exact (setEnth3FromT3_ColdIce_needs_cold ext m m' Hrun).
  - intros Hcold.
    destruct (cold_ice_loops m (Enth3 m)) as [E' [Hrun _]].
    { intros i j k Hown.
      destruct (Qlt_le_dec 0 (vH m i j - zlevels (grid m) k)) as [Hd | Hd].
      - destruct (cold_ice_cell_cases m i j k) as [Hin _].
        destruct (Hin Hd) as [-> _].
        apply getEnth_cold_returns. exact (Hcold i j k Hown Hd).
      - destruct (cold_ice_cell_cases m i j k) as [_ Hout].
        exists 0. exact (Hout Hd). }
    eexists. unfold setEnth3FromT3_ColdIce. rewrite Hrun, then_Return. reflexivity.
  - intros why Hrun. unfold setEnth3FromT3_ColdIce in Hrun.
    match type of Hrun with
    | (?loops ≫= _) = _ => destruct loops as [E' | why'] eqn:Hloops
    end; [rewrite then_Return in Hrun; discriminate|].
    rewrite then_Ended in Hrun. injection Hrun as ->.
    apply for_loop_ended in Hloops. destruct Hloops as (ti & E1 & Hti & Hloops).
    apply for_loop_ended in Hloops. destruct Hloops as (tj & E2 & Htj & Hloops).
    apply for_loop_ended in Hloops. destruct Hloops as (tk & E3 & Htk & Hlevel).
    set (i := (xs (grid m) + Z.of_nat ti)%Z) in *.
    set (j := (ys (grid m) + Z.of_nat tj)%Z) in *.
    set (k := (0 + Z.of_nat tk)%Z) in *.
    assert (Hown : owned m i j k) by (unfold owned; lia).
    unfold coldIceLevel in Hlevel. revert Hlevel.
    unfold getEnth. by_cases_on_tests; intros Hlevel; try discriminate;
      try lra.
    rewrite then_Ended in Hlevel. injection Hlevel as <-.
    split; [reflexivity|].
    exists i, j, k. split; [exact Hown|]. split; assumption.
Qed.

End ColdIceOutcome.

(* ================================================================== *)
(** * PISMFEvoR: the vertical search, the interpolation and the particles *)
(* ================================================================== *)

Section LevelBelow.
Import FEvoR.
Context {S : Type} `{Scalar S}.

Variable g : IceGrid S.
Variable z : S.

(** The search moves up by one level per turn while the level above is
    below [z] and is not the top one. *)
Lemma level_below_turns (turns : nat) :
  forall K : Z,
    let K' := level_below g z turns K in
    (K <= K' <= K + Z.of_nat turns)%Z /\
    (K' <= Z.max K (Mz g - 2))%Z /\
    ((K < K')%Z -> ltb (zlevels g K') z = true) /\
    ((K' < K + Z.of_nat turns)%Z ->
       (K' + 1 <? Mz g - 1)%Z && ltb (zlevels g (K' + 1)%Z) z = false).
Proof.
  induction turns as [|turns IH]; intros K; cbv zeta.
  - cbn [level_below]. repeat split; try lia.
  - cbn [level_below].
    destruct ((K + 1 <? Mz g - 1)%Z && ltb (zlevels g (K + 1)%Z) z) eqn:Hgo.
    + specialize (IH (K + 1)%Z). cbv zeta in IH.
      destruct IH as (Hrange & Hmax & Hbelow & Hstop).
      apply andb_prop in Hgo. destruct Hgo as [Htop Hlt].
      apply Z.ltb_lt in Htop.
      repeat split; try lia.
      * intros _.
        destruct (Z.eq_dec (level_below g z turns (K + 1)) (K + 1)) as [-> | Hne];
          [exact Hlt | apply Hbelow; lia].
      * intros Hfuel. apply Hstop. lia.
    + repeat split; try lia. intros _. exact Hgo.
Qed.

(** X8 (the level below a height).  On a grid with at least one level,
    the level K that [interp_field_point] finds for the height z, starting
    from 0 with the Mz turns it is given, satisfies 0 <= K <= max(0, Mz - 2),
    so that on a grid with at least two levels K + 1 is a level: "K + 1
    (used below) should be at most Mz - 1".  The turns are enough: the
    search has stopped.  If K > 0 the level K is below z, and if K + 1 is
    not the top level then the level K + 1 is not below z. *)
Theorem level_below_brackets :
  (1 <= Mz g)%Z ->
  let K := level_below g z (Z.to_nat (Mz g)) 0%Z in
  (0 <= K <= Z.max 0 (Mz g - 2))%Z /\
  ((2 <= Mz g)%Z -> (K + 1 <= Mz g - 1)%Z) /\
  ((0 < K)%Z -> ltb (zlevels g K) z = true) /\
  ((K + 1 < Mz g - 1)%Z -> ltb (zlevels g (K + 1)%Z) z = false) /\
  level_below g z (Datatypes.S (Z.to_nat (Mz g))) 0%Z = K.
Proof.
  intros HMz K.
  destruct (level_below_turns (Z.to_nat (Mz g)) 0%Z) as (Hrange & Hmax & Hbelow & Hstop).
  fold K in Hrange, Hmax, Hbelow, Hstop.
  assert (Hnext : (K + 1 < Mz g - 1)%Z -> ltb (zlevels g (K + 1)%Z) z = false).
  { intros Htop.
    assert (Hfuel : (K < 0 + Z.of_nat (Z.to_nat (Mz g)))%Z) by lia.
    specialize (Hstop Hfuel).
    apply andb_false_iff in Hstop. destruct Hstop as [Hno | Hno]; [|exact Hno].
    apply Z.ltb_ge in Hno. lia. }
  split; [lia|]. split; [lia|]. split; [exact Hbelow|]. split; [exact Hnext|].
  (* one more turn changes nothing *)
  assert (Hfix : forall turns K0,
            (K0 + 1 <? Mz g - 1)%Z && ltb (zlevels g (K0 + 1)%Z) z = false ->
            level_below g z turns K0 = K0).
  { intros turns K0 Hno. destruct turns as [|turns]; [reflexivity|].
    cbn [level_below]. rewrite Hno. reflexivity. }
  assert (Hsplit : forall t1 t2 K0,
            level_below g z (t1 + t2) K0
            = level_below g z t2 (level_below g z t1 K0)).
  { induction t1 as [|t1 IH1]; intros t2 K0; [reflexivity|].
    cbn [Nat.add level_below].
    destruct ((K0 + 1 <? Mz g - 1)%Z && ltb (zlevels g (K0 + 1)%Z) z) eqn:Hgo.
    - apply IH1.
    - symmetry. apply Hfix. exact Hgo. }
  replace (Datatypes.S (Z.to_nat (Mz g))) with (Z.to_nat (Mz g) + 1)%nat by lia.
  rewrite Hsplit. fold K. apply Hfix.
  destruct (Z.ltb_spec (K + 1) (Mz g - 1)) as [Htop | Htop]; [|reflexivity].
  cbn [andb]. exact (Hnext Htop).
Qed.

End LevelBelow.

Section LevelBelowOnTheStillGrid.
Import FEvoR Example.

(** On the grid with the levels 0, 100 and 200 m, the level below 150 m is
    the level 1, the highest that has a level above it. *)
Lemma level_below_brackets_witness :
  (1 <= Mz still_grid)%Z /\
  level_below still_grid (lit 150%Q) (Z.to_nat (Mz still_grid)) 0%Z = 1%Z /\
  ltb (zlevels still_grid 1%Z) (lit 150%Q) = true.
Proof.
  assert (HMz : (1 <= Mz still_grid)%Z) by (vm_compute; discriminate).
  split; [exact HMz|].
  destruct (level_below_brackets still_grid (lit 150%Q) HMz)
    as (_ & _ & Hbelow & _).
  assert (HK : level_below still_grid (lit 150%Q) (Z.to_nat (Mz still_grid)) 0%Z
               = 1%Z) by (vm_compute; reflexivity).
  split; [exact HK|].
  rewrite HK in Hbelow. apply Hbelow. lia.
Defined.

End LevelBelowOnTheStillGrid.

Section InterpolationOfLinearFields.
Import FEvoR.
Local Open Scope Q_scope.

(** X9 (exactness of the interpolation).  On a grid with at least two
    levels, strictly increasing, and for weights that add up to one,
    [interp_field_point] gives a + b z exactly for the field that is
    a + b zlevels[k] at every node; in particular it gives back a constant
    field.  This holds for every height z, also above the top level and
    below the bottom one, where the code extrapolates. *)
Theorem interp_field_point_linear (g : IceGrid Q) (x y z a b : Q)
    (I' J' : Z) (weights : list Q) :
  compute_point_neighbors g x y = Return (I', J') ->
  compute_interp_weights g x y = Return weights ->
  at_ weights 0 + at_ weights 1 + at_ weights 2 + at_ weights 3 == 1 ->
  (2 <= Mz g)%Z ->
  (forall k, (0 <= k)%Z -> (k + 1 <= Mz g - 1)%Z ->
     zlevels g k < zlevels g (k + 1)) ->
  returns (interp_field_point g x y z (fun _ _ k => a + b * zlevels g k))
          (fun v => v == a + b * z).
Proof.
  intros Hn Hw Hsum HMz Hinc.
  unfold interp_field_point. rewrite Hn, then_Return, Hw, then_Return.
  cbn [returns add sub mul div lit exact].
  destruct (level_below_turns g z (Z.to_nat (Mz g)) 0%Z) as (HK0 & HKmax & _).
  set (K := level_below g z (Z.to_nat (Mz g)) 0%Z) in *.
  assert (HK : zlevels g K < zlevels g (K + 1)) by (apply Hinc; lia).
  set (z0 := zlevels g K) in *. set (z1 := zlevels g (K + 1)%Z) in *.
  assert (Hcol : a + b * z0 + (z - z0) / (z1 - z0) * (a + b * z1 - (a + b * z0))
                 == a + b * z) by (field; lra).
  rewrite Hcol.
  assert (Hall : at_ weights 0 * (a + b * z) + at_ weights 1 * (a + b * z)
                 + at_ weights 2 * (a + b * z) + at_ weights 3 * (a + b * z)
                 == (at_ weights 0 + at_ weights 1 + at_ weights 2 + at_ weights 3)
                    * (a + b * z)) by ring.
  rewrite Hall, Hsum. ring.
Qed.

(** The temperature-like field 260 + z/100 on the layered grid, read at
    the height 120 m. *)
Lemma interp_field_point_linear_witness :
  (compute_point_neighbors Cases.layered_grid 10 20 = Return (0, 0)%Z /\
   compute_interp_weights Cases.layered_grid 10 20
     = Return [1 # 4; 1 # 4; 1 # 4; 1 # 4] /\
   at_ [1 # 4; 1 # 4; 1 # 4; 1 # 4] 0 + at_ [1 # 4; 1 # 4; 1 # 4; 1 # 4] 1
   + at_ [1 # 4; 1 # 4; 1 # 4; 1 # 4] 2 + at_ [1 # 4; 1 # 4; 1 # 4; 1 # 4] 3 == 1 /\
   (2 <= Mz Cases.layered_grid)%Z /\
   (forall k, (0 <= k)%Z -> (k + 1 <= Mz Cases.layered_grid - 1)%Z ->
      zlevels Cases.layered_grid k < zlevels Cases.layered_grid (k + 1))) /\
  returns (interp_field_point Cases.layered_grid 10 20 120
             (fun _ _ k => 260 + (1 # 100) * zlevels Cases.layered_grid k))
          (fun v => v == 260 + (1 # 100) * 120).
Proof.
  assert (Hn : compute_point_neighbors Cases.layered_grid 10 20 = Return (0, 0)%Z)
    by reflexivity.
  assert (Hw : compute_interp_weights Cases.layered_grid 10 20
               = Return [1 # 4; 1 # 4; 1 # 4; 1 # 4]) by reflexivity.
  assert (Hsum : at_ [1 # 4; 1 # 4; 1 # 4; 1 # 4] 0 + at_ [1 # 4; 1 # 4; 1 # 4; 1 # 4] 1
                 + at_ [1 # 4; 1 # 4; 1 # 4; 1 # 4] 2
                 + at_ [1 # 4; 1 # 4; 1 # 4; 1 # 4] 3 == 1) by reflexivity.
  assert (HMz : (2 <= Mz Cases.layered_grid)%Z) by (cbn; lia).
  assert (Hinc : forall k, (0 <= k)%Z -> (k + 1 <= Mz Cases.layered_grid - 1)%Z ->
                   zlevels Cases.layered_grid k < zlevels Cases.layered_grid (k + 1)).
  { intros k _ _. cbn [zlevels Cases.layered_grid]. rewrite <- Zlt_Qlt. lia. }
  split; [repeat split; assumption|].
  exact (interp_field_point_linear Cases.layered_grid 10 20 120 260 (1 # 100)
           0 0 _ Hn Hw Hsum HMz Hinc).
Defined.

End InterpolationOfLinearFields.

Section FakeCloud.
Import FEvoR.
Local Open Scope Q_scope.

Variable g : IceGrid Q.
Hypothesis Lx_nonneg : 0 <= Lx g.
Hypothesis Ly_nonneg : 0 <= Ly g.
Hypothesis Lz_nonneg : 0 <= Lz g.

(** A position that passes the three assertions of [update]. *)
Local Abbreviation passes :=
  (fun x y z : Q =>
     assert_within_domain (leb (lit 0) z && leb z (Lz g)) = Return tt /\
     assert_within_domain (leb (opp (Lx g)) x && leb x (Lx g)) = Return tt /\
     assert_within_domain (leb (opp (Ly g)) y && leb y (Ly g)) = Return tt).

(** Every turn of the loop that starts at the count [k] makes a particle
    that is in the domain, and the loop makes as many particles as it has
    turns while the count stays below [n_pd]. *)
Lemma fake_cloud_turns (turns : nat) :
  forall (k : nat) (pn : Q),
    pn == inject_Z (Z.of_nat k) -> (k + turns <= n_particles)%nat ->
    let '(p_x, p_y, p_z, p_e) := fake_cloud g turns pn in
    (length p_x = turns /\ length p_y = turns /\
     length p_z = turns /\ length p_e = turns) /\
    forall i, (i < turns)%nat -> passes (at_ p_x i) (at_ p_y i) (at_ p_z i).
Proof.
  induction turns as [|turns IH]; intros k pn Hpn Hk.
  - cbn [fake_cloud]. split; [repeat split|]. intros i Hi. lia.
  - cbn [fake_cloud].
    assert (Hk' : (Z.of_nat k < 10)%Z) by (unfold n_particles in Hk; lia).
    assert (Hlt : pn < 10).
    { rewrite Hpn. change 10 with (inject_Z 10). rewrite <- Zlt_Qlt. exact Hk'. }
    assert (H0 : 0 <= pn).
    { rewrite Hpn. change 0 with (inject_Z 0). rewrite <- Zle_Qle. lia. }
    assert (Htest : ltb pn n_pd = true) by (apply Qltb_true; exact Hlt).
    rewrite Htest.
    specialize (IH (Datatypes.S k) (add pn (lit 1))).
    destruct (fake_cloud g turns (add pn (lit 1))) as [[[p_x p_y] p_z] p_e].
    destruct IH as [(Hx & Hy & Hz & He) Hin].
    { cbn [add lit exact]. rewrite Hpn, Nat2Z.inj_succ. unfold Z.succ.
      rewrite inject_Z_plus. reflexivity. }
    { lia. }
    split.
    { cbn [List.length]. repeat split; congruence. }
    intros [|i] Hi; [|apply Hin; lia].
    unfold at_. cbn [nth]. unfold assert_within_domain.
    cbn [ltb leb add sub mul div opp lit exact n_pd].
    assert (Hxp : 0 <= Lx g * pn) by (apply Qmult_le_0_compat; assumption).
    assert (Hxq : 0 <= Lx g * (10 - pn)) by (apply Qmult_le_0_compat; lra).
    assert (Hlow : - Lx g + 2 * Lx g * (2 * pn / 10) == - Lx g + (2 # 5) * (Lx g * pn))
      by field.
    assert (Hhigh : - Lx g + 2 * Lx g * (2 * pn / 10 - 1)
                    == Lx g - (2 # 5) * (Lx g * (10 - pn))) by field.
    assert (Hhalf : 10 / 2 == 5) by reflexivity.
    assert (Htrue : forall a b, a <= b -> Qle_bool a b = true)
      by (intros a b Hab; apply Qleb_true; exact Hab).
    repeat split.
    + destruct (Qltb pn (10 / 2)); cbn [andb].
      * rewrite (Htrue 0 0), (Htrue 0 (Lz g)); [reflexivity | exact Lz_nonneg | lra].
      * rewrite (Htrue 0 (Lz g)), (Htrue (Lz g) (Lz g));
          [reflexivity | lra | exact Lz_nonneg].
    + destruct (Qltb pn (10 / 2)) eqn:E;
        [apply Qltb_true in E | apply Qltb_false in E]; rewrite Hhalf in E.
      * assert (0 <= Lx g * (5 - pn)) by (apply Qmult_le_0_compat; lra).
        rewrite !Htrue; [reflexivity | |]; rewrite Hlow; lra.
      * assert (0 <= Lx g * (pn - 5)) by (apply Qmult_le_0_compat; lra).
        rewrite !Htrue; [reflexivity | |]; rewrite Hhigh; lra.
    + rewrite (Htrue (- Ly g) 0), (Htrue 0 (Ly g));
        [reflexivity | exact Ly_nonneg | lra].
Qed.

(** X10 (the particles are in the domain).  The positions that [update]
    makes up for its ten particles lie on the bed or on the surface, within
    the horizontal extent of the domain: the cloud has ten entries in each
    of [p_x], [p_y], [p_z] and [p_e], and for each particle the three
    assertions "check if the point (x,y,z) is within the domain" hold.  The
    extents Lx, Ly and Lz of the grid are not negative. *)
Theorem fake_cloud_within_domain :
  let '(p_x, p_y, p_z, p_e) := fake_cloud g n_particles (lit 0) in
  (length p_x = n_particles /\ length p_y = n_particles /\
   length p_z = n_particles /\ length p_e = n_particles) /\
  forall i, (i < n_particles)%nat ->
    assert_within_domain (leb (lit 0) (at_ p_z i) && leb (at_ p_z i) (Lz g))
      = Return tt /\
    assert_within_domain (leb (opp (Lx g)) (at_ p_x i) && leb (at_ p_x i) (Lx g))
      = Return tt /\
    assert_within_domain (leb (opp (Ly g)) (at_ p_y i) && leb (at_ p_y i) (Ly g))
      = Return tt.
Proof.
  apply (fake_cloud_turns n_particles 0); [reflexivity | lia].
Qed.

End FakeCloud.

Section FakeCloudOnTheLayeredGrid.
Import FEvoR.
Local Open Scope Q_scope.

(** The cloud on the layered grid, whose extents are 1000, 1000 and
    200 m. *)
Lemma fake_cloud_within_domain_witness :
  (0 <= Lx Cases.layered_grid /\ 0 <= Ly Cases.layered_grid /\
   0 <= Lz Cases.layered_grid) /\
  let '(p_x, p_y, p_z, p_e) := fake_cloud Cases.layered_grid n_particles (lit 0) in
  length p_x = n_particles /\ length p_e = n_particles.
Proof.
  assert (Hx : 0 <= Lx Cases.layered_grid) by by_evaluation.
  assert (Hy : 0 <= Ly Cases.layered_grid) by by_evaluation.
  assert (Hz : 0 <= Lz Cases.layered_grid) by by_evaluation.
  split; [repeat split; assumption|].
  pose proof (fake_cloud_within_domain Cases.layered_grid Hx Hy Hz) as Hcloud.
  destruct (fake_cloud Cases.layered_grid n_particles (lit 0))
    as [[[p_x p_y] p_z] p_e].
  destruct Hcloud as [(Hlx & _ & _ & Hle) _]. split; assumption.
Defined.

End FakeCloudOnTheLayeredGrid.

Section BoundsOfEveryDouble.
Import FEvoR.

Lemma SFeqb_refl_not_nan (x : spec_float) :
  SFeqb x x = false -> x = S754_nan.
Proof.
  destruct x as [s | s | | s m e]; try reflexivity; unfold SFeqb; cbn.
  - destruct s; discriminate.
  - destruct s; discriminate.
  - rewrite Z.compare_refl.
    assert (Hm : Pos.compare_cont Eq m m = Eq) by apply Pos.compare_cont_refl.
    destruct s; cbn; rewrite ?Hm; cbn; discriminate.
Qed.

Lemma nan_spec (r : float) :
  PrimFloat.is_nan r = true -> Prim2SF r = S754_nan.
Proof.
  unfold PrimFloat.is_nan. intros Hn. apply negb_true_iff in Hn.
  rewrite FloatAxioms.eqb_spec in Hn. apply SFeqb_refl_not_nan. exact Hn.
Qed.

(** X11 (the bounds on every double).  "some bounds for the enhancement
    factor": for a quotient that is a number, infinite ones included, the
    value left in [p_e] is at least 1.0 and at most 10.0; a quotient that is
    NaN fails both tests and is left in [p_e] as it is. *)
Theorem bounds_of_every_double (r : float) :
  (PrimFloat.is_nan r = false ->
     PrimFloat.leb (lit 1%Q) (bounds r) = true /\
     PrimFloat.leb (bounds r) (lit 10%Q) = true) /\
  (PrimFloat.is_nan r = true -> bounds r = r).
Proof.
  split; [exact (bounds_binary64 r)|].
  intros Hn. apply nan_spec in Hn.
  unfold bounds. cbn [ltb lit binary64].
  rewrite !FloatAxioms.ltb_spec. unfold SFltb. rewrite Hn. cbn.
  destruct (Prim2SF (float_of_Q 10)); reflexivity.
Qed.

End BoundsOfEveryDouble.

Section UpdateStops.
Import FEvoR.
Context {S : Type} `{Scalar S}.

(** The first write of the chain, [stress[9] = P], finds no entry. *)
Lemma stress_of_past_the_end (P txz tyz : S) :
  stress_of P txz tyz = Ended PastTheEnd.
Proof. reflexivity. Qed.

Ltac next_call :=
  match goal with
  | |- context [?r ≫= _] =>
      lazymatch r with
      | stress_of _ _ _ => rewrite stress_of_past_the_end, then_Ended
      | _ => destruct r as [? | ?];
             [rewrite then_Return | rewrite then_Ended; eexists; reflexivity]
      end
  end.

(** No turn of the particle loop gets to its end. *)
Lemma particle_stops (ext : External S) (m : PISMFEvoR S)
    (pressure3 tauxz3 tauyz3 : IceModelVec3 S)
    (p_x p_y p_z : list S) (i : nat) (p_e : list S) :
  exists why,
    particle ext m pressure3 tauxz3 tauyz3 p_x p_y p_z i p_e = Ended why.
Proof.
  unfold particle. do 7 next_call. eexists. reflexivity.
Qed.

(** X27 (update stops at the stress).  On a grid with at least two
    levels, a turn of the particle loop of [update] that passes its three
    assertions, and whose position the grid can place, gets as far as the
    chained assignment "stress[1] = stress[5] = stress[9] = P" and no
    further: [stress] has the nine entries 0 to 8, and the write comes
    before the enthalpy is interpolated and before [getAbsTemp] and
    [stepInTime] are called.  So no turn gets to its end, where [p_e[i]] is
    written, whatever the fields and the particles are, and [update], whose
    loop makes ten turns, returns on no input. *)
Theorem update_stops_at_the_stress (ext : External S) (m : PISMFEvoR S)
    (t dt : S) :
  (forall (pressure3 tauxz3 tauyz3 : IceModelVec3 S)
          (p_x p_y p_z : list S) (i : nat) (p_e : list S)
          (I' J' : Z) (weights : list S),
     let g := grid m in
     (2 <= Mz g)%Z ->
     assert_within_domain
       (leb (lit 0%Q) (at_ p_z i) && leb (at_ p_z i) (Lz g)) = Return tt ->
     assert_within_domain
       (leb (opp (Lx g)) (at_ p_x i) && leb (at_ p_x i) (Lx g)) = Return tt ->
     assert_within_domain
       (leb (opp (Ly g)) (at_ p_y i) && leb (at_ p_y i) (Ly g)) = Return tt ->
     compute_point_neighbors g (at_ p_x i) (at_ p_y i) = Return (I', J') ->
     compute_interp_weights g (at_ p_x i) (at_ p_y i) = Return weights ->
     particle ext m pressure3 tauxz3 tauyz3 p_x p_y p_z i p_e
       = Ended PastTheEnd) /\
  (forall (pressure3 tauxz3 tauyz3 : IceModelVec3 S)
          (p_x p_y p_z : list S) (i : nat) (p_e : list S),
     exists why,
       particle ext m pressure3 tauxz3 tauyz3 p_x p_y p_z i p_e = Ended why) /\
  (exists why, update ext m t dt = Ended why).
Proof.
  split; [|split].
  - intros pressure3 tauxz3 tauyz3 p_x p_y p_z i p_e I' J' weights g
           _ Hz Hx Hy Hn Hw.
    unfold particle. fold g.
    rewrite Hz, then_Return, Hx, then_Return, Hy, then_Return.
    unfold interp_field_point.
    rewrite Hn, Hw. rewrite !then_Return.
    rewrite stress_of_past_the_end. apply then_Ended.
  - intros. apply particle_stops.
  - unfold update. do 4 next_call.
    unfold particle_cloud.
    destruct (fake_cloud _ n_particles (lit 0%Q)) as [[[p_x p_y] p_z] p_e].
    unfold n_particles. cbn [particles].
    match goal with
    | |- context [particle ?e ?m0 ?a ?b ?c ?x ?y ?z ?i ?q] =>
        destruct (particle_stops e m0 a b c x y z i q) as [why Hwhy];
        rewrite Hwhy
    end.
    rewrite !then_Ended. eexists. reflexivity.
Qed.

End UpdateStops.

Section UpdateOnTheExample.
Import FEvoR Example.

(** The stress-free model in binary64: the four diagnostics are there, the
    first particle passes the assertions and the grid places it, and the
    run gets to the write past the end of [stress]. *)
Lemma update_of_the_still_model :
  update stress_free still_model (lit 0%Q) (lit 1%Q) = Ended PastTheEnd.
Proof. vm_compute. reflexivity. Qed.

End UpdateOnTheExample.

(* ================================================================== *)
(** * CDI: the maps that open_impl restores, and create_impl *)
(* ================================================================== *)

Section RestoredMaps.

(** Entering [key n := val n] for n = 0 .. N-1 in turn: a name is found
    under the value of the last n that has it as key, and keeps what it had
    when no n has it. *)
Lemma entered_in_turn (key : nat -> string) (val : nat -> Z) (N : nat)
    (m0 : gmap string Z) (name : string) :
  let m := fold_left (fun (m : gmap string Z) (n : nat) => <[ key n := val n ]> m)
                     (seq 0 N) m0 in
  (exists n, (n < N)%nat /\ key n = name /\ m !! name = Some (val n) /\
             forall n', (n < n' < N)%nat -> key n' <> name) \/
  ((forall n, (n < N)%nat -> key n <> name) /\ m !! name = m0 !! name).
Proof.
  induction N as [|N IH]; cbv zeta.
  - right. split; [intros n Hn; lia | reflexivity].
  - rewrite seq_S, fold_left_app. cbn [fold_left Nat.add].
    destruct (decide (key N = name)) as [E | E].
    + left. exists N. split; [lia|]. split; [exact E|]. split.
      * rewrite <- E. apply lookup_insert_eq.
      * intros n' Hn'. lia.
    + rewrite (lookup_insert_ne _ _ _ _ E).
      destruct IH as [(n & Hn & Hkey & Hval & Hlast) | (Hnone & Hval)].
      * left. exists n. split; [lia|]. split; [exact Hkey|]. split; [exact Hval|].
        intros n' Hn'. destruct (decide (n' = N)) as [-> | Hne]; [exact E|].
        apply Hlast. lia.
      * right. split; [|exact Hval].
        intros n Hn. destruct (decide (n = N)) as [-> | Hne]; [exact E|].
        apply Hnone. lia.
Qed.

End RestoredMaps.

Section OpenForWriting.
Import CDI.

Variable lib : Library.

(** X12 (the variables that open_impl restores).  A call of [open_impl]
    with a mode other than [PISM_READONLY] returns, takes the variable list
    and the time axis of the file, and enters every variable of the list in
    [m_varsID] under its name: looking up the name of the variable varID
    gives a variable of the list with that name, the last one if several
    share it, hence varID itself when the names differ; a name that no
    variable of the list has keeps the entry it had. *)
Theorem open_impl_maps_variables (self : State) (fname : string)
    (mode : IO_Mode) (FileID : Z) (dimsa : gmap string AxisType) :
  mode <> PISM_READONLY lib ->
  let self' := fst (open_impl lib self fname mode FileID dimsa) in
  let vlist := streamInqVlist lib FileID in
  let Nvars := vlistNvars lib vlist in
  snd (open_impl lib self fname mode FileID dimsa) = Return tt /\
  (m_vlistID self' = vlist /\ m_tID self' = vlistInqTaxis lib vlist /\
   m_gridID self' = vlistGrid lib vlist 0) /\
  (forall varID, 0 <= varID < Nvars ->
     exists id,
       m_varsID self' !! vlistInqVarName lib vlist varID = Some id /\
       varID <= id < Nvars /\
       vlistInqVarName lib vlist id = vlistInqVarName lib vlist varID) /\
  (forall name,
     (forall varID, 0 <= varID < Nvars -> vlistInqVarName lib vlist varID <> name) ->
     m_varsID self' !! name = m_varsID self !! name).
Proof.
  intros Hmode self' vlist Nvars. subst self'.
  unfold open_impl. apply Z.eqb_neq in Hmode. rewrite Hmode.
  cbn [fst snd map_zaxisID map_varsID m_vlistID m_tID m_gridID m_varsID].
  fold vlist. fold Nvars.
  split; [reflexivity|]. split; [repeat split|].
  split.
  - intros varID Hvar.
    destruct (entered_in_turn (fun n => vlistInqVarName lib vlist (Z.of_nat n))
                Z.of_nat (Z.to_nat Nvars) (m_varsID self)
                (vlistInqVarName lib vlist varID))
      as [(n & Hn & Hkey & Hval & Hlast) | (Hnone & _)].
    + exists (Z.of_nat n). split; [exact Hval|]. split; [|exact Hkey].
      split; [|lia].
      destruct (Z.le_gt_cases varID (Z.of_nat n)) as [Hle | Hgt]; [exact Hle|].
      exfalso. apply (Hlast (Z.to_nat varID)); [lia|].
      rewrite Z2Nat.id by lia. reflexivity.
    + exfalso. apply (Hnone (Z.to_nat varID)); [lia|].
      rewrite Z2Nat.id by lia. reflexivity.
  - intros name Hno.
    destruct (entered_in_turn (fun n => vlistInqVarName lib vlist (Z.of_nat n))
                Z.of_nat (Z.to_nat Nvars) (m_varsID self) name)
      as [(n & Hn & Hkey & _) | (_ & Hval)]; [|exact Hval].
    exfalso. apply (Hno (Z.of_nat n)); [lia | exact Hkey].
Qed.

(** X13 (the surface axis that open_impl restores).  After a call of
    [open_impl] that returns, every Z axis of the variable list is entered
    in [m_zID] under its name, "zs" is a key of [m_zID], and [m_zsID] is the
    value under it: the ID of the last axis of the list called "zs" when
    there is one, the ID that [m_zID] held for "zs" before when there is
    none, and otherwise 0, the value with which [m_zID["zs"]] enters a
    missing key. *)
Theorem open_impl_restores_surface_axis (self : State) (fname : string)
    (mode : IO_Mode) (FileID : Z) (dimsa : gmap string AxisType) :
  mode <> PISM_READONLY lib ->
  let self' := fst (open_impl lib self fname mode FileID dimsa) in
  let vlist := streamInqVlist lib FileID in
  let nz := vlistNzaxis lib vlist in
  let named := fun n => zaxisInqName lib (vlistZaxis lib vlist n) in
  m_zID self' !! "zs" = Some (m_zsID self') /\
  (forall n, 0 <= n < nz ->
     exists n', n <= n' < nz /\ named n' = named n /\
       m_zID self' !! named n = Some (vlistZaxis lib vlist n')) /\
  ((forall n, 0 <= n < nz -> named n <> "zs") ->
     m_zsID self' = default 0 (m_zID self !! "zs")).
Proof.
  intros Hmode self' vlist nz named. subst self'.
  unfold open_impl. apply Z.eqb_neq in Hmode. rewrite Hmode.
  cbn [fst snd map_zaxisID map_varsID m_vlistID m_zID m_zsID].
  fold vlist. fold nz.
  set (zs := fold_left _ (seq 0 (Z.to_nat nz)) (m_zID self)).
  assert (Hentered : forall name,
    (exists n, (n < Z.to_nat nz)%nat /\ named (Z.of_nat n) = name /\
               zs !! name = Some (vlistZaxis lib vlist (Z.of_nat n)) /\
               forall n', (n < n' < Z.to_nat nz)%nat -> named (Z.of_nat n') <> name) \/
    ((forall n, (n < Z.to_nat nz)%nat -> named (Z.of_nat n) <> name) /\
     zs !! name = m_zID self !! name)).
  { intros name.
    exact (entered_in_turn (fun n => named (Z.of_nat n))
             (fun n => vlistZaxis lib vlist (Z.of_nat n))
             (Z.to_nat nz) (m_zID self) name). }
  split; [|split].
  - destruct (zs !! "zs") as [v|] eqn:E; cbn [default].
    + exact E.
    + apply lookup_insert_eq.
  - intros n Hn.
    assert (Hkept : forall v, zs !! named n = Some v ->
              match zs !! "zs" with
              | Some _ => zs
              | None => <[ "zs" := 0 ]> zs
              end !! named n = Some v).
    { intros v Hv. destruct (zs !! "zs") eqn:E; [exact Hv|].
      rewrite lookup_insert_ne; [exact Hv|].
      intros Heq. rewrite <- Heq in Hv. congruence. }
    destruct (Hentered (named n)) as [(k & Hk & Hkey & Hval & Hlast) | (Hnone & _)].
    + exists (Z.of_nat k). split; [|split; [exact Hkey | exact (Hkept _ Hval)]].
      split; [|lia].
      destruct (Z.le_gt_cases n (Z.of_nat k)) as [Hle | Hgt]; [exact Hle|].
      exfalso. apply (Hlast (Z.to_nat n)); [lia|].
      rewrite Z2Nat.id by lia. reflexivity.
    + exfalso. apply (Hnone (Z.to_nat n)); [lia|].
      rewrite Z2Nat.id by lia. reflexivity.
  - intros Hno.
    destruct (Hentered "zs") as [(k & Hk & Hkey & _) | (_ & Hval)].
    + exfalso. apply (Hno (Z.of_nat k)); [lia | exact Hkey].
    + rewrite Hval. reflexivity.
Qed.

(** X14 (the file types of create_impl).  [create_impl] accepts the four
    names "CDI_FILETYPE_NC", "CDI_FILETYPE_NC2", "CDI_FILETYPE_NC4" and
    "CDI_FILETYPE_NC4C" and no other: for one of them it opens the stream
    with the CDI file type of that name, sets the four IDs of the variable
    list, the time axis, the surface axis and the grid to -1, and keeps the
    maps and the argument FileID unused; for any other name it throws
    "invalid CDI-PIO file type" with the name and leaves the object as it
    was. *)
Theorem create_impl_file_types (self : State) (filename : string)
    (FileID : Z) (filetype : string) :
  let known := [ ("CDI_FILETYPE_NC", CDI_FILETYPE_NC lib);
                 ("CDI_FILETYPE_NC2", CDI_FILETYPE_NC2 lib);
                 ("CDI_FILETYPE_NC4", CDI_FILETYPE_NC4 lib);
                 ("CDI_FILETYPE_NC4C", CDI_FILETYPE_NC4C lib) ] in
  (forall ty, (filetype, ty) ∈ known ->
     create_impl lib self filename FileID filetype
     = ({| m_file_id := streamOpenWrite lib filename ty;
           m_vlistID := -1; m_tID := -1; m_zsID := -1; m_gridID := -1;
           m_varsID := m_varsID self; m_zID := m_zID self;
           m_dimsAxis := m_dimsAxis self;
           m_diagvars := m_diagvars self; m_beforediag := m_beforediag self |},
        Return tt)) /\
  (filetype ∉ map fst known ->
     create_impl lib self filename FileID filetype
     = (self, Ended (RuntimeError ("invalid CDI-PIO file type " +:+ filetype)))).
Proof.
  intros known. subst known. unfold create_impl, file_type. split.
  - intros ty Hin.
    repeat (apply elem_of_cons in Hin; destruct Hin as [Hin | Hin];
            [injection Hin as -> -> ; vm_compute; reflexivity|]).
    apply elem_of_nil in Hin. destruct Hin.
  - intros Hout. cbn [map fst] in Hout.
    rewrite !lookup_insert_ne, lookup_empty; [reflexivity | | | |];
      intros <-; apply Hout;
      repeat (apply elem_of_cons; first [left; reflexivity | right]).
Qed.

End OpenForWriting.

Section OnTheWrittenFile.
Import CDI.

(** Opening the written file for writing: "temp" is found. *)
Lemma open_impl_maps_variables_witness :
  Cases.PISM_READWRITE <> PISM_READONLY Cases.written_file /\
  exists id,
    m_varsID (fst (open_impl Cases.written_file Cases.no_file "out.nc"
                     Cases.PISM_READWRITE 1 ∅))
      !! vlistInqVarName Cases.written_file 7 1 = Some id /\
    1 <= id < 3.
Proof.
  assert (Hmode : Cases.PISM_READWRITE <> PISM_READONLY Cases.written_file)
    by discriminate.
  split; [exact Hmode|].
  destruct (open_impl_maps_variables Cases.written_file Cases.no_file "out.nc"
              Cases.PISM_READWRITE 1 ∅ Hmode) as (_ & _ & Hvars & _).
  destruct (Hvars 1) as (id & Hid & Hrange & _); [cbn; lia|].
  exists id. split; [exact Hid | exact Hrange].
Defined.

(** Opening the written file for writing: the surface axis is found. *)
Lemma open_impl_restores_surface_axis_witness :
  Cases.PISM_READWRITE <> PISM_READONLY Cases.written_file /\
  m_zID (fst (open_impl Cases.written_file Cases.no_file "out.nc"
                Cases.PISM_READWRITE 1 ∅)) !! "zs"
  = Some (m_zsID (fst (open_impl Cases.written_file Cases.no_file "out.nc"
                         Cases.PISM_READWRITE 1 ∅))).
Proof.
  assert (Hmode : Cases.PISM_READWRITE <> PISM_READONLY Cases.written_file)
    by discriminate.
  split; [exact Hmode|].
  exact (proj1 (open_impl_restores_surface_axis Cases.written_file Cases.no_file
                  "out.nc" Cases.PISM_READWRITE 1 ∅ Hmode)).
Defined.

End OnTheWrittenFile.

(* ================================================================== *)
(** * CDI: defining dimensions and variables *)
(* ================================================================== *)

(** Unfolds the assignments and the calls into the library, for objects
    that are given by their members. *)
Ltac assignments :=
  cbv beta iota zeta delta
    [CDIWriter.ask CDIWriter.tell CDIWriter.assign
     CDIWriter.set_m_gridsID CDIWriter.set_m_gridgID CDIWriter.set_calendar
     CDIWriter.set_m_file_id CDIWriter.set_m_vlistID CDIWriter.set_m_tID
     CDIWriter.set_m_zsID CDIWriter.set_m_gridID CDIWriter.set_m_varsID
     CDIWriter.set_m_zID CDIWriter.set_m_dimsAxis CDIWriter.set_m_diagvars
     CDIWriter.set_m_beforediag
     CDIWriter.members CDIWriter.m_gridsID CDIWriter.m_gridgID
     CDIWriter.calendar CDIWriter.calls
     CDI.m_file_id CDI.m_vlistID CDI.m_tID CDI.m_zsID CDI.m_gridID
     CDI.m_varsID CDI.m_zID CDI.m_dimsAxis CDI.m_diagvars CDI.m_beforediag
     fst snd] in *.

Ltac members_of o :=
  destruct o as [[? ? ? ? ? ? ? ? ? ?] ? ? ? ?].

Section Defining.
Import CDI CDIWriter.
Context {S D : Type}.
Variable c : Constants.
Variable answer : list Call -> Call -> Z.

Local Abbreviation Object := (Object S D).

(** What a method leaves alone: the variables and the dimensions, say, and
    the calls already made. *)
Lemma def_vlist_keeps (o : Object) :
  let o' := def_vlist c answer o in
  m_varsID (members o') = m_varsID (members o) /\
  m_dimsAxis (members o') = m_dimsAxis (members o) /\
  m_zID (members o') = m_zID (members o) /\
  m_zsID (members o') = m_zsID (members o) /\
  m_tID (members o') = m_tID (members o) /\
  (exists more, calls o' = calls o ++ more) /\
  (m_vlistID (members o) <> -1 -> o' = o).
Proof.
  cbv zeta. unfold def_vlist. members_of o. assignments.
  match goal with |- context [?v =? -1] => destruct (Z.eqb_spec v (-1)) as [E | E] end.
  - split_conj; try reflexivity; [|intros Hne; contradiction].
    rewrite <- !app_assoc. eexists. reflexivity.
  - split_conj; try reflexivity. exists []. rewrite app_nil_r. reflexivity.
Qed.

Lemma def_zs_keeps (o : Object) :
  let o' := def_zs c answer o in
  m_varsID (members o') = m_varsID (members o) /\
  m_dimsAxis (members o') = m_dimsAxis (members o) /\
  m_vlistID (members o') = m_vlistID (members o) /\
  m_tID (members o') = m_tID (members o) /\
  m_gridsID o' = m_gridsID o /\ m_gridgID o' = m_gridgID o /\
  (exists more, calls o' = calls o ++ more) /\
  (m_zsID (members o) <> -1 -> o' = o).
Proof.
  cbv zeta. unfold def_zs. members_of o. assignments.
  match goal with |- context [?v =? -1] => destruct (Z.eqb_spec v (-1)) as [E | E] end.
  - split_conj; try reflexivity; [|intros Hne; contradiction].
    rewrite <- !app_assoc. eexists. reflexivity.
  - split_conj; try reflexivity. exists []. rewrite app_nil_r. reflexivity.
Qed.

Lemma index_lookup (m : gmap string Z) (key : string) :
  (index m key).2 !! key = Some (index m key).1 /\
  (forall k, k <> key -> (index m key).2 !! k = m !! k) /\
  (forall v, m !! key = Some v -> index m key = (v, m)) /\
  (m !! key = None -> index m key = (0, <[ key := 0 ]> m)).
Proof.
  unfold index. destruct (m !! key) as [v|] eqn:E; cbn [fst snd].
  - split; [exact E|]. split; [reflexivity|].
    split; [intros v' Hv'; congruence | discriminate].
  - split; [apply lookup_insert_eq|].
    split; [intros k Hk; apply lookup_insert_ne; congruence|].
    split; [discriminate | reflexivity].
Qed.

Lemma associated_zaxis_keeps (dims : list string) :
  forall (o : Object) (zaxisID : Z),
    let o' := (associated_zaxis c dims o zaxisID).2 in
    m_varsID (members o') = m_varsID (members o) /\
    m_vlistID (members o') = m_vlistID (members o) /\
    m_gridID (members o') = m_gridID (members o) /\
    calls o' = calls o /\
    (forall d, m_dimsAxis (members o) !! d = None ->
       m_dimsAxis (members o') !! d = if bool_decide (d ∈ dims) then Some 0 else None) /\
    (forall d v, m_dimsAxis (members o) !! d = Some v ->
       m_dimsAxis (members o') !! d = Some v).
Proof.
  induction dims as [|d0 dims IH]; intros o zaxisID; cbv zeta.
  - cbn [associated_zaxis snd]. split_conj; try reflexivity.
    + intros d Hd. rewrite bool_decide_eq_false_2 by apply not_elem_of_nil.
      exact Hd.
    + intros d v Hd. exact Hd.
  - cbn [associated_zaxis].
    destruct (index (m_dimsAxis (members o)) d0) as [axis axes] eqn:Hindex.
    match goal with
    | |- context [associated_zaxis c dims ?o1 ?z1] =>
        pose proof (IH o1 z1) as IH'; cbv zeta in IH';
        destruct (associated_zaxis c dims o1 z1) as [zaxisID' o']
    end.
    unfold assign, set_m_dimsAxis in IH'.
    cbn [snd members calls m_varsID m_vlistID m_gridID m_dimsAxis] in IH' |- *.
    destruct IH' as (Hvars & Hvlist & Hgrid & Hcalls & Hnew & Hold).
    pose proof (index_lookup (m_dimsAxis (members o)) d0) as (Hat & Hother & Hsome & Hnone).
    rewrite Hindex in Hat, Hother, Hsome, Hnone. cbn [fst snd] in Hat, Hother, Hsome, Hnone.
    split_conj; try assumption.
    + intros d Hd. destruct (decide (d = d0)) as [-> | Hne].
      * rewrite bool_decide_eq_true_2 by (apply elem_of_cons; left; reflexivity).
        specialize (Hnone Hd). injection Hnone as -> ->.
        apply Hold. apply lookup_insert_eq.
      * rewrite (Hnew d (eq_trans (Hother d Hne) Hd)).
        destruct (decide (d ∈ dims)) as [Hin | Hin].
        -- rewrite (bool_decide_eq_true_2 _ Hin).
           rewrite bool_decide_eq_true_2 by (apply elem_of_cons; right; exact Hin).
           reflexivity.
        -- rewrite (bool_decide_eq_false_2 _ Hin).
           rewrite bool_decide_eq_false_2; [reflexivity|].
           intros Hin'. apply elem_of_cons in Hin'. tauto.
    + intros d v Hd. apply Hold.
      destruct (decide (d = d0)) as [-> | Hne].
      * specialize (Hsome v Hd). injection Hsome as -> ->. exact Hd.
      * exact (eq_trans (Hother d Hne) Hd).
Qed.

Lemma def_var_scalar_defines (o : Object) (name : string) (nctype : Z)
    (dims : list string) :
  defines c answer o (def_var_scalar c answer o name nctype dims) name nctype.
Proof.
  unfold defines, def_var_scalar.
  destruct (def_zs_keeps o) as (Hvars & _ & _ & _ & _ & _ & [more Hcalls] & _).
  members_of (def_zs c answer o). members_of o. assignments. subst.
  eexists. split; [reflexivity|].
  exists more. do 4 eexists. rewrite <- !app_assoc. cbn [app].
  split; reflexivity.
Qed.

Lemma def_var_mscalar_defines (o : Object) (name : string) (nctype : Z)
    (dims : list string) :
  defines c answer o (def_var_mscalar c answer o name nctype dims) name nctype.
Proof.
  unfold defines, def_var_mscalar.
  destruct (def_zs_keeps o) as (Hvars & _ & _ & _ & _ & _ & [more Hcalls] & _).
  members_of (def_zs c answer o). members_of o. assignments. subst.
  eexists. split; [reflexivity|].
  exists more. do 4 eexists. rewrite <- !app_assoc. cbn [app].
  split; reflexivity.
Qed.

Lemma def_var_multi_defines (o : Object) (name : string) (nctype : Z)
    (dims : list string) :
  defines c answer o (def_var_multi c answer o name nctype dims) name nctype.
Proof.
  unfold defines, def_var_multi.
  destruct (associated_zaxis_keeps dims o (m_zsID (members o)))
    as (Hvars & _ & _ & Hcalls & _).
  destruct (associated_zaxis c dims o (m_zsID (members o))) as [zaxisID o1].
  members_of o1. members_of o. assignments. subst.
  eexists. split; [reflexivity|].
  exists []. do 4 eexists. rewrite app_nil_r, <- !app_assoc. cbn [app].
  split; reflexivity.
Qed.

(** X15 (defining a variable).  [def_var_impl] does nothing at all for a
    name that is a dimension: "No need to define dimensions as variables".
    For any other name, whichever of the three kinds of variable it picks,
    it asks the library for a new variable with [vlistDefVar], gives it the
    name and the converted type, and enters the ID that the library answered
    in [m_varsID] under the name, leaving the other entries as they were;
    the earlier calls into the library stay in front.  So afterwards
    [inq_varid_impl] finds the name. *)
Theorem def_var_impl_registers (o : Object) (name : string) (nctype : Z)
    (dims : list string) :
  let o' := def_var_impl c answer o name nctype dims in
  (is_Some (m_dimsAxis (members o) !! name) -> o' = o) /\
  (m_dimsAxis (members o) !! name = None ->
     inq_varid_impl o' name = true /\
     exists varID,
       m_varsID (members o') = <[ name := varID ]> (m_varsID (members o)) /\
       exists more vlistID gridID zaxisID tsteptype,
         calls o'
         = (calls o ++ more)
           ++ [ {| function := "vlistDefVar";
                   arguments := [Int vlistID; Int gridID; Int zaxisID;
                                 Int tsteptype] |};
                {| function := "vlistDefVarName";
                   arguments := [Int vlistID; Int varID; Text name] |};
                {| function := "vlistDefVarDatatype";
                   arguments := [Int vlistID; Int varID;
                                 Int (pism_type_to_cdi_type c nctype)] |} ] /\
         varID = answer (calls o ++ more)
                   {| function := "vlistDefVar";
                      arguments := [Int vlistID; Int gridID; Int zaxisID;
                                    Int tsteptype] |}).
Proof.
  cbv zeta. unfold def_var_impl. split.
  - intros [axis Haxis]. rewrite Haxis. reflexivity.
  - intros Hnone. rewrite Hnone.
    destruct (def_vlist_keeps o) as (Hvars & _ & _ & _ & _ & [more0 Hcalls] & _).
    set (o0 := def_vlist c answer o) in *.
    assert (Hdefines : forall o' : Object, defines c answer o0 o' name nctype ->
              inq_varid_impl o' name = true /\ defines c answer o o' name nctype).
    { intros o' (varID & Hmap & more & vl & gr & za & ts & Hc & Hid). split.
      - unfold inq_varid_impl. rewrite Hmap, lookup_insert_eq.
        apply bool_decide_eq_true_2. eexists. reflexivity.
      - exists varID. split; [rewrite Hmap, Hvars; reflexivity|].
        exists (more0 ++ more), vl, gr, za, ts.
        rewrite Hc, Hid, Hcalls, <- !app_assoc. split; reflexivity. }
    destruct ((Z.of_nat (length dims) =? 0)
              || (Z.of_nat (length dims)
                  - (if existsb (String.eqb "time") dims then 1 else 0) =? 0)).
    + apply Hdefines, def_var_scalar_defines.
    + destruct (Z.of_nat (length dims)
                - (if existsb (String.eqb "time") dims then 1 else 0) =? 1).
      * apply Hdefines, def_var_mscalar_defines.
      * apply Hdefines, def_var_multi_defines.
Qed.

(** X16 (looking up a variable that is not there).  For a name other than
    "PISM_GLOBAL", [var_id] returns the ID that [m_varsID] holds for the
    name and changes nothing; but for a name that [m_varsID] does not hold
    it returns 0 and enters the name with the ID 0, without a call into the
    library: from then on [inq_varid_impl] reports that the variable exists,
    and [inq_nvars_impl] counts one variable more. *)
Theorem var_id_enters_missing_names (o : Object) (name : string) :
  name <> "PISM_GLOBAL" ->
  let varID := (var_id c o name).1 in
  let o' := (var_id c o name).2 in
  m_varsID (members o') !! name = Some varID /\
  inq_varid_impl o' name = true /\
  calls o' = calls o /\
  (forall v, m_varsID (members o) !! name = Some v -> varID = v /\ o' = o) /\
  (m_varsID (members o) !! name = None ->
     varID = 0 /\
     inq_varid_impl o name = false /\
     m_varsID (members o') = <[ name := 0 ]> (m_varsID (members o)) /\
     inq_nvars_impl o' = inq_nvars_impl o + 1).
Proof.
  intros Hname. cbv zeta. unfold var_id.
  apply String.eqb_neq in Hname. rewrite Hname.
  pose proof (index_lookup (m_varsID (members o)) name) as (Hat & _ & Hsome & Hnone).
  destruct (index (m_varsID (members o)) name) as [varID vars] eqn:Hindex.
  cbn [fst snd] in Hat |- *. members_of o. assignments.
  split; [exact Hat|]. split.
  { unfold inq_varid_impl. assignments. rewrite Hat.
    apply bool_decide_eq_true_2. eexists. reflexivity. }
  split; [reflexivity|]. split.
  - intros v Hv. specialize (Hsome v Hv). injection Hsome as -> ->.
    split; reflexivity.
  - intros Hv. specialize (Hnone Hv). injection Hnone as -> ->.
    split; [reflexivity|]. split.
    { unfold inq_varid_impl. assignments. rewrite Hv.
      apply bool_decide_eq_false_2. intros [v Hsome']. discriminate. }
    split; [reflexivity|].
    unfold inq_nvars_impl. assignments.
    rewrite map_size_insert, Hv. lia.
Qed.

Lemma first_with_value_among (l : list (string * Z)) (v : Z) :
  match foldr (fun (entry : string * Z) (best : option string) =>
                 if entry.2 =? v then
                   match best with
                   | Some b => if String.ltb b entry.1 then Some b else Some entry.1
                   | None => Some entry.1
                   end
                 else best) None l with
  | Some name => (name, v) ∈ l
  | None => forall name, (name, v) ∉ l
  end.
Proof.
  induction l as [|[n0 v0] l IH]; cbn [foldr fst snd].
  - intros name. apply not_elem_of_nil.
  - destruct (foldr _ None l) as [b|] eqn:Hbest.
    + destruct (Z.eqb_spec v0 v) as [-> | Hne].
      * destruct (String.ltb b n0); [right; exact IH | left].
      * right. exact IH.
    + destruct (Z.eqb_spec v0 v) as [-> | Hne].
      * left.
      * intros name Hin. apply elem_of_cons in Hin.
        destruct Hin as [Heq | Hin]; [congruence | exact (IH name Hin)].
Qed.

(** X17 (the name of a variable ID).  [inq_varname_impl] looks for the ID
    [(int)j]: that is j itself for j below 2^31, and j - 2^32, a negative
    ID, for a larger j.  When some variable has this ID, [result] becomes
    the name of a variable with it, so that looking the name up gives the
    ID again; when the variable [name] is the only one with the ID, the
    result is [name].  When no variable has the ID, [result] keeps the
    string that the caller passed in. *)
Theorem inq_varname_impl_finds (o : Object) (j : Z) (result : string) :
  let found := inq_varname_impl o j result in
  let id := to_int j in
  ((0 <= j < 2 ^ 31 -> id = j) /\ (2 ^ 31 <= j < 2 ^ 32 -> id = j - 2 ^ 32)) /\
  ((exists name, m_varsID (members o) !! name = Some id) ->
     m_varsID (members o) !! found = Some id) /\
  ((forall name, m_varsID (members o) !! name <> Some id) -> found = result) /\
  (forall name,
     m_varsID (members o) !! name = Some id ->
     (forall other, m_varsID (members o) !! other = Some id -> other = name) ->
     found = name).
Proof.
  cbv zeta. split.
  { unfold to_int. split; intros Hj.
    - rewrite Z.mod_small; lia.
    - replace (j + 2 ^ 31) with (j - 2 ^ 31 + 1 * 2 ^ 32) by lia.
      rewrite Z.mod_add by lia. rewrite Z.mod_small; lia. }
  unfold inq_varname_impl, first_with_value.
  generalize (to_int j). intros id.
  pose proof (first_with_value_among (map_to_list (m_varsID (members o))) id) as Hfirst.
  destruct (foldr _ None (map_to_list (m_varsID (members o)))) as [found|].
  - apply elem_of_map_to_list in Hfirst.
    split; [intros _; exact Hfirst|]. split.
    + intros Hno. destruct (Hno found Hfirst).
    + intros name _ Honly. exact (Honly found Hfirst).
  - assert (Hno : forall name, m_varsID (members o) !! name <> Some id).
    { intros name Hin. apply elem_of_map_to_list in Hin. exact (Hfirst name Hin). }
    split; [intros [name Hin]; destruct (Hno name Hin)|].
    split; [reflexivity|].
    intros name Hin _. destruct (Hno name Hin).
Qed.

(** X18 (the time step type).  "Returns TIME_VARIABLE if `dims` contain
    the time dimension and TIME_CONSTANT otherwise": the time dimension is
    one that [m_dimsAxis] holds with the axis [T_AXIS], whatever it is
    called; a name that [m_dimsAxis] does not hold does not count. *)
Theorem timestep_type_detects_time (o : Object) (dims : list string) :
  ((exists d, d ∈ dims /\ m_dimsAxis (members o) !! d = Some (T_AXIS c)) ->
     timestep_type c o dims = TIME_VARIABLE c) /\
  ((forall d, d ∈ dims -> m_dimsAxis (members o) !! d <> Some (T_AXIS c)) ->
     timestep_type c o dims = TIME_CONSTANT c).
Proof.
  induction dims as [|d0 dims [IHvar IHconst]]; cbn [timestep_type].
  - split; [|reflexivity].
    intros (d & Hin & _). apply elem_of_nil in Hin. destruct Hin.
  - split.
    + intros (d & Hin & Haxis). apply elem_of_cons in Hin.
      destruct (m_dimsAxis (members o) !! d0) as [axis|] eqn:E.
      * destruct (Z.eqb_spec axis (T_AXIS c)) as [_ | Hne]; [reflexivity|].
        apply IHvar. exists d. split; [|exact Haxis].
        destruct Hin as [-> | Hin]; [|exact Hin].
        pose proof (eq_trans (eq_sym E) Haxis) as Heq.
        injection Heq as Heq. contradiction.
      * apply IHvar. exists d. split; [|exact Haxis].
        destruct Hin as [-> | Hin]; [|exact Hin].
        pose proof (eq_trans (eq_sym E) Haxis) as Heq. discriminate.
    + intros Hno.
      assert (Hrest : timestep_type c o dims = TIME_CONSTANT c).
      { apply IHconst. intros d Hin. apply Hno. right. exact Hin. }
      destruct (m_dimsAxis (members o) !! d0) as [axis|] eqn:E; [|exact Hrest].
      destruct (Z.eqb_spec axis (T_AXIS c)) as [-> | _]; [|exact Hrest].
      assert (Hhere : d0 ∈ d0 :: dims) by (apply elem_of_cons; left; reflexivity).
      destruct (Hno d0 Hhere E).
Qed.

End Defining.

Section Dimensions.
Import CDI CDIWriter.
Context {S D : Type}.
Variable c : Constants.
Variable answer : list Call -> Call -> Z.

Local Abbreviation Object := (Object S D).

(** The two IDs that every call of [def_dim_impl] sees to, and what the
    branch of the axis leaves behind. *)
Lemma def_dim_impl_leaves (o : Object) (name : string) (length : Z)
    (dim : AxisType) :
  let o' := def_dim_impl c answer o name length dim in
  m_dimsAxis (members o') = <[ name := dim ]> (m_dimsAxis (members o)) /\
  m_varsID (members o') = m_varsID (members o) /\
  ((forall history call, answer history call <> -1) ->
     m_vlistID (members o') <> -1 /\ m_zsID (members o') <> -1 /\
     (dim <> X_AXIS c -> dim <> Y_AXIS c -> dim = Z_AXIS c ->
        is_Some (m_zID (members o') !! name)) /\
     (dim <> X_AXIS c -> dim <> Y_AXIS c -> dim <> Z_AXIS c -> dim = T_AXIS c ->
        m_tID (members o') <> -1)).
Proof.
  cbv zeta. unfold def_dim_impl.
  assert (Hids : forall o : Object,
            let o2 := def_zs c answer (def_vlist c answer o) in
            m_dimsAxis (members o2) = m_dimsAxis (members o) /\
            m_varsID (members o2) = m_varsID (members o) /\
            ((forall history call, answer history call <> -1) ->
               m_vlistID (members o2) <> -1 /\ m_zsID (members o2) <> -1)).
  { clear o. intros o. cbv zeta. unfold def_zs, def_vlist. members_of o. assignments.
    match goal with |- context [?v =? -1] => destruct (Z.eqb_spec v (-1)) as [E | E] end;
      assignments;
      match goal with |- context [?v =? -1] => destruct (Z.eqb_spec v (-1)) as [E' | E'] end;
      assignments; split_conj; try reflexivity; intros Hanswer; split;
      solve [assumption | apply Hanswer]. }
  destruct (Hids o) as (Hdims & Hvars & Hset).
  members_of (def_zs c answer (def_vlist c answer o)). assignments.
  destruct (Z.eqb_spec dim (X_AXIS c)) as [EX | EX];
    [|destruct (Z.eqb_spec dim (Y_AXIS c)) as [EY | EY];
      [|destruct (Z.eqb_spec dim (Z_AXIS c)) as [EZ | EZ];
        [|destruct (Z.eqb_spec dim (T_AXIS c)) as [ET | ET]]]].
  - assignments. rewrite Hdims. split_conj; try assumption; try reflexivity.
    intros Hanswer. destruct (Hset Hanswer). split_conj; try assumption; intros; contradiction.
  - assignments. rewrite Hdims. split_conj; try assumption; try reflexivity.
    intros Hanswer. destruct (Hset Hanswer). split_conj; try assumption; intros; contradiction.
  - match goal with |- context [?m !! name] => destruct (m !! name) as [z|] eqn:Ez end;
      assignments; rewrite Hdims; split_conj; try assumption; try reflexivity;
      intros Hanswer; destruct (Hset Hanswer); split_conj; try assumption;
      intros; try contradiction.
    + rewrite Ez. eexists. reflexivity.
    + rewrite lookup_insert_eq. eexists. reflexivity.
  - match goal with |- context [?v =? -1] => destruct (Z.eqb_spec v (-1)) as [Et | Et] end;
      assignments; rewrite Hdims; split_conj; try assumption; try reflexivity;
      intros Hanswer; destruct (Hset Hanswer); split_conj; try assumption;
      intros; try contradiction; try assumption.
    apply Hanswer.
  - assignments. rewrite Hdims. split_conj; try assumption; try reflexivity.
    intros Hanswer. destruct (Hset Hanswer). split_conj; try assumption; intros; contradiction.
Qed.

(** X19 (a dimension is recorded and is never a variable).  After
    [def_dim_impl] the name is a dimension with the given axis, whatever the
    axis is and whatever the library answered; no other dimension and no
    variable is touched; and from then on [def_var_impl] does nothing for
    this name, however it is called. *)
Theorem def_dim_impl_records (o : Object) (name : string) (length : Z)
    (dim : AxisType) (nctype : Z) (dims : list string) :
  let o' := def_dim_impl c answer o name length dim in
  inq_dimid_impl o' name = true /\
  m_dimsAxis (members o') !! name = Some dim /\
  (forall other, other <> name ->
     m_dimsAxis (members o') !! other = m_dimsAxis (members o) !! other) /\
  m_varsID (members o') = m_varsID (members o) /\
  def_var_impl c answer o' name nctype dims = o'.
Proof.
  cbv zeta.
  destruct (def_dim_impl_leaves o name length dim) as (Hdims & Hvars & _).
  set (o' := def_dim_impl c answer o name length dim) in *.
  assert (Hat : m_dimsAxis (members o') !! name = Some dim)
    by (rewrite Hdims; apply lookup_insert_eq).
  split_conj.
  - unfold inq_dimid_impl. rewrite Hat. apply bool_decide_eq_true_2.
    eexists. reflexivity.
  - exact Hat.
  - intros other Hother. rewrite Hdims. apply lookup_insert_ne. congruence.
  - exact Hvars.
  - unfold def_var_impl. rewrite Hat. reflexivity.
Qed.

(** X20 (a Z axis and the time axis are defined once).  When the library
    never answers -1, the value that marks an ID as not yet made, a second
    call of [def_dim_impl] for the same name on the axis [Z_AXIS] or
    [T_AXIS] changes nothing and makes no call into the library, whatever
    length it is given: "define z axis only if it's new", "define time axis
    if it was not done before".  A different length is not noticed. *)
Theorem def_dim_impl_defines_axis_once (o : Object) (name : string)
    (length length' : Z) (dim : AxisType) :
  (forall history call, answer history call <> -1) ->
  dim <> X_AXIS c -> dim <> Y_AXIS c ->
  dim = Z_AXIS c \/ dim = T_AXIS c ->
  def_dim_impl c answer (def_dim_impl c answer o name length dim) name length' dim
  = def_dim_impl c answer o name length dim.
Proof.
  intros Hanswer HX HY Haxis.
  destruct (def_dim_impl_leaves o name length dim) as (Hdims & _ & Hset).
  destruct (Hset Hanswer) as (Hvlist & Hzs & Hz & Ht).
  set (o1 := def_dim_impl c answer o name length dim) in *.
  assert (Hat : m_dimsAxis (members o1) !! name = Some dim)
    by (rewrite Hdims; apply lookup_insert_eq).
  clearbody o1. clear Hdims Hset.
  unfold def_dim_impl.
  destruct (def_vlist_keeps c answer o1) as (_ & _ & _ & _ & _ & _ & Hsame).
  rewrite (Hsame Hvlist).
  destruct (def_zs_keeps c answer o1) as (_ & _ & _ & _ & _ & _ & _ & Hsame').
  rewrite (Hsame' Hzs).
  apply Z.eqb_neq in HX, HY. rewrite HX, HY.
  apply Z.eqb_neq in HX, HY.
  assert (Hkept : assign (set_m_dimsAxis (<[ name := dim ]> (m_dimsAxis (members o1)))) o1
                  = o1).
  { rewrite (insert_id _ _ _ Hat). members_of o1. reflexivity. }
  destruct (Z.eqb_spec dim (Z_AXIS c)) as [EZ | EZ].
  - destruct (Hz HX HY EZ) as [z Ez]. rewrite Ez. exact Hkept.
  - destruct Haxis as [EZ' | ET]; [contradiction|].
    rewrite (proj2 (Z.eqb_eq dim (T_AXIS c)) ET).
    specialize (Ht HX HY EZ ET). apply Z.eqb_neq in Ht. rewrite Ht. exact Hkept.
Qed.

End Dimensions.

Section OnTheNewObject.
Import CDI CDIWriter.

(** Asking a new object for the ID of a variable that was never defined. *)
Lemma var_id_enters_missing_names_witness :
  "velsurf_mag" <> "PISM_GLOBAL" /\
  inq_varid_impl (var_id Cases.enumerators Cases.new_object "velsurf_mag").2
                 "velsurf_mag" = true.
Proof.
  assert (Hname : "velsurf_mag" <> "PISM_GLOBAL") by discriminate.
  split; [exact Hname|].
  exact (proj1 (proj2 (var_id_enters_missing_names Cases.enumerators
                         Cases.new_object "velsurf_mag" Hname))).
Defined.

(** Defining the dimension "z" twice, with 11 and with 21 levels. *)
Lemma def_dim_impl_defines_axis_once_witness :
  ((forall history call, Cases.counting history call <> -1) /\
   Z_AXIS Cases.enumerators <> X_AXIS Cases.enumerators /\
   Z_AXIS Cases.enumerators <> Y_AXIS Cases.enumerators) /\
  def_dim_impl Cases.enumerators Cases.counting
    (def_dim_impl Cases.enumerators Cases.counting Cases.new_object "z" 11
       (Z_AXIS Cases.enumerators))
    "z" 21 (Z_AXIS Cases.enumerators)
  = def_dim_impl Cases.enumerators Cases.counting Cases.new_object "z" 11
      (Z_AXIS Cases.enumerators).
Proof.
  assert (Hanswer : forall history call, Cases.counting history call <> -1)
    by (intros history call; unfold Cases.counting; lia).
  assert (HX : Z_AXIS Cases.enumerators <> X_AXIS Cases.enumerators) by discriminate.
  assert (HY : Z_AXIS Cases.enumerators <> Y_AXIS Cases.enumerators) by discriminate.
  split; [repeat split; assumption|].
  exact (def_dim_impl_defines_axis_once Cases.enumerators Cases.counting
           Cases.new_object "z" 11 21 (Z_AXIS Cases.enumerators)
           Hanswer HX HY (or_introl eq_refl)).
Defined.

End OnTheNewObject.

Section AttributesAndData.
Import CDI CDIWriter.
Context {S D : Type}.
Variable c : Constants.

Local Abbreviation Object := (Object S D).

(** X21 (text attributes that are not written).  [put_att_text_impl]
    "skip[s] empty attributes": with an empty value or an empty attribute
    name it changes nothing and makes no call.  For a dimension it never
    defines a text attribute with [cdiDefAttTxt] and leaves the variables
    alone; an attribute of a dimension other than "units" and "long_name" is
    ignored altogether.  For any other name it makes the one call
    [cdiDefAttTxt] with the ID that [var_id] gives for the name. *)
Theorem put_att_text_impl_skips (o : Object)
    (variable_name att_name value : string) :
  let o' := put_att_text_impl c o variable_name att_name value in
  (value = "" \/ att_name = "" -> o' = o) /\
  (is_Some (m_dimsAxis (members o) !! variable_name) ->
     m_varsID (members o') = m_varsID (members o) /\
     (exists more, calls o' = calls o ++ more /\
        Forall (fun call => function call <> "cdiDefAttTxt") more) /\
     (att_name <> "units" -> att_name <> "long_name" -> o' = o)) /\
  (value <> "" -> att_name <> "" ->
   m_dimsAxis (members o) !! variable_name = None ->
     calls o'
     = calls o
       ++ [ {| function := "cdiDefAttTxt";
               arguments := [Int (m_vlistID (members o));
                             Int (var_id c o variable_name).1;
                             Text att_name;
                             Int (Z.of_nat (String.length value));
                             Text value] |} ]).
Proof.
  cbv zeta. unfold put_att_text_impl. unfold AxisType in *. split_conj.
  - intros [-> | ->]; [reflexivity|].
    rewrite orb_true_r. reflexivity.
  - intros [axis Haxis]. rewrite Haxis.
    destruct (String.eqb value "" || String.eqb att_name "") eqn:Hempty.
    { split_conj; try reflexivity.
      exists []. split; [rewrite app_nil_r; reflexivity | constructor]. }
    assert (Hnone : m_varsID (members o) = m_varsID (members o) /\
              (exists more, calls o = calls o ++ more /\
                 Forall (fun call => function call <> "cdiDefAttTxt") more)).
    { split; [reflexivity|]. exists [].
      split; [rewrite app_nil_r; reflexivity | constructor]. }
    assert (Hnames : att_name <> "units" -> att_name <> "long_name" ->
              String.eqb att_name "units" = false /\
              String.eqb att_name "long_name" = false).
    { intros Hu Hl. split; apply String.eqb_neq; assumption. }
    destruct (index (m_zID (members o)) variable_name) as [zaxisID zs] eqn:Hindex.
    assert (Hindex' : forall zs0 : gmap string Z,
              (index zs variable_name) = (zaxisID, zs)).
    { intros _. pose proof (index_lookup (m_zID (members o)) variable_name)
        as (Hat & _ & _ & _).
      rewrite Hindex in Hat. cbn [fst snd] in Hat.
      pose proof (index_lookup zs variable_name) as (_ & _ & Hsome & _).
      exact (Hsome zaxisID Hat). }
    members_of o. assignments.
    destruct (axis =? X_AXIS c); [|destruct (axis =? Y_AXIS c);
      [|destruct (axis =? Z_AXIS c)]];
      destruct (String.eqb att_name "units") eqn:Eu;
      destruct (String.eqb att_name "long_name") eqn:El;
      assignments;
      rewrite ?Hindex; assignments; rewrite ?(Hindex' zs); assignments;
      (split_conj;
       [ reflexivity
       | first [ exists []; split; [rewrite app_nil_r; reflexivity | constructor]
               | eexists; split; [rewrite <- ?app_assoc; reflexivity|];
                 repeat constructor; discriminate ]
       | intros Hu Hl; destruct (Hnames Hu Hl); try congruence; reflexivity ]).
  - intros Hvalue Hatt Hnone. rewrite Hnone.
    apply String.eqb_neq in Hvalue, Hatt. rewrite Hvalue, Hatt. cbn [orb].
    unfold var_id.
    destruct (String.eqb variable_name "PISM_GLOBAL");
      [|destruct (index (m_varsID (members o)) variable_name)];
      members_of o; assignments; reflexivity.
Qed.

(** X22 (diagnostic variables are held back).  [write_darray_impl] hands
    the transposed block to [streamWriteVarPart], once, exactly when the ID
    of the variable is not [CDI_GLOBAL] and either [m_beforediag] is off or
    the variable is not among [m_diagvars]; a variable of [m_diagvars] is
    held back, without any call, while [m_beforediag] is on.  The argument
    [record] is not read.  The ID comes from [var_id], so that a block
    written for a name that was never defined goes to the variable 0. *)
Theorem write_darray_impl_holds_back (o : Object) (variable_name : string)
    (grid : IceGrid) (z_count record record' : Z) (input : list float) :
  let varid := (var_id c o variable_name).1 in
  let r := write_darray_impl c o variable_name grid z_count record input in
  (r.2 = Streamed <->
     varid <> CDI_GLOBAL c /\
     (m_beforediag (members o) = false \/ variable_name ∉ m_diagvars (members o))) /\
  (r.2 = HeldBack <->
     varid <> CDI_GLOBAL c /\
     m_beforediag (members o) = true /\ variable_name ∈ m_diagvars (members o)) /\
  (r.2 = AssertionFailed <-> varid = CDI_GLOBAL c) /\
  (r.2 = Streamed ->
     calls r.1
     = calls o
       ++ [ {| function := "streamWriteVarPart";
               arguments :=
                 [Int (m_file_id (members o)); Int varid;
                  Values (io_transpose grid input (local_length grid z_count) z_count);
                  Int 0; Int (yaxt_decomposition grid z_count)] |} ]) /\
  (r.2 <> Streamed -> calls r.1 = calls o) /\
  write_darray_impl c o variable_name grid z_count record' input = r.
Proof.
  cbv zeta. unfold write_darray_impl.
  assert (Hid : calls (var_id c o variable_name).2 = calls o /\
                m_file_id (members (var_id c o variable_name).2) = m_file_id (members o) /\
                m_beforediag (members (var_id c o variable_name).2)
                  = m_beforediag (members o) /\
                m_diagvars (members (var_id c o variable_name).2)
                  = m_diagvars (members o)).
  { unfold var_id.
    destruct (String.eqb variable_name "PISM_GLOBAL");
      [|destruct (index (m_varsID (members o)) variable_name)];
      members_of o; assignments; split_conj; reflexivity. }
  destruct (var_id c o variable_name) as [varid o1].
  cbn [fst snd] in Hid |- *. destruct Hid as (Hcalls & Hfile & Hbefore & Hdiag).
  assert (Hwritten : forall (call : Call) (calls1 : list Call),
            calls1 = calls o -> calls1 ++ [call] = calls o ++ [call])
    by (intros call calls1 ->; reflexivity).
  destruct (Z.eqb_spec varid (CDI_GLOBAL c)) as [Eg | Eg]; cbn [fst snd];
    [|rewrite Hbefore, Hdiag;
      destruct (m_beforediag (members o)) eqn:Eb; cbn [negb orb];
      [destruct (decide (variable_name ∈ m_diagvars (members o))) as [Hin | Hin];
       [rewrite bool_decide_eq_false_2 by (intros Hn; exact (Hn Hin))
       |rewrite bool_decide_eq_true_2 by exact Hin]|]];
    cbn [fst snd]; split_conj;
    try discriminate; try reflexivity; try tauto;
    try (intros _; exact Hcalls);
    try (intros (_ & [Hoff | Hout]); [discriminate | contradiction]);
    try (intros (_ & _ & Hin'); contradiction);
    try (intros (_ & Hon & _); discriminate);
    try (intros Hno; destruct (Hno eq_refl));
    try (intros _; rewrite Hfile; apply Hwritten; revert Hcalls;
         members_of o1; assignments; intros Hcalls; exact Hcalls).
Qed.

End AttributesAndData.

Section Calendars.
Import CDI CDIWriter.
Context {S D : Type} `{Scalar S}.
Variable c : Constants.
Variable as_days : S -> D.

Local Abbreviation Object := (Object S D).

(** X23 (the calendars of set_calendar_impl).  [set_calendar_impl] knows
    six calendar strings.  For each of them it returns, having stored the
    year length, the string, the CDI calendar and the days of a year: the
    year length over 86400 for "gregorian", "standard" and
    "proleptic_gregorian", 365 for "365_day" and "noleap", 360 for
    "360_day".  For any other string it throws "unsupported calendar: " with
    the string; by then it has already stored the new year length, while
    the days of a year, the CDI calendar and the calendar string are the
    old ones.  The other members and the library are not touched. *)
Theorem set_calendar_impl_calendars (o : Object) (year_length : S)
    (calendar_string : string) :
  let r := set_calendar_impl c as_days o year_length calendar_string in
  let cal := calendar r.1 in
  let supported := [ "gregorian"; "standard"; "proleptic_gregorian";
                     "365_day"; "noleap"; "360_day" ] in
  (m_year_length cal = year_length /\
   members r.1 = members o /\ calls r.1 = calls o) /\
  (calendar_string ∈ supported ->
     r.2 = Return tt /\ m_calendar_string cal = calendar_string) /\
  (calendar_string ∉ supported ->
     r.2 = Ended (RuntimeError ("unsupported calendar: " +:+ calendar_string)) /\
     m_days_year cal = m_days_year (calendar o) /\
     m_cdi_calendar cal = m_cdi_calendar (calendar o) /\
     m_calendar_string cal = m_calendar_string (calendar o)) /\
  (calendar_string = "gregorian" \/ calendar_string = "standard" ->
     m_days_year cal = as_days (div year_length (lit 86400%Q)) /\
     m_cdi_calendar cal = CALENDAR_STANDARD c) /\
  (calendar_string = "proleptic_gregorian" ->
     m_days_year cal = as_days (div year_length (lit 86400%Q)) /\
     m_cdi_calendar cal = CALENDAR_PROLEPTIC c) /\
  (calendar_string = "365_day" \/ calendar_string = "noleap" ->
     m_days_year cal = as_days (lit 365%Q) /\
     m_cdi_calendar cal = CALENDAR_365DAYS c) /\
  (calendar_string = "360_day" ->
     m_days_year cal = as_days (lit 360%Q) /\
     m_cdi_calendar cal = CALENDAR_360DAYS c).
Proof.
  cbv zeta. unfold set_calendar_impl, set_calendar.
  cbn [m_year_length m_days_year m_cdi_calendar m_calendar_string].
  destruct (String.eqb_spec calendar_string "gregorian") as [-> | H1];
    [|destruct (String.eqb_spec calendar_string "standard") as [-> | H2];
      [|destruct (String.eqb_spec calendar_string "proleptic_gregorian") as [-> | H3];
        [|destruct (String.eqb_spec calendar_string "365_day") as [-> | H4];
          [|destruct (String.eqb_spec calendar_string "noleap") as [-> | H5];
            [|destruct (String.eqb_spec calendar_string "360_day") as [-> | H6]]]]]];
    cbn [orb fst snd calendar members calls
         m_year_length m_days_year m_cdi_calendar m_calendar_string];
    split_conj; try reflexivity;
    try (intros _; split_conj; reflexivity);
    try (intros Hout; exfalso; apply Hout;
         repeat (apply elem_of_cons; first [left; reflexivity | right]));
    try (intros [Heq | Heq]; discriminate Heq);
    try (intros Heq; discriminate Heq);
    try (intros [Heq | Heq]; congruence);
    try (intros Heq; congruence);
    try (intros Hin; exfalso;
         repeat (apply elem_of_cons in Hin; destruct Hin as [Hin | Hin];
                 [contradiction|]);
         apply elem_of_nil in Hin; exact Hin).
Qed.

End Calendars.

Section TimeOfDay.
Import CDIWriter.
Local Open Scope Q_scope.

Lemma round_of_a_day (dayf : Q) :
  0 <= dayf -> dayf < 1 ->
  (0 <= round (dayf * 86400) <= 86400)%Z /\
  (1 - 1 / 172800 <= dayf -> round (dayf * 86400) = 86400%Z).
Proof.
  intros H0 H1. unfold round.
  assert (Hpos : 0 <= dayf * 86400) by (apply Qmult_le_0_compat; lra).
  rewrite (proj2 (Qleb_true 0 (dayf * 86400)) Hpos).
  assert (Hlow : (Qfloor (1 # 2) <= Qfloor (dayf * 86400 + (1 # 2)))%Z)
    by (apply Qfloor_resp_le; lra).
  assert (Hhigh : (Qfloor (dayf * 86400 + (1 # 2)) <= Qfloor (86400 + (1 # 2)))%Z)
    by (apply Qfloor_resp_le; lra).
  change (Qfloor (1 # 2)) with 0%Z in Hlow.
  change (Qfloor (86400 + (1 # 2))) with 86400%Z in Hhigh.
  split; [lia|].
  intros Hlate.
  assert (Hfull : (Qfloor 86400 <= Qfloor (dayf * 86400 + (1 # 2)))%Z).
  { apply Qfloor_resp_le.
    assert (Hconst : 1 - 1 / 172800 == 172799 # 172800) by reflexivity.
    rewrite Hconst in Hlate. lra. }
  change (Qfloor 86400) with 86400%Z in Hfull. lia.
Qed.

(** X24 (the time of day).  For a fraction of a day in [0,1), in exact
    arithmetic, [day_calendar] rounds the fraction to whole seconds, at
    most 86400 of them, and packs them as hours * 10000 + minutes * 100 +
    seconds; the seconds can be read back from the result, and below 86400
    seconds the three fields are a time of day.  A fraction within half a
    second of the end of the day rounds to 86400 seconds and is packed as
    240000: the hour 24 of the same day. *)
Theorem day_calendar_packs_the_time (dayf : Q) :
  0 <= dayf -> dayf < 1 ->
  let seconds := round (dayf * 86400) in
  let packed := day_calendar round dayf in
  ((0 <= seconds <= 86400)%Z /\
   packed = (seconds / 3600 * 10000 + seconds mod 3600 / 60 * 100
             + seconds mod 60)%Z /\
   (packed / 10000 * 3600 + packed / 100 mod 100 * 60 + packed mod 100
    = seconds)%Z) /\
  ((seconds < 86400)%Z ->
     (0 <= packed / 10000 < 24)%Z /\ (0 <= packed / 100 mod 100 < 60)%Z /\
     (0 <= packed mod 100 < 60)%Z) /\
  (1 - 1 / 172800 <= dayf -> packed = 240000%Z).
Proof.
  intros H0 H1 seconds packed.
  destruct (round_of_a_day dayf H0 H1) as [Hrange Hlate].
  fold seconds in Hrange, Hlate.
  assert (Hpacked : packed = hours_minutes_seconds seconds) by reflexivity.
  assert (Hdigits : hours_minutes_seconds seconds
            = (seconds / 3600 * 10000 + seconds mod 3600 / 60 * 100
               + seconds mod 60)%Z).
  { unfold hours_minutes_seconds.
    rewrite (Z.quot_div_nonneg seconds 3600) by lia.
    replace (seconds - 3600 * (seconds / 3600))%Z with (seconds mod 3600)%Z
      by (rewrite Z.mod_eq by lia; reflexivity).
    rewrite (Z.quot_div_nonneg (seconds mod 3600) 60)
      by (try apply Z.mod_pos_bound; lia).
    assert (Hsec : (seconds mod 3600 - seconds mod 3600 / 60 * 60 = seconds mod 60)%Z)
      by (Z.to_euclidean_division_equations; lia).
    rewrite Hsec. reflexivity. }
  clearbody packed seconds. rewrite Hpacked, Hdigits. clear Hpacked Hdigits.
  split_conj; intros; Z.to_euclidean_division_equations; lia.
Qed.

End TimeOfDay.

Section TimeOfDayAtSix.
Import CDIWriter.
Local Open Scope Q_scope.

(** Three quarters of a day: 18:00:00. *)
Lemma day_calendar_packs_the_time_witness :
  (0 <= 0.75 /\ 0.75 < 1) /\
  day_calendar round 0.75
  = (round (0.75 * 86400) / 3600 * 10000
     + round (0.75 * 86400) mod 3600 / 60 * 100
     + round (0.75 * 86400) mod 60)%Z.
Proof.
  assert (H0 : 0 <= 0.75) by by_evaluation.
  assert (H1 : 0.75 < 1) by by_evaluation.
  split; [split; assumption|].
  exact (proj1 (proj2 (proj1 (day_calendar_packs_the_time 0.75 H0 H1)))).
Defined.

End TimeOfDayAtSix.

Section MissingDimensionsAndTheGrid.
Import CDI CDIWriter.
Context {S D : Type}.
Variable c : Constants.
Variable answer : list Call -> Call -> Z.

Local Abbreviation Object := (Object S D).

(** X28 (the length of a dimension that is not there).  [inq_dimlen_impl]
    reads [m_dimsAxis[dimension_name]], which enters a missing name with
    the axis value 0: whatever comes out of the call, [inq_dimid_impl]
    reports the dimension as existing afterwards.  When the axis found, or
    the 0 entered, is none of [X_AXIS], [Y_AXIS], [Z_AXIS] and [T_AXIS],
    the call throws "invalid dimension" with the name and makes no call
    into the library. *)
Theorem inq_dimlen_impl_enters_missing_names (o : Object)
    (dimension_name : string) :
  let r := inq_dimlen_impl c answer o dimension_name in
  let axis := default 0 (m_dimsAxis (members o) !! dimension_name) in
  inq_dimid_impl r.1 dimension_name = true /\
  m_dimsAxis (members r.1) !! dimension_name = Some axis /\
  (axis <> X_AXIS c -> axis <> Y_AXIS c -> axis <> Z_AXIS c -> axis <> T_AXIS c ->
     r.2 = Ended (RuntimeError ("invalid dimension " +:+ dimension_name)) /\
     calls r.1 = calls o /\
     m_dimsAxis (members r.1) = <[ dimension_name := axis ]> (m_dimsAxis (members o))).
Proof.
  cbv zeta. unfold inq_dimlen_impl, inq_dimid_impl. unfold AxisType in *.
  set (axis0 := default 0 _).
  pose proof (index_lookup (m_dimsAxis (members o)) dimension_name)
    as (Hat & _ & Hsome & Hnone).
  assert (Hdims : (index (m_dimsAxis (members o)) dimension_name).2
                  = <[ dimension_name := axis0 ]> (m_dimsAxis (members o)) /\
                  (index (m_dimsAxis (members o)) dimension_name).1 = axis0).
  { subst axis0.
    match goal with
    | |- context [default 0 ?found] => destruct found as [axis|] eqn:E
    end.
    - rewrite (Hsome axis eq_refl). cbn [fst snd default].
      split; [|reflexivity]. symmetry. apply insert_id. exact E.
    - rewrite (Hnone eq_refl). cbn [fst snd default]. split; reflexivity. }
  clearbody axis0. destruct Hdims as [Hdims Haxis].
  destruct (index (m_dimsAxis (members o)) dimension_name) as [axis dims].
  cbn [fst snd] in Hat, Hdims, Haxis. subst axis0. clear Hsome Hnone.
  members_of o. assignments.
  assert (Hfound : bool_decide (is_Some (dims !! dimension_name)) = true).
  { apply bool_decide_eq_true_2. rewrite Hat. eexists. reflexivity. }
  destruct (Z.eqb_spec axis (X_AXIS c)) as [EX | EX];
    [|destruct (Z.eqb_spec axis (Y_AXIS c)) as [EY | EY];
      [|destruct (Z.eqb_spec axis (Z_AXIS c)) as [EZ | EZ];
        [|destruct (Z.eqb_spec axis (T_AXIS c)) as [ET | ET]]]];
    try (destruct (index _ dimension_name) as [zaxisID zs]);
    assignments; (split; [exact Hfound|]); (split; [exact Hat|]);
    intros HX HY HZ HT; try contradiction.
  split; [reflexivity|]. split; [reflexivity | exact Hdims].
Qed.

(** X29 (releasing the diagnostics).  After [set_bdiag_impl] with false,
    [write_darray_impl] hands every block to the library, whatever
    [m_diagvars] holds; after [set_diagvars_impl] and [set_bdiag_impl] with
    true it holds back exactly the variables of the given set.  In both
    cases a variable whose ID is [CDI_GLOBAL] fails the assertion. *)
Theorem set_bdiag_impl_releases (o : Object) (variables : gset string)
    (variable_name : string) (grid : IceGrid) (z_count record : Z)
    (input : list float) :
  (var_id c o variable_name).1 <> CDI_GLOBAL c ->
  (write_darray_impl c (set_bdiag_impl o false) variable_name grid z_count
     record input).2 = Streamed /\
  ((write_darray_impl c (set_bdiag_impl (set_diagvars_impl o variables) true)
      variable_name grid z_count record input).2
   = if bool_decide (variable_name ∈ variables) then HeldBack else Streamed).
Proof.
  intros Hid. unfold write_darray_impl, var_id in *.
  destruct (String.eqb variable_name "PISM_GLOBAL").
  - cbn [fst] in Hid. contradiction.
  - unfold set_bdiag_impl, set_diagvars_impl.
    members_of o. assignments.
    destruct (index _ variable_name) as [varid vars]. assignments.
    apply Z.eqb_neq in Hid. rewrite Hid. cbn [negb orb].
    split; [reflexivity|].
    destruct (decide (variable_name ∈ variables)) as [Hin | Hin].
    + rewrite (bool_decide_eq_true_2 _ Hin).
      rewrite bool_decide_eq_false_2 by (intros Hn; exact (Hn Hin)). reflexivity.
    + rewrite (bool_decide_eq_false_2 _ Hin).
      rewrite (bool_decide_eq_true_2 _ Hin). reflexivity.
Qed.

(** X30 (the main grid is created once).  "that happens if this is called
    twice, but with different lengthx and lengthy?"  When the library never
    answers -1, a second call of [create_grid_impl] changes nothing and makes
    no call, whatever lengths it is given; and since [close_impl] keeps
    [m_gridID], so does a call after the file was closed: the grid of the
    closed file stays the main grid. *)
Theorem create_grid_impl_creates_once (o : Object)
    (lengthx lengthy lengthx' lengthy' : Z) :
  (forall history call, answer history call <> -1) ->
  let o1 := create_grid_impl c answer o lengthx lengthy in
  m_gridID (members o1) <> -1 /\
  create_grid_impl c answer o1 lengthx' lengthy' = o1 /\
  create_grid_impl c answer (close_impl o1) lengthx' lengthy' = close_impl o1 /\
  (m_gridID (members (close_impl o1)) = m_gridID (members o1) /\
   m_varsID (members (close_impl o1)) = ∅ /\
   m_dimsAxis (members (close_impl o1)) = ∅ /\
   m_file_id (members (close_impl o1)) = -1).
Proof.
  intros Hanswer o1.
  assert (Hgrid : m_gridID (members o1) <> -1).
  { subst o1. unfold create_grid_impl. members_of o. assignments.
    match goal with |- context [?v =? -1] => destruct (Z.eqb_spec v (-1)) as [E | E] end;
      assignments; [apply Hanswer | exact E]. }
  clearbody o1. split; [exact Hgrid|].
  unfold create_grid_impl, close_impl. members_of o1. assignments.
  apply Z.eqb_neq in Hgrid. rewrite Hgrid.
  split_conj; reflexivity.
Qed.

End MissingDimensionsAndTheGrid.

Section MissingDimensionsOnTheNewObject.
Import CDI CDIWriter.

(** Writing "thk" from the new object, where no variable has the ID -1:
    the name is entered with the ID 0. *)
Lemma set_bdiag_impl_releases_witness :
  (var_id Cases.enumerators Cases.new_object "thk").1
    <> CDI_GLOBAL Cases.enumerators /\
  (write_darray_impl Cases.enumerators (set_bdiag_impl Cases.new_object false)
     "thk" {| local_length := fun _ => 0;
              io_transpose := fun input _ _ => input;
              yaxt_decomposition := fun _ => 0 |} 1 0 []).2 = Streamed.
Proof.
  assert (Hid : (var_id Cases.enumerators Cases.new_object "thk").1
                <> CDI_GLOBAL Cases.enumerators) by (vm_compute; discriminate).
  split; [exact Hid|].
  exact (proj1 (set_bdiag_impl_releases Cases.enumerators Cases.new_object ∅ "thk"
                  _ 1 0 [] Hid)).
Defined.

(** Creating the grid of the new object twice, with 3 x 3 and with 5 x 5
    nodes. *)
Lemma create_grid_impl_creates_once_witness :
  (forall history call, Cases.counting history call <> -1) /\
  create_grid_impl Cases.enumerators Cases.counting
    (create_grid_impl Cases.enumerators Cases.counting Cases.new_object 3 3) 5 5
  = create_grid_impl Cases.enumerators Cases.counting Cases.new_object 3 3.
Proof.
  assert (Hanswer : forall history call, Cases.counting history call <> -1)
    by (intros history call; unfold Cases.counting; lia).
  split; [exact Hanswer|].
  exact (proj1 (proj2 (create_grid_impl_creates_once Cases.enumerators
                         Cases.counting Cases.new_object 3 3 5 5 Hanswer))).
Defined.

End MissingDimensionsOnTheNewObject.
